(** * Verification of the reshaping and aggregation pipeline of [utils.py]

    The development embeds the table operations of [utils.py] (the
    filters, [make_long], [map_and_order_edu], [compute_summary_stats]
    and [compute_percent]) and proves the properties its specification
    states about them.

    Modelling choices, all fixed here and used throughout:
    - a cell holds a number, a string or the missing marker.  Python
      integers and floats are both numbers; floats are idealised as exact
      rationals ([Q]), so results that pandas computes in floating point
      are stated up to [==] on [Q] and carry no rounding error;
    - a table is a header (column names with their dtype, in order) and a
      list of rows; a row is its index label and a dictionary from column
      name to cell.  Column names of a table are taken to be distinct, as
      they are in every table the pipeline builds from such a table;
    - an operation that raises in Python returns [Err];
    - the three functions that assign into a table ([df[c] = ...]) run
      over an explicit store of table objects, so that aliasing between
      the argument and the result is visible. *)

From Stdlib Require Import ZArith QArith Qreduction Lqa String.
From stdpp Require Import gmap strings list sorting.

Local Open Scope Z_scope.
Local Open Scope nat_scope.

(** ** Cells *)

Inductive value : Type :=
  | VNum (q : Q)
  | VStr (s : string)
  | VNaN.

Global Instance Q_eq_dec : EqDecision Q.
Proof. solve_decision. Defined.

Global Instance Q_inhabited : Inhabited Q := populate 0%Q.

Global Instance value_eq_dec : EqDecision value.
Proof. solve_decision. Defined.

Global Instance value_inhabited : Inhabited value := populate VNaN.

(** pandas' elementwise [==]: numbers compare by numeric value, strings
    by content, and the missing marker equals nothing, itself included. *)
Definition value_eqb (a b : value) : bool :=
  match a, b with
  | VNum p, VNum q => Qeq_bool p q
  | VStr s, VStr t => String.eqb s t
  | _, _ => false
  end.

(** [pd.isna]. *)
Definition isna (a : value) : bool :=
  match a with VNaN => true | _ => false end.

(** The hashable key under which a cell is grouped: numbers in lowest
    terms, strings as they are; a missing cell has no key. *)
Definition key_of (a : value) : option value :=
  match a with
  | VNum q => Some (VNum (Qred q))
  | VStr s => Some (VStr s)
  | VNaN => None
  end.

(** ** Errors *)

Inductive error : Type :=
  | KeyError (c : string)
  | IndexError
  | ValueError
  | TypeError
  | InvalidIndexError.

Inductive result (A : Type) : Type :=
  | Ok (a : A)
  | Err (e : error).
Arguments Ok {A} a.
Arguments Err {A} e.

Global Instance result_ret : MRet result := λ A a, Ok a.
Global Instance result_bind : MBind result := λ A B f m,
  match m with Ok a => f a | Err e => Err e end.
Global Instance result_fmap : FMap result := λ A B f m,
  match m with Ok a => Ok (f a) | Err e => Err e end.

(** ** Tables *)

Inductive dtype : Type :=
  | Plain
  | Categorical (categories : list string) (ordered : bool).

Global Instance dtype_eq_dec : EqDecision dtype.
Proof. solve_decision. Defined.

Abbreviation row := (gmap string value).

Record DataFrame : Type := mkDF {
  columns : list (string * dtype);
  rows : list (Z * row)
}.

Record Series : Type := mkSeries {
  s_dtype : dtype;
  s_data : list (Z * value)
}.

Definition col_names (df : DataFrame) : list string := fst <$> columns df.

Definition has_col (df : DataFrame) (c : string) : Prop := c ∈ col_names df.

Global Instance has_col_dec df c : Decision (has_col df c).
Proof. unfold has_col. apply _. Defined.

Definition nrows (df : DataFrame) : nat := length (rows df).

(** The cell of a row under a column; a cell that is not stored reads as
    missing. *)
Definition cell (r : row) (c : string) : value := default VNaN (r !! c).

Definition col_dtype (df : DataFrame) (c : string) : option dtype :=
  (list_to_map (columns df) : gmap string dtype) !! c.

(** [df[c]]: the column as a series, [KeyError] when it is absent. *)
Definition getitem (df : DataFrame) (c : string) : result Series :=
  match col_dtype df c with
  | Some d => Ok (mkSeries d ((λ ir, (ir.1, cell ir.2 c)) <$> rows df))
  | None => Err (KeyError c)
  end.

(** [series == v], as a mask aligned with the rows. *)
Definition series_eq (s : Series) (v : value) : list bool :=
  (λ iv, value_eqb iv.2 v) <$> s_data s.

(** [mask1 & mask2]. *)
Definition mask_and (m1 m2 : list bool) : list bool := zip_with andb m1 m2.

Definition take_mask {A} (l : list A) (mask : list bool) : list A :=
  fst <$> filter (λ xb, xb.2 = true) (zip l mask).

(** [df[mask]]: a new table holding the rows whose mask entry is true,
    with their index labels, in their order. *)
Definition getitem_mask (df : DataFrame) (mask : list bool) : DataFrame :=
  mkDF (columns df) (take_mask (rows df) mask).

(** ** Selector *)

Definition filter_by_parent_edu (df : DataFrame) (mother_code : value)
    (father_code : option value) : result DataFrame :=
  let father_code :=
    match father_code with None => mother_code | Some f => f end in
  m ← getitem df "Mother_edu_code";
  f ← getitem df "Father_edu_code";
  Ok (getitem_mask df
        (mask_and (series_eq m mother_code) (series_eq f father_code))).

Definition filter_one_parent (df : DataFrame) (parent : string)
    (parent_code : value) : result DataFrame :=
  p ← getitem df parent;
  Ok (getitem_mask df (series_eq p parent_code)).

(** ** Reshaper *)

Definition lookup_dtype (df : DataFrame) (c : string) : result (string * dtype) :=
  match col_dtype df c with
  | Some d => Ok (c, d)
  | None => Err (KeyError c)
  end.

(** [df[[c1, ..., cn]]]: a new table with the listed columns only. *)
Definition getitem_cols (df : DataFrame) (cs : list string) : result DataFrame :=
  hdr ← mapM (lookup_dtype df) cs;
  Ok (mkDF hdr ((λ ir, (ir.1, filter (λ kv, kv.1 ∈ cs) ir.2)) <$> rows df)).

Definition row_rename (old new : string) (r : row) : row :=
  match r !! old with
  | Some x => <[new:=x]> (delete old r)
  | None => r
  end.

(** [df.rename(columns={old: new})]. *)
Definition rename (df : DataFrame) (old new : string) : DataFrame :=
  mkDF ((λ cd, (if decide (cd.1 = old) then new else cd.1, cd.2)) <$> columns df)
       ((λ ir, (ir.1, row_rename old new ir.2)) <$> rows df).

(** The header after a column is assigned: an existing column keeps its
    place and takes the new dtype, a new one goes last. *)
Definition set_col (hdr : list (string * dtype)) (c : string) (d : dtype)
    : list (string * dtype) :=
  if decide (c ∈ hdr.*1)
  then (λ cd, if decide (cd.1 = c) then (c, d) else cd) <$> hdr
  else hdr ++ [(c, d)].

(** [df.assign(c=v)] with a scalar [v]: a new table. *)
Definition assign (df : DataFrame) (c : string) (v : value) : DataFrame :=
  mkDF (set_col (columns df) c Plain)
       ((λ ir, (ir.1, <[c:=v]> ir.2)) <$> rows df).

Definition dtype_union (d1 d2 : dtype) : dtype :=
  if decide (d1 = d2) then d1 else Plain.

(** [pd.concat([a, b])]: rows of [a] then rows of [b], index labels kept.
    With equal headers the columns line up; with different headers
    pandas takes the union of the columns, which it refuses when a
    header repeats a name. *)
Definition concat (a b : DataFrame) : result DataFrame :=
  if decide (col_names a = col_names b) then
    Ok (mkDF (zip_with (λ x y, (x.1, dtype_union x.2 y.2)) (columns a) (columns b))
             (rows a ++ rows b))
  else if decide (NoDup (col_names a) ∧ NoDup (col_names b)) then
    Ok (mkDF (((λ cd, (cd.1, Plain)) <$> columns a) ++
              ((λ cd, (cd.1, Plain)) <$> filter (λ cd, cd.1 ∉ col_names a) (columns b)))
             (rows a ++ rows b))
  else Err InvalidIndexError.

(** [l[i]] on a Python list. *)
Definition list_index {A} (l : list A) (i : nat) : result A :=
  match l !! i with
  | Some x => Ok x
  | None => Err IndexError
  end.

(** The default of [make_long]'s [parent_cols] parameter. *)
Definition parent_cols_default : list string :=
  ["Mother_edu_code"; "Father_edu_code"].

Definition make_long (df : DataFrame) (value_col : string)
    (parent_cols : list string) : result DataFrame :=
  p0 ← list_index parent_cols 0;
  mother_sel ← getitem_cols df [value_col; p0];
  let mother := assign (rename mother_sel p0 "Edu_code") "Parent" (VStr "Mother") in
  p1 ← list_index parent_cols 1;
  father_sel ← getitem_cols df [value_col; p1];
  let father := assign (rename father_sel p1 "Edu_code") "Parent" (VStr "Father") in
  concat mother father.

(** ** The store of table objects *)

Definition loc : Type := positive.

Abbreviation store := (gmap loc DataFrame).

Definition Py (A : Type) : Type := store → result (A * store).

Global Instance Py_ret : MRet Py := λ A a σ, Ok (a, σ).
Global Instance Py_bind : MBind Py := λ A B f m σ,
  match m σ with
  | Ok (a, σ') => f a σ'
  | Err e => Err e
  end.

Definition lift {A} (r : result A) : Py A := λ σ,
  match r with
  | Ok a => Ok (a, σ)
  | Err e => Err e
  end.

(** Reading the table a name refers to. *)
Definition deref (l : loc) : Py DataFrame := λ σ,
  match σ !! l with
  | Some d => Ok (d, σ)
  | None => Err TypeError
  end.

(** Allocating the table an expression constructs. *)
Definition new_frame (d : DataFrame) : Py loc := λ σ,
  let l := fresh (dom σ) in Ok (l, <[l:=d]> σ).

(** The table after [df[c] = s]: the values of [s] go into the rows by
    position; a series of another length is refused. *)
Definition set_column (d : DataFrame) (c : string) (s : Series) : result DataFrame :=
  if decide (length (s_data s) = length (rows d)) then
    Ok (mkDF (set_col (columns d) c (s_dtype s))
             (zip_with (λ ir iv, (ir.1, <[c:=iv.2]> ir.2)) (rows d) (s_data s)))
  else Err ValueError.

(** [df[c] = s]: assignment into the object at [l]. *)
Definition setitem (l : loc) (c : string) (s : Series) : Py unit := λ σ,
  match σ !! l with
  | Some d =>
      match set_column d c s with
      | Ok d' => Ok ((), <[l:=d']> σ)
      | Err e => Err e
      end
  | None => Err TypeError
  end.

(** ** Categorizer *)

(** A dictionary with integer keys, looked up at a cell: a number hits
    the key it is numerically equal to. *)
Definition code_of (v : value) : option Z :=
  match v with
  | VNum q => let r := Qred q in
              if decide (Qden r = 1%positive) then Some (Qnum r) else None
  | _ => None
  end.

Definition int_dict (d : gmap Z string) (v : value) : option value :=
  l ← code_of v ≫= (d !!.); Some (VStr l).

(** A dictionary with string keys, looked up at a cell. *)
Definition str_dict (d : gmap string string) (v : value) : option value :=
  match v with
  | VStr s => l ← d !! s; Some (VStr l)
  | _ => None
  end.

(** [series.map(dict)]: a value without an entry becomes missing.
    [series.map(None)] is a type error. *)
Definition series_map (s : Series) (mapper : option (value → option value))
    : result Series :=
  match mapper with
  | Some f => Ok (mkSeries Plain ((λ iv, (iv.1, default VNaN (f iv.2))) <$> s_data s))
  | None => Err TypeError
  end.

Definition str_of (v : value) : option string :=
  match v with VStr s => Some s | _ => None end.

Definition str_le (s t : string) : Prop := String.leb s t = true.

Global Instance str_le_dec s t : Decision (str_le s t).
Proof. unfold str_le. apply _. Defined.

(** [pd.Categorical(values, categories=..., ordered=True)] over string
    labels: values outside the categories become missing; categories
    that repeat are refused; with no categories given they are the
    distinct labels present, sorted. *)
Definition pd_Categorical (s : Series) (categories : option (list string))
    : result Series :=
  let cats :=
    match categories with
    | Some cs => cs
    | None => merge_sort str_le (remove_dups (omap (λ iv, str_of iv.2) (s_data s)))
    end in
  if decide (NoDup cats) then
    Ok (mkSeries (Categorical cats true)
          ((λ iv, (iv.1, match iv.2 with
                         | VStr l => if decide (l ∈ cats) then VStr l else VNaN
                         | _ => VNaN
                         end)) <$> s_data s))
  else Err ValueError.

Definition map_and_order_edu (df : loc) (edu_col label_col : string)
    (labels : option (gmap Z string)) (order : option (list string)) : Py loc :=
  T ← deref df;
  codes ← lift (getitem T edu_col);
  mapped ← lift (series_map codes (int_dict <$> labels));
  setitem df label_col mapped;;
  T' ← deref df;
  lab ← lift (getitem T' label_col);
  cat ← lift (pd_Categorical lab order);
  setitem df label_col cat;;
  mret df.

(** ** Aggregator: grouping *)

(** The key of a row under the grouping columns; a row with a missing
    cell in one of them has none and belongs to no group. *)
Definition row_key (keys : list string) (r : row) : option (list value) :=
  mapM (λ c, key_of (cell r c)) keys.

Definition cat_rank (cats : list string) (a : value) : nat :=
  match a with
  | VStr s => default (length cats) (fst <$> list_find (λ c, c = s) cats)
  | _ => length cats
  end.

(** The order in which group keys of one column are sorted: a categorical
    column by the position of the category, any other column numbers
    first by value, then strings by content. *)
Definition value_leb (d : dtype) (a b : value) : bool :=
  match d with
  | Categorical cats _ => cat_rank cats a <=? cat_rank cats b
  | Plain =>
      match a, b with
      | VNum p, VNum q => Qle_bool p q
      | VNum _, _ => true
      | VStr _, VNum _ => false
      | VStr s, VStr t => String.leb s t
      | VStr _, VNaN => true
      | VNaN, VNaN => true
      | VNaN, _ => false
      end
  end.

Fixpoint key_leb (ds : list dtype) (k1 k2 : list value) : bool :=
  match ds, k1, k2 with
  | d :: ds, a :: k1, b :: k2 =>
      if decide (a = b) then key_leb ds k1 k2 else value_leb d a b
  | _, _, _ => true
  end.

Definition key_le (ds : list dtype) (k1 k2 : list value) : Prop :=
  key_leb ds k1 k2 = true.

Global Instance key_le_dec ds k1 k2 : Decision (key_le ds k1 k2).
Proof. unfold key_le. apply _. Defined.

(** The keys of the groups of [df.groupby(by, observed=True)], in the
    order pandas lists them: the keys that occur, each once, sorted. *)
Definition group_keys (df : DataFrame) (keys : list (string * dtype))
    : list (list value) :=
  merge_sort (key_le keys.*2)
    (remove_dups (omap (λ ir, row_key keys.*1 ir.2) (rows df))).

Definition group_rows (df : DataFrame) (keys : list string) (k : list value)
    : list (Z * row) :=
  filter (λ ir, row_key keys ir.2 = Some k) (rows df).

(** The cells a group contributes to the key columns of the result. *)
Definition key_row (keys : list string) (k : list value) : row :=
  list_to_map (zip keys k).

(** [df.groupby(by, observed=True).size().reset_index(name=name)]. *)
Definition groupby_size (df : DataFrame) (keys : list string) (name : string)
    : result DataFrame :=
  hdr ← mapM (lookup_dtype df) keys;
  if decide (NoDup keys ∧ name ∉ keys) then
    Ok (mkDF (hdr ++ [(name, Plain)])
          (imap (λ i k, (Z.of_nat i,
                         <[name:=VNum (inject_Z (Z.of_nat (length (group_rows df keys k))))]>
                           (key_row keys k)))
                (group_keys df hdr)))
  else Err ValueError.

(** ** Aggregator: numeric columns *)

(** The number in a cell of a numeric column; a missing cell is skipped
    by the aggregations, a string cell makes them fail. *)
Definition num_of (v : value) : result (option Q) :=
  match v with
  | VNum q => Ok (Some q)
  | VNaN => Ok None
  | VStr _ => Err TypeError
  end.

Definition nums (vs : list value) : result (list Q) :=
  os ← mapM num_of vs; Ok (omap id os).

Definition Qsum (l : list Q) : Q := foldr Qplus 0%Q l.

Global Instance Qle_dec (p q : Q) : Decision (p <= q)%Q.
Proof.
  destruct (Qle_bool p q) eqn:E.
  - left. by apply Qle_bool_iff.
  - right. intros H. apply Qle_bool_iff in H. congruence.
Defined.

(** ["mean"]: the arithmetic mean of the numbers present. *)
Definition mean (xs : list Q) : value :=
  match xs with
  | [] => VNaN
  | _ => VNum (Qred (Qsum xs / inject_Z (Z.of_nat (length xs))))
  end.

(** ["median"]: the middle of the sorted numbers present, the average of
    the two middle ones when their number is even. *)
Definition median (xs : list Q) : value :=
  let s := merge_sort Qle xs in
  let n := length s in
  if decide (n = 0) then VNaN
  else if Nat.odd n then VNum (Qred (s !!! (n / 2)))
  else VNum (Qred ((s !!! (n / 2 - 1) + s !!! (n / 2)) / 2)).

Inductive aggfunc : Type := AggMean | AggMedian | AggSum.

Definition agg_apply (f : aggfunc) (xs : list Q) : value :=
  match f with
  | AggMean => mean xs
  | AggMedian => median xs
  | AggSum => VNum (Qred (Qsum xs))
  end.

(** One aggregation of a column over a list of rows. *)
Definition agg_rows (f : aggfunc) (c : string) (rs : list (Z * row)) : result value :=
  xs ← nums ((λ ir, cell ir.2 c) <$> rs); Ok (agg_apply f xs).

(** [df.groupby(by, observed=True)[c].transform("sum")]: for every row
    the sum of [c] over the row's group; a row outside every group gets
    the missing marker. *)
Definition groupby_transform_sum (df : DataFrame) (keys : list string) (c : string)
    : result Series :=
  _ ← mapM (lookup_dtype df) keys;
  _ ← getitem df c;
  data ← mapM (λ ir,
            match row_key keys ir.2 with
            | Some k => t ← agg_rows AggSum c (group_rows df keys k); Ok (ir.1, t)
            | None => Ok (ir.1, VNaN)
            end) (rows df);
  Ok (mkSeries Plain data).

(** [a / b] on cells.  Division by zero gives pandas an infinity or a
    NaN; the model has no infinity and gives the missing marker. *)
Definition value_div (a b : value) : result value :=
  match a, b with
  | VNum p, VNum q => Ok (if Qeq_bool q 0 then VNaN else VNum (Qred (p / q)))
  | VStr _, _ | _, VStr _ => Err TypeError
  | _, _ => Ok VNaN
  end.

(** [a * k] on a cell and a number. *)
Definition value_mul (a : value) (k : Q) : result value :=
  match a with
  | VNum p => Ok (VNum (Qred (p * k)))
  | VNaN => Ok VNaN
  | VStr _ => Err TypeError
  end.

(** [s / t] on two series over the same rows. *)
Definition series_div (s t : Series) : result Series :=
  if decide (length (s_data s) = length (s_data t)) then
    data ← mapM (λ p, v ← value_div p.1.2 p.2.2; Ok (p.1.1, v))
                (zip (s_data s) (s_data t));
    Ok (mkSeries Plain data)
  else Err ValueError.

(** [s * k]. *)
Definition series_mul (s : Series) (k : Q) : result Series :=
  data ← mapM (λ iv, v ← value_mul iv.2 k; Ok (iv.1, v)) (s_data s);
  Ok (mkSeries Plain data).

(** [df.groupby(by, observed=True).agg(name=(c, f), ...).reset_index()].
    The aggregated columns must exist and not be grouping columns, and a
    result name must not repeat a grouping column. *)
Definition groupby_agg (df : DataFrame) (keys : list string)
    (aggs : list (string * (string * aggfunc))) : result DataFrame :=
  hdr ← mapM (lookup_dtype df) keys;
  _ ← mapM (λ a, if decide (a.2.1 ∈ keys) then Err (KeyError a.2.1)
                 else lookup_dtype df a.2.1) aggs;
  if decide (NoDup keys ∧ Forall (λ a, a.1 ∉ keys) aggs) then
    data ← mapM (λ k,
              vals ← mapM (λ a, v ← agg_rows a.2.2 a.2.1 (group_rows df keys k);
                                Ok (a.1, v)) aggs;
              Ok ((list_to_map vals : row) ∪ key_row keys k))
            (group_keys df hdr);
    Ok (mkDF (hdr ++ ((λ a, (a.1, Plain)) <$> aggs))
             (imap (λ i r, (Z.of_nat i, r)) data))
  else Err ValueError.

(** [df.melt(id_vars, value_vars, var_name, value_name)]: for each of
    the value columns in turn, one row per row of [df] holding the id
    cells, the column's name and the column's cell.  pandas refuses a
    [value_name] that names a column of [df]; equal [var_name] and
    [value_name] are refused here as well. *)
Definition melt (df : DataFrame) (id_vars value_vars : list string)
    (var_name value_name : string) : result DataFrame :=
  hdr ← mapM (lookup_dtype df) id_vars;
  _ ← mapM (lookup_dtype df) value_vars;
  if decide (value_name ∈ col_names df ∨ var_name = value_name) then Err ValueError
  else
    Ok (mkDF (hdr ++ [(var_name, Plain); (value_name, Plain)])
          (imap (λ i r, (Z.of_nat i, r))
             (value_vars ≫= λ v,
                (λ ir, <[value_name:=cell ir.2 v]>
                         (<[var_name:=VStr v]>
                            (filter (λ kv, kv.1 ∈ id_vars) ir.2))) <$> rows df))).

(** ** Aggregator: the two operations *)

Definition compute_summary_stats (df : loc) (value_col : string) : Py loc :=
  T ← deref df;
  grouped ← lift (groupby_agg T ["Parent"; "Education Level"]
                    [("Mean_Age", (value_col, AggMean));
                     ("Median_Age", (value_col, AggMedian))]);
  summary_df ← new_frame grouped;
  S ← deref summary_df;
  melted ← lift (melt S ["Parent"; "Education Level"] ["Mean_Age"; "Median_Age"]
                   "Statistic" value_col);
  summary_long ← new_frame melted;
  L ← deref summary_long;
  stat ← lift (getitem L "Statistic");
  mapped ← lift (series_map stat
                   (Some (str_dict {["Mean_Age" := "Mean"; "Median_Age" := "Median"]})));
  setitem summary_long "Statistic" mapped;;
  mret summary_long.

Definition compute_percent (df : loc) (target_col : string) : Py loc :=
  T ← deref df;
  sized ← lift (groupby_size T ["Parent"; "Education Level"; target_col] "Count");
  counts ← new_frame sized;
  C ← deref counts;
  cnt ← lift (getitem C "Count");
  tot ← lift (groupby_transform_sum C ["Parent"; "Education Level"] "Count");
  quot ← lift (series_div cnt tot);
  pct ← lift (series_mul quot 100);
  setitem counts "Percent" pct;;
  mret counts.

(** The table a computation returns, read from the store it leaves. *)
Definition result_table (p : Py loc) (σ : store) : result DataFrame :=
  match p σ with
  | Ok (r, σ') =>
      match σ' !! r with
      | Some d => Ok d
      | None => Err TypeError
      end
  | Err e => Err e
  end.

(** ** Vocabulary of the specification *)

(** A wide table has the two parent-education columns. *)
Definition wide_table (T : DataFrame) : Prop :=
  has_col T "Mother_edu_code" ∧ has_col T "Father_edu_code".

(** A value column of a wide table: a column of the table other than
    the parent columns and the [Edu_code] column the reshaper creates. *)
Definition value_column (T : DataFrame) (v : string) : Prop :=
  has_col T v ∧ v ∉ ["Mother_edu_code"; "Father_edu_code"; "Edu_code"].

(** The grouping columns of the aggregator. *)
Definition group_cols : list string := ["Parent"; "Education Level"].

(** A categorized long table has the grouping columns. *)
Definition categorized (T : DataFrame) : Prop :=
  has_col T "Parent" ∧ has_col T "Education Level".

(** A target column: a column of the table other than the grouping
    columns and the two columns [compute_percent] adds. *)
Definition target_column (T : DataFrame) (c : string) : Prop :=
  has_col T c ∧ c ∉ ["Parent"; "Education Level"; "Count"; "Percent"].

(** A numeric value column of a categorized table: a column other than
    the grouping columns and the names [compute_summary_stats] uses,
    whose cells are numbers or missing. *)
Definition numeric_column (T : DataFrame) (c : string) : Prop :=
  has_col T c
  ∧ (c ∉ ["Parent"; "Education Level"; "Mean_Age"; "Median_Age"; "Statistic"])
  ∧ (∀ ir, ir ∈ rows T → ∀ s, cell ir.2 c ≠ VStr s).

(** The records of the (Parent, EducationLevel) group [p], [e]. *)
Definition group_records (T : DataFrame) (p e : value) : list (Z * row) :=
  group_rows T group_cols [p; e].

(** The number in a cell, zero when there is none. *)
Definition cell_num (v : value) : Q :=
  match v with VNum q => q | _ => 0%Q end.

(** The sum of a column over a list of rows. *)
Definition column_sum (c : string) (rs : list (Z * row)) : Q :=
  Qsum ((λ ir, cell_num (cell ir.2 c)) <$> rs).

(** The numbers present in a column over a list of rows. *)
Definition present_nums (c : string) (rs : list (Z * row)) : list Q :=
  omap (λ ir, match cell ir.2 c with VNum q => Some q | _ => None end) rs.

(** The records of a list whose cell under [c] is not missing. *)
Definition with_present (c : string) (rs : list (Z * row)) : list (Z * row) :=
  filter (λ ir, isna (cell ir.2 c) = false) rs.

(** [v] is the arithmetic mean of [xs]: their sum divided by their
    number; of no numbers at all it is the missing marker. *)
Definition is_mean (xs : list Q) (v : value) : Prop :=
  match xs with
  | [] => v = VNaN
  | _ => (∃ q, v = VNum q ∧ (q * inject_Z (Z.of_nat (length xs)) == Qsum xs)%Q)
  end.

(** [v] is the median of [xs]: with the numbers in ascending order, the
    middle one when their number is odd, the average of the two middle
    ones when it is even; of no numbers at all it is the missing marker. *)
Definition is_median (xs : list Q) (v : value) : Prop :=
  match xs with
  | [] => v = VNaN
  | _ => ∃ s q, v = VNum q ∧ s ≡ₚ xs ∧ Sorted Qle s ∧
      let n := length xs in
      if Nat.odd n
      then ∃ m, s !! (n / 2) = Some m ∧ (q == m)%Q
      else ∃ a b, s !! (n / 2 - 1) = Some a ∧ s !! (n / 2) = Some b
                  ∧ (q == (a + b) / 2)%Q
  end.

(** The table without the rows whose education level is missing. *)
Definition drop_unlabelled (T : DataFrame) : DataFrame :=
  mkDF (columns T) (with_present "Education Level" (rows T)).

(** ** Tables of the test suite and of the scenarios *)

Definition wide_row (i m f : Z) (t : string) (a : Z) : Z * row :=
  (i, {[ "Mother_edu_code" := VNum (inject_Z m);
         "Father_edu_code" := VNum (inject_Z f);
         "Target" := VStr t;
         "Age" := VNum (inject_Z a) ]}).

(** The fixture [dummy_df] of [tests/test_utils.py]. *)
Definition dummy_df : DataFrame :=
  mkDF [("Mother_edu_code", Plain); ("Father_edu_code", Plain);
        ("Target", Plain); ("Age", Plain)]
       [wide_row 0 2 2 "Graduate" 20; wide_row 1 3 3 "Dropout" 21;
        wide_row 2 2 5 "Graduate" 22; wide_row 3 5 5 "Dropout" 23].

(** The module constants [EDU_LABELS] and [EDU_ORDER]. *)
Definition EDU_LABELS : gmap Z string :=
  {[ 2%Z := "Some Level of Elementary School";
     3%Z := "Completed Elementary School";
     4%Z := "Completed Middle School";
     5%Z := "Completed High School";
     7%Z := "Completed their Bachelors Degree" ]}.

Definition EDU_ORDER : list string :=
  ["Some Level of Elementary School"; "Completed Elementary School";
   "Completed Middle School"; "Completed High School";
   "Completed their Bachelors Degree"].

Definition long_row (i : Z) (p l : string) (t : value) (a : Z) : Z * row :=
  (i, {[ "Parent" := VStr p; "Education Level" := VStr l;
         "Target" := t; "Age" := VNum (inject_Z a) ]}).

Definition long_header : list (string * dtype) :=
  [("Parent", Plain);
   ("Education Level", Categorical ["Elementary"; "Middle"; "High"] true);
   ("Target", Plain); ("Age", Plain)].

(** A categorized long table in which one record of the group
    (Mother, Elementary) has no target value. *)
Definition missing_target_df : DataFrame :=
  mkDF long_header
       [long_row 0 "Mother" "Elementary" (VStr "Graduate") 20;
        long_row 1 "Mother" "Elementary" VNaN 21].

(** ** Closed forms

    The tables and rows the operations build, written out as
    functions of the argument table; the properties below relate the
    operations to them. *)

(** The header entries of the listed columns. *)
Definition header_of (T : DataFrame) (cs : list string) : list (string * dtype) :=
  (λ c, (c, default Plain (col_dtype T c))) <$> cs.

(** The long record the reshaper makes of a wide row for the parent
    column [p] under the tag [tag]. *)
Definition long_record (p tag v : string) (ir : Z * row) : Z * row :=
  (ir.1, <["Parent":=VStr tag]>
           (row_rename p "Edu_code" (filter (λ kv, kv.1 ∈ [v; p]) ir.2))).

(** The column names of the long table. *)
Definition long_names (v : string) : list string :=
  if decide (v = "Parent") then ["Parent"; "Edu_code"] else [v; "Edu_code"; "Parent"].

(** The label cell the categorizer gives a row with code cell [v]. *)
Definition label_of (labels : gmap Z string) (order : list string) (v : value) : value :=
  match default VNaN (int_dict labels v) with
  | VStr s => if decide (s ∈ order) then VStr s else VNaN
  | _ => VNaN
  end.

(** The table the categorizer leaves in place of its argument. *)
Definition categorized_table (T : DataFrame) (edu_col label_col : string)
    (labels : gmap Z string) (order : list string) : DataFrame :=
  mkDF (set_col (set_col (columns T) label_col Plain) label_col (Categorical order true))
       ((λ ir, (ir.1, <[label_col:=label_of labels order (cell ir.2 edu_col)]> ir.2))
          <$> rows T).

(** A store holding the test fixture, and the table of the
    categorizer's own test. *)
Definition edu_code_df : DataFrame :=
  mkDF [("Edu_code", Plain)]
       [(0%Z, {[ "Edu_code" := VNum 2 ]}); (1%Z, {[ "Edu_code" := VNum 3 ]});
        (2%Z, {[ "Edu_code" := VNum 5 ]})].

Definition test_labels : gmap Z string :=
  {[ 2%Z := "Elementary"; 3%Z := "Middle"; 5%Z := "High" ]}.

Definition test_order : list string := ["Elementary"; "Middle"; "High"].

(** The key of an element is one of the listed keys. *)
Definition key_in {A K} (f : A → option K) (ks : list K) (x : A) : Prop :=
  match f x with Some k => k ∈ ks | None => False end.

Global Instance key_in_dec {A K} `{!EqDecision K} (f : A → option K) ks x :
  Decision (key_in f ks x).
Proof. unfold key_in. destruct (f x); apply _. Defined.

(** Cell division and multiplication where nothing is a string. *)
Definition vdiv (a b : value) : value :=
  match a, b with
  | VNum p, VNum q => if Qeq_bool q 0 then VNaN else VNum (Qred (p / q))
  | _, _ => VNaN
  end.

Definition vmul (a : value) (k : Q) : value :=
  match a with
  | VNum p => VNum (Qred (p * k))
  | _ => VNaN
  end.

Definition not_str (v : value) : Prop :=
  match v with VStr _ => False | _ => True end.

(** The total a row gets from [transform("sum")]. *)
Definition total_of (C : DataFrame) (keys : list string) (c : string) (r : row) : value :=
  match row_key keys r with
  | Some k => VNum (Qred (column_sum c (group_rows C keys k)))
  | None => VNaN
  end.

(** The table [compute_percent] builds, as a function of the argument
    table alone. *)
Definition percent_of (T : DataFrame) (target_col : string) : result DataFrame :=
  sized ← groupby_size T ["Parent"; "Education Level"; target_col] "Count";
  cnt ← getitem sized "Count";
  tot ← groupby_transform_sum sized ["Parent"; "Education Level"] "Count";
  quot ← series_div cnt tot;
  pct ← series_mul quot 100;
  set_column sized "Percent" pct.

(** The three grouping columns of [compute_percent]. *)
Definition percent_keys (target_col : string) : list string :=
  ["Parent"; "Education Level"; target_col].

(** The row of a group in the table of counts. *)
Definition count_row (T : DataFrame) (target_col : string) (k : list value) : row :=
  <["Count":=VNum (inject_Z (Z.of_nat (length (group_rows T (percent_keys target_col) k))))]>
    (key_row (percent_keys target_col) k).

(** The table of counts, [counts] before the [Percent] column. *)
Definition sized_table (T : DataFrame) (target_col : string) : DataFrame :=
  mkDF (header_of T (percent_keys target_col) ++ [("Count", Plain)])
       (imap (λ i k, (Z.of_nat i, count_row T target_col k))
             (group_keys T (header_of T (percent_keys target_col)))).

(** The percentage of a row of the table of counts. *)
Definition percent_cell (C : DataFrame) (r : row) : value :=
  vmul (vdiv (cell r "Count") (total_of C group_cols "Count" r)) 100.

Definition percent_table (T : DataFrame) (target_col : string) : DataFrame :=
  let C := sized_table T target_col in
  mkDF (set_col (columns C) "Percent" Plain)
       ((λ ir, (ir.1, <["Percent":=percent_cell C ir.2]> ir.2)) <$> rows C).

(** The row of a group in the percentage table. *)
Definition percent_row (T : DataFrame) (tc : string) (k : list value) : row :=
  <["Percent":=percent_cell (sized_table T tc) (count_row T tc k)]> (count_row T tc k).

(** The keys of the groups of [compute_percent] that lie in the
    (Parent, EducationLevel) group [p], [e]. *)
Definition keys_of_group (T : DataFrame) (tc : string) (p e : value) : list (list value) :=
  filter (λ k, take 2 k = [p; e]) (group_keys T (header_of T (percent_keys tc))).

(** The named aggregations of [compute_summary_stats]. *)
Definition summary_aggs (value_col : string) : list (string * (string * aggfunc)) :=
  [("Mean_Age", (value_col, AggMean)); ("Median_Age", (value_col, AggMedian))].

Definition stat_names : gmap string string :=
  {["Mean_Age" := "Mean"; "Median_Age" := "Median"]}.

(** The table [compute_summary_stats] builds from the grouped table, and
    from the argument table. *)
Definition summary_long_of (grouped : DataFrame) (value_col : string) : result DataFrame :=
  melted ← melt grouped ["Parent"; "Education Level"] ["Mean_Age"; "Median_Age"]
             "Statistic" value_col;
  stat ← getitem melted "Statistic";
  mapped ← series_map stat (Some (str_dict stat_names));
  set_column melted "Statistic" mapped.

Definition summary_of (T : DataFrame) (value_col : string) : result DataFrame :=
  grouped ← groupby_agg T ["Parent"; "Education Level"] (summary_aggs value_col);
  summary_long_of grouped value_col.

(** The row of a group in the grouped table of
    [compute_summary_stats]. *)
Definition agg_row (T : DataFrame) (vc : string) (k : list value) : row :=
  (list_to_map [("Mean_Age", mean (present_nums vc (group_rows T group_cols k)));
                ("Median_Age", median (present_nums vc (group_rows T group_cols k)))]
     : row) ∪ key_row group_cols k.

Definition grouped_table (T : DataFrame) (vc : string) : DataFrame :=
  mkDF (header_of T group_cols ++ ((λ a, (a.1, Plain)) <$> summary_aggs vc))
       (imap (λ i r, (Z.of_nat i, r))
             (agg_row T vc <$> group_keys T (header_of T group_cols))).

(** The row of the summary table for the statistic column [v] of the
    grouped row [g]. *)
Definition stat_row (vc v : string) (g : row) : row :=
  <["Statistic":=default VNaN (str_dict stat_names (VStr v))]>
    (<[vc:=cell g v]>
       (<["Statistic":=VStr v]> (filter (λ kv, kv.1 ∈ group_cols) g))).

Definition melted_table (G : DataFrame) (vc : string) : DataFrame :=
  mkDF (header_of G group_cols ++ [("Statistic", Plain); (vc, Plain)])
       (imap (λ i r, (Z.of_nat i, r))
          (["Mean_Age"; "Median_Age"] ≫= λ v,
             (λ ir, <[vc:=cell ir.2 v]>
                      (<["Statistic":=VStr v]>
                         (filter (λ kv, kv.1 ∈ group_cols) ir.2))) <$> rows G)).

Definition summary_table (T : DataFrame) (vc : string) : DataFrame :=
  let M := melted_table (grouped_table T vc) vc in
  mkDF (set_col (columns M) "Statistic" Plain)
       ((λ ir, (ir.1, <["Statistic":=default VNaN
                                        (str_dict stat_names (cell ir.2 "Statistic"))]> ir.2))
          <$> rows M).

(** A categorized long table of four records with ages. *)
Definition ages_df : DataFrame :=
  mkDF long_header
       [long_row 0 "Mother" "Elementary" (VStr "Graduate") 20;
        long_row 1 "Mother" "Elementary" (VStr "Dropout") 23;
        long_row 2 "Father" "High" (VStr "Graduate") 22;
        long_row 3 "Mother" "Elementary" (VStr "Graduate") 21].

(** A table with a code that the label map of the test does not know. *)
Definition unmapped_code_df : DataFrame :=
  mkDF [("Edu_code", Plain)]
       [(0%Z, {[ "Edu_code" := VNum 2 ]}); (1%Z, {[ "Edu_code" := VNum 9 ]})].


(** The categories [pd.Categorical] infers when [map_and_order_edu] is
    called without an order: the labels the rows get, each once,
    sorted. *)
Definition inferred_order (T : DataFrame) (edu_col : string) (labels : gmap Z string)
    : list string :=
  merge_sort str_le
    (remove_dups
       (omap (λ ir : Z * row, str_of (default VNaN (int_dict labels (cell ir.2 edu_col))))
             (rows T))).

(** * Properties *)

(** ** The result monad *)

Lemma bind_Ok {A B} (f : A → result B) (a : A) : Ok a ≫= f = f a.
Proof. reflexivity. Qed.

Lemma bind_Err {A B} (f : A → result B) (e : error) : Err e ≫= f = Err e.
Proof. reflexivity. Qed.

Lemma mapM_Ok {A B} (f : A → result B) (g : A → B) (l : list A) :
  (∀ x, x ∈ l → f x = Ok (g x)) → mapM f l = Ok (g <$> l).
Proof.
  induction l as [|x l IH]; intros Hf; [reflexivity|].
  cbn. rewrite (Hf x) by left. cbn.
  rewrite IH; [reflexivity|]. intros y Hy. apply Hf. by right.
Qed.

(** ** Headers *)

Lemma col_dtype_is_Some (T : DataFrame) (c : string) :
  has_col T c → is_Some (col_dtype T c).
Proof.
  unfold has_col, col_names, col_dtype. intros Hc.
  destruct (list_to_map (columns T) !! c) eqn:E; [eauto|].
  apply not_elem_of_list_to_map in E. contradiction.
Qed.

Lemma col_dtype_has_col (T : DataFrame) (c : string) (d : dtype) :
  col_dtype T c = Some d → has_col T c.
Proof.
  unfold has_col, col_names, col_dtype. intros E.
  apply elem_of_list_to_map_2 in E.
  apply list_elem_of_fmap. by exists (c, d).
Qed.

Lemma getitem_Ok (T : DataFrame) (c : string) :
  has_col T c →
  ∃ d, col_dtype T c = Some d
       ∧ getitem T c = Ok (mkSeries d ((λ ir, (ir.1, cell ir.2 c)) <$> rows T)).
Proof.
  intros [d Hd]%col_dtype_is_Some. exists d. split; [done|].
  unfold getitem. by rewrite Hd.
Qed.

Lemma header_of_names (T : DataFrame) (cs : list string) : (header_of T cs).*1 = cs.
Proof.
  unfold header_of. rewrite <- list_fmap_compose.
  induction cs as [|c cs IH]; [done|]. cbn. by rewrite IH.
Qed.

Lemma mapM_lookup_dtype (T : DataFrame) (cs : list string) :
  Forall (has_col T) cs → mapM (lookup_dtype T) cs = Ok (header_of T cs).
Proof.
  intros H. apply mapM_Ok. intros c Hc.
  rewrite Forall_forall in H. destruct (col_dtype_is_Some T c (H c Hc)) as [d Hd].
  unfold lookup_dtype. by rewrite Hd.
Qed.

(** ** Masks *)

Lemma take_mask_fmap {A} (l : list A) (p : A → bool) :
  take_mask l (p <$> l) = filter (λ x, p x = true) l.
Proof.
  unfold take_mask. induction l as [|x l IH]; [done|].
  rewrite fmap_cons.
  change (zip (x :: l) (p x :: (p <$> l))) with ((x, p x) :: zip l (p <$> l)).
  rewrite !filter_cons. simpl.
  destruct (decide (p x = true)); [rewrite fmap_cons; simpl|]; by rewrite IH.
Qed.

Lemma mask_and_fmap {A} (l : list A) (p q : A → bool) :
  mask_and (p <$> l) (q <$> l) = (λ x, p x && q x) <$> l.
Proof.
  unfold mask_and. induction l as [|x l IH]; [done|]. cbn. by rewrite IH.
Qed.

Lemma series_eq_getitem (d : dtype) (rs : list (Z * row)) (c : string) (v : value) :
  series_eq (mkSeries d ((λ ir, (ir.1, cell ir.2 c)) <$> rs)) v
  = (λ ir : Z * row, value_eqb (cell ir.2 c) v) <$> rs.
Proof. unfold series_eq. cbn. by rewrite <- list_fmap_compose. Qed.

(** The rows [filter_by_parent_edu] keeps and the rows
    [filter_one_parent] keeps. *)
Lemma filter_by_parent_edu_rows (T : DataFrame) (m f : value) :
  has_col T "Mother_edu_code" → has_col T "Father_edu_code" →
  filter_by_parent_edu T m (Some f)
  = Ok (mkDF (columns T)
          (filter (λ ir, value_eqb (cell ir.2 "Mother_edu_code") m
                         && value_eqb (cell ir.2 "Father_edu_code") f = true)
                  (rows T))).
Proof.
  intros (dm & _ & Hm)%getitem_Ok (df & _ & Hf)%getitem_Ok.
  unfold filter_by_parent_edu. rewrite Hm, bind_Ok, Hf, bind_Ok.
  unfold getitem_mask. rewrite !series_eq_getitem, mask_and_fmap, take_mask_fmap.
  reflexivity.
Qed.

Lemma filter_one_parent_rows (T : DataFrame) (parent : string) (code : value) :
  has_col T parent →
  filter_one_parent T parent code
  = Ok (mkDF (columns T)
          (filter (λ ir, value_eqb (cell ir.2 parent) code = true) (rows T))).
Proof.
  intros (d & _ & Hp)%getitem_Ok.
  unfold filter_one_parent. rewrite Hp, bind_Ok.
  unfold getitem_mask. by rewrite series_eq_getitem, take_mask_fmap.
Qed.

(** ** Selector: the claims *)

Lemma dummy_df_wide : wide_table dummy_df.
Proof. split; unfold has_col; cbn; repeat constructor. Defined.

(** C3. For every table with the two parent-education columns and all
    codes [m] and [f], [filter_by_parent_edu] returns exactly the rows
    whose [Mother_edu_code] equals [m] and whose [Father_edu_code]
    equals [f] (equality of cells being pandas' [==]): every returned
    row is such a row of the table and every such row is returned.
    With the father code omitted it defaults to [m]: the rows returned
    are those where both parents have code [m]. *)
Theorem filter_by_parent_edu_exact (T : DataFrame) (m f : value) :
  has_col T "Mother_edu_code" → has_col T "Father_edu_code" →
  (∃ R, filter_by_parent_edu T m (Some f) = Ok R
      ∧ columns R = columns T
      ∧ ∀ ir, ir ∈ rows R ↔
          ir ∈ rows T ∧ value_eqb (cell ir.2 "Mother_edu_code") m = true
                      ∧ value_eqb (cell ir.2 "Father_edu_code") f = true)
  ∧ (∃ R, filter_by_parent_edu T m None = Ok R
      ∧ columns R = columns T
      ∧ ∀ ir, ir ∈ rows R ↔
          ir ∈ rows T ∧ value_eqb (cell ir.2 "Mother_edu_code") m = true
                      ∧ value_eqb (cell ir.2 "Father_edu_code") m = true).
Proof.
  intros Hm Hf.
  assert (∀ f', ∃ R, filter_by_parent_edu T m (Some f') = Ok R
            ∧ columns R = columns T
            ∧ ∀ ir, ir ∈ rows R ↔
                ir ∈ rows T ∧ value_eqb (cell ir.2 "Mother_edu_code") m = true
                            ∧ value_eqb (cell ir.2 "Father_edu_code") f' = true) as H.
  { intros f'. eexists. split; [by apply filter_by_parent_edu_rows|].
    split; [done|]. intros ir. cbn [rows].
    rewrite list_elem_of_filter, andb_true_iff. tauto. }
  split; [apply H|apply (H m)].
Qed.

Lemma filter_by_parent_edu_exact_witness :
  ∃ R, filter_by_parent_edu dummy_df (VNum 2) (Some (VNum 2)) = Ok R
     ∧ columns R = columns dummy_df
     ∧ ∀ ir, ir ∈ rows R ↔
         ir ∈ rows dummy_df
         ∧ value_eqb (cell ir.2 "Mother_edu_code") (VNum 2) = true
         ∧ value_eqb (cell ir.2 "Father_edu_code") (VNum 2) = true.
Proof.
  apply (filter_by_parent_edu_exact dummy_df (VNum 2) (VNum 2));
    apply dummy_df_wide.
Defined.

(** C10. Both filters return a subsequence of the rows of their input:
    whenever the columns they read are present, the rows of the result
    (index label and cells) are rows of the input, each taken at most
    once and in the input's order. *)
Theorem filters_return_subsequence (T : DataFrame) (m : value)
    (f : option value) (parent : string) (code : value) :
  (has_col T "Mother_edu_code" → has_col T "Father_edu_code" →
     ∃ R, filter_by_parent_edu T m f = Ok R ∧ rows R `sublist_of` rows T)
  ∧ (has_col T parent →
     ∃ R, filter_one_parent T parent code = Ok R ∧ rows R `sublist_of` rows T).
Proof.
  split.
  - intros Hm Hf.
    assert (∀ f', ∃ R, filter_by_parent_edu T m (Some f') = Ok R
                       ∧ rows R `sublist_of` rows T) as H.
    { intros f'. eexists. split; [by apply filter_by_parent_edu_rows|].
      apply sublist_filter. }
    destruct f as [f'|]; [apply H|apply (H m)].
  - intros Hp. eexists. split; [by apply filter_one_parent_rows|].
    apply sublist_filter.
Qed.

Lemma filters_return_subsequence_witness :
  (∃ R, filter_by_parent_edu dummy_df (VNum 2) None = Ok R
        ∧ rows R `sublist_of` rows dummy_df)
  ∧ (∃ R, filter_one_parent dummy_df "Father_edu_code" (VNum 5) = Ok R
          ∧ rows R `sublist_of` rows dummy_df).
Proof.
  destruct (filters_return_subsequence dummy_df (VNum 2) None
              "Father_edu_code" (VNum 5)) as [H1 H2].
  split; [apply H1|apply H2]; apply dummy_df_wide.
Defined.

(** ** Reshaper *)

Lemma lookup_select (cs : list string) (r : row) (c : string) :
  (filter (λ kv : string * value, kv.1 ∈ cs) r : row) !! c
  = if decide (c ∈ cs) then r !! c else None.
Proof.
  destruct (decide (c ∈ cs)) as [Hc|Hc].
  - destruct (r !! c) as [x|] eqn:E.
    + apply map_lookup_filter_Some. by split.
    + apply map_lookup_filter_None. left. done.
  - apply map_lookup_filter_None. right. intros x _. done.
Qed.

Lemma long_record_parent (p tag v : string) (ir : Z * row) :
  cell (long_record p tag v ir).2 "Parent" = VStr tag.
Proof. unfold cell, long_record. cbn [snd]. by rewrite lookup_insert_eq. Qed.

Lemma long_record_edu_code (p tag v : string) (ir : Z * row) :
  v ≠ "Edu_code" → p ≠ "Edu_code" →
  cell (long_record p tag v ir).2 "Edu_code" = cell ir.2 p.
Proof.
  intros Hv Hp. unfold cell, long_record, row_rename. cbn [snd].
  rewrite lookup_insert_ne by done.
  rewrite (lookup_select [v; p] ir.2 p).
  rewrite decide_True by set_solver.
  destruct (ir.2 !! p) as [x|] eqn:E.
  - by rewrite lookup_insert_eq.
  - rewrite lookup_select. rewrite decide_False; [done|]. set_solver.
Qed.

Lemma long_record_value (p tag v : string) (ir : Z * row) :
  v ∉ ["Edu_code"; "Parent"; p] →
  cell (long_record p tag v ir).2 v = cell ir.2 v.
Proof.
  intros Hv. unfold cell, long_record, row_rename. cbn [snd].
  rewrite lookup_insert_ne by set_solver.
  destruct (filter _ ir.2 !! p) as [x|] eqn:E.
  - rewrite lookup_insert_ne by set_solver.
    rewrite lookup_delete_ne by set_solver.
    rewrite lookup_select. rewrite decide_True; [done|]. set_solver.
  - rewrite lookup_select. rewrite decide_True; [done|]. set_solver.
Qed.

Lemma long_record_other (p tag v c : string) (ir : Z * row) :
  c ∉ [v; "Edu_code"; "Parent"] →
  (long_record p tag v ir).2 !! c = None.
Proof.
  intros Hc. unfold long_record, row_rename. cbn [snd].
  rewrite lookup_insert_ne by set_solver.
  destruct (filter _ ir.2 !! p) as [x|] eqn:E.
  - rewrite lookup_insert_ne by set_solver.
    destruct (decide (p = c)) as [->|Hpc].
    + by rewrite lookup_delete_eq.
    + rewrite lookup_delete_ne by done.
      rewrite lookup_select. rewrite decide_False; [done|]. set_solver.
  - destruct (decide (p = c)) as [->|Hpc]; [done|].
    rewrite lookup_select. rewrite decide_False; [done|]. set_solver.
Qed.

Lemma half_names (T : DataFrame) (v p tag : string) (sel : DataFrame) :
  v ≠ p → getitem_cols T [v; p] = Ok sel →
  col_names (assign (rename sel p "Edu_code") "Parent" (VStr tag)) = long_names v
  ∧ rows (assign (rename sel p "Edu_code") "Parent" (VStr tag))
    = long_record p tag v <$> rows T.
Proof.
  intros Hvp Hsel. unfold getitem_cols in Hsel.
  destruct (mapM (lookup_dtype T) [v; p]) as [hdr|] eqn:Eh; [|done].
  rewrite bind_Ok in Hsel. injection Hsel as <-.
  cbn in Eh. unfold lookup_dtype in Eh.
  destruct (col_dtype T v) as [dv|]; [|done].
  destruct (col_dtype T p) as [dp|]; [|done].
  cbn in Eh. injection Eh as <-. split.
  - unfold col_names, assign, rename, set_col, long_names. cbn.
    destruct (decide (v = p)) as [|_]; [done|].
    destruct (decide (p = p)) as [_|]; [|done].
    destruct (decide (v = "Parent")) as [->|Hv].
    + rewrite decide_True by (apply list_elem_of_here). reflexivity.
    + rewrite decide_False; [reflexivity|].
      intros [?|[?|?%elem_of_nil]%elem_of_cons]%elem_of_cons; done.
  - unfold assign, rename. cbn. rewrite <- !list_fmap_compose. reflexivity.
Qed.

Lemma getitem_cols_Ok (T : DataFrame) (cs : list string) :
  Forall (has_col T) cs → ∃ sel, getitem_cols T cs = Ok sel.
Proof.
  intros H. unfold getitem_cols. rewrite (mapM_lookup_dtype T cs H), bind_Ok. eauto.
Qed.

(** What [make_long] returns on a wide table for a value column. *)
Lemma make_long_rows (T : DataFrame) (v : string) :
  wide_table T → has_col T v → v ∉ ["Mother_edu_code"; "Father_edu_code"] →
  ∃ L, make_long T v parent_cols_default = Ok L
       ∧ col_names L = long_names v
       ∧ rows L = (long_record "Mother_edu_code" "Mother" v <$> rows T)
                  ++ (long_record "Father_edu_code" "Father" v <$> rows T).
Proof.
  intros [Hm Hf] Hv Hne.
  assert (v ≠ "Mother_edu_code" ∧ v ≠ "Father_edu_code") as [Hvm Hvf].
  { split; intros ->; apply Hne; repeat constructor. }
  destruct (getitem_cols_Ok T [v; "Mother_edu_code"]) as [sm Hsm];
    [by repeat constructor|].
  destruct (getitem_cols_Ok T [v; "Father_edu_code"]) as [sf Hsf];
    [by repeat constructor|].
  destruct (half_names T v "Mother_edu_code" "Mother" sm) as [Hnm Hrm]; [done..|].
  destruct (half_names T v "Father_edu_code" "Father" sf) as [Hnf Hrf]; [done..|].
  unfold make_long, parent_cols_default, list_index. cbn [lookup list_lookup].
  rewrite !bind_Ok, Hsm, bind_Ok. cbv zeta. rewrite bind_Ok, Hsf, bind_Ok.
  unfold concat. rewrite decide_True by by rewrite Hnm, Hnf.
  eexists. split; [reflexivity|]. split.
  - unfold col_names in *. cbn [columns].
    rewrite <- Hnm.
    assert (length (columns (assign (rename sm "Mother_edu_code" "Edu_code")
                               "Parent" (VStr "Mother")))
            = length (columns (assign (rename sf "Father_edu_code" "Edu_code")
                                 "Parent" (VStr "Father")))) as Hlen.
    { rewrite <- (length_fmap fst), <- (length_fmap fst (columns (assign (rename sf _ _) _ _))).
      by rewrite Hnm, Hnf. }
    revert Hlen.
    generalize (columns (assign (rename sm "Mother_edu_code" "Edu_code")
                           "Parent" (VStr "Mother"))).
    generalize (columns (assign (rename sf "Father_edu_code" "Edu_code")
                           "Parent" (VStr "Father"))).
    intros b a. revert b. induction a as [|x a IH]; intros [|y b] Hl; try done.
    cbn. f_equal. apply IH. cbn in Hl. lia.
  - cbn [rows]. by rewrite Hrm, Hrf.
Qed.

Lemma filter_fmap_all {A B} (P : B → Prop) `{!∀ y, Decision (P y)}
    (f : A → B) (l : list A) :
  (∀ x, P (f x)) → filter P (f <$> l) = f <$> l.
Proof.
  intros HP. induction l as [|x l IH]; [done|].
  rewrite fmap_cons, filter_cons_True by apply HP. by rewrite IH.
Qed.

Lemma filter_fmap_none {A B} (P : B → Prop) `{!∀ y, Decision (P y)}
    (f : A → B) (l : list A) :
  (∀ x, ¬ P (f x)) → filter P (f <$> l) = [].
Proof.
  intros HP. induction l as [|x l IH]; [done|].
  rewrite fmap_cons, filter_cons_False by apply HP. by rewrite IH.
Qed.

(** C2. For every wide table of [n] rows and every value column of it,
    [make_long] returns a long table of exactly [2 n] rows, of which
    exactly [n] are tagged Mother and exactly [n] are tagged Father;
    the wide row at position [i] gives the Mother row at position [i],
    whose [Edu_code] is the row's [Mother_edu_code], and the Father row
    at position [n + i], whose [Edu_code] is its [Father_edu_code];
    both carry the wide row's index label. *)
Theorem make_long_doubles_rows (T : DataFrame) (v : string) :
  wide_table T → value_column T v →
  ∃ L, make_long T v parent_cols_default = Ok L
     ∧ nrows L = 2 * nrows T
     ∧ length (filter (λ ir, cell ir.2 "Parent" = VStr "Mother") (rows L)) = nrows T
     ∧ length (filter (λ ir, cell ir.2 "Parent" = VStr "Father") (rows L)) = nrows T
     ∧ ∀ i w, rows T !! i = Some w →
         ∃ rm rf, rows L !! i = Some rm ∧ rows L !! (nrows T + i) = Some rf
           ∧ rm.1 = w.1 ∧ rf.1 = w.1
           ∧ cell rm.2 "Parent" = VStr "Mother"
           ∧ cell rm.2 "Edu_code" = cell w.2 "Mother_edu_code"
           ∧ cell rf.2 "Parent" = VStr "Father"
           ∧ cell rf.2 "Edu_code" = cell w.2 "Father_edu_code".
Proof.
  intros Hw [Hv Hne].
  assert (v ≠ "Mother_edu_code" ∧ v ≠ "Father_edu_code" ∧ v ≠ "Edu_code")
    as (Hvm & Hvf & Hve).
  { repeat split; intros ->; apply Hne; repeat constructor. }
  destruct (make_long_rows T v Hw Hv) as (L & HL & _ & Hrows).
  { intros [?|[?|?%elem_of_nil]%elem_of_cons]%elem_of_cons; done. }
  exists L. split; [done|]. unfold nrows. rewrite Hrows.
  split; [rewrite length_app, !length_fmap; lia|].
  split; [|split].
  - rewrite filter_app, filter_fmap_all, filter_fmap_none.
    + rewrite app_nil_r. by rewrite length_fmap.
    + intros x. by rewrite long_record_parent.
    + intros x. by rewrite long_record_parent.
  - rewrite filter_app, filter_fmap_none, filter_fmap_all.
    + rewrite app_nil_l. by rewrite length_fmap.
    + intros x. by rewrite long_record_parent.
    + intros x. by rewrite long_record_parent.
  - intros i w Hi.
    exists (long_record "Mother_edu_code" "Mother" v w),
           (long_record "Father_edu_code" "Father" v w).
    split.
    { rewrite lookup_app_l by (rewrite length_fmap; by eapply lookup_lt_Some).
      by rewrite list_lookup_fmap, Hi. }
    split.
    { rewrite lookup_app_r by (rewrite length_fmap; lia).
      rewrite length_fmap.
      replace (length (rows T) + i - length (rows T)) with i by lia.
      by rewrite list_lookup_fmap, Hi. }
    rewrite !long_record_parent, !long_record_edu_code by done.
    done.
Qed.

Lemma dummy_df_Age : value_column dummy_df "Age".
Proof.
  split; [unfold has_col; cbn; repeat constructor|].
  intros [?|[?|[?|?%elem_of_nil]%elem_of_cons]%elem_of_cons]%elem_of_cons; done.
Defined.

Lemma make_long_doubles_rows_witness :
  ∃ L, make_long dummy_df "Age" parent_cols_default = Ok L ∧ nrows L = 8.
Proof.
  destruct (make_long_doubles_rows dummy_df "Age" dummy_df_wide dummy_df_Age)
    as (L & HL & Hn & _).
  exists L. split; [exact HL|exact Hn].
Defined.

(** C7, as the specification states it, fails: the long table that
    [make_long] builds from the test fixture for the value column [Age]
    has no [Target] column and none of its rows has a [Target] cell,
    although [Target] is a column of the wide table that is not
    specific to a parent. *)
Lemma make_long_drops_other_columns :
  ∃ L, make_long dummy_df "Age" parent_cols_default = Ok L
     ∧ has_col dummy_df "Target"
     ∧ ¬ has_col L "Target"
     ∧ ∀ ir, ir ∈ rows L → ir.2 !! "Target" = None.
Proof.
  eexists. split; [vm_compute; reflexivity|].
  split; [unfold has_col; cbn; repeat constructor|].
  split.
  - unfold has_col, col_names. cbn.
    intros [?|[?|[?|?%elem_of_nil]%elem_of_cons]%elem_of_cons]%elem_of_cons; done.
  - intros ir Hir. cbn in Hir.
    repeat (apply elem_of_cons in Hir as [->|Hir]; [vm_compute; reflexivity|]).
    by apply elem_of_nil in Hir.
Qed.

(** C7, amended. For every wide table and every value column [v] of it
    other than [Parent], each wide row gives exactly one Mother record
    and one Father record of the long table, and each of the two
    carries the row's cell of [v] unchanged; the columns of the long
    table are [v], [Edu_code] and [Parent], and its rows have no cell
    for any other column. *)
Theorem make_long_keeps_value_column (T : DataFrame) (v : string) :
  wide_table T → value_column T v → v ≠ "Parent" →
  ∃ L, make_long T v parent_cols_default = Ok L
     ∧ col_names L = [v; "Edu_code"; "Parent"]
     ∧ nrows L = 2 * nrows T
     ∧ (∀ i w, rows T !! i = Some w →
         ∃ rm rf, rows L !! i = Some rm ∧ rows L !! (nrows T + i) = Some rf
           ∧ cell rm.2 "Parent" = VStr "Mother" ∧ cell rm.2 v = cell w.2 v
           ∧ cell rf.2 "Parent" = VStr "Father" ∧ cell rf.2 v = cell w.2 v)
     ∧ (∀ c ir, c ∉ [v; "Edu_code"; "Parent"] → ir ∈ rows L → ir.2 !! c = None).
Proof.
  intros Hw [Hv Hne] Hvp.
  assert (v ≠ "Mother_edu_code" ∧ v ≠ "Father_edu_code" ∧ v ≠ "Edu_code")
    as (Hvm & Hvf & Hve).
  { repeat split; intros ->; apply Hne; repeat constructor. }
  destruct (make_long_rows T v Hw Hv) as (L & HL & Hnames & Hrows).
  { intros [?|[?|?%elem_of_nil]%elem_of_cons]%elem_of_cons; done. }
  exists L. split; [done|].
  split; [rewrite Hnames; unfold long_names; by rewrite decide_False|].
  unfold nrows. rewrite Hrows.
  split; [rewrite length_app, !length_fmap; lia|]. split.
  - intros i w Hi.
    exists (long_record "Mother_edu_code" "Mother" v w),
           (long_record "Father_edu_code" "Father" v w).
    split.
    { rewrite lookup_app_l by (rewrite length_fmap; by eapply lookup_lt_Some).
      by rewrite list_lookup_fmap, Hi. }
    split.
    { rewrite lookup_app_r by (rewrite length_fmap; lia).
      rewrite length_fmap.
      replace (length (rows T) + i - length (rows T)) with i by lia.
      by rewrite list_lookup_fmap, Hi. }
    rewrite !long_record_parent.
    rewrite !long_record_value; [done| |].
    all: intros [?|[?|[?|?%elem_of_nil]%elem_of_cons]%elem_of_cons]%elem_of_cons; done.
  - intros c ir Hc [Hir|Hir]%elem_of_app.
    + apply list_elem_of_fmap in Hir as (w & -> & _). by apply long_record_other.
    + apply list_elem_of_fmap in Hir as (w & -> & _). by apply long_record_other.
Qed.

Lemma make_long_keeps_value_column_witness :
  ∃ L, make_long dummy_df "Age" parent_cols_default = Ok L
     ∧ col_names L = ["Age"; "Edu_code"; "Parent"].
Proof.
  destruct (make_long_keeps_value_column dummy_df "Age" dummy_df_wide dummy_df_Age)
    as (L & HL & Hn & _); [done|].
  exists L. split; [exact HL|exact Hn].
Defined.

(** ** Column assignment *)

Lemma zip_with_fmap_r {A B C} (f : A → B → C) (g : A → B) (l : list A) :
  zip_with f l (g <$> l) = (λ x, f x (g x)) <$> l.
Proof. induction l as [|x l IH]; [done|]. cbn. by rewrite IH. Qed.

Lemma set_col_dtype (hdr : list (string * dtype)) (c : string) (d : dtype) :
  (list_to_map (set_col hdr c d) : gmap string dtype) !! c = Some d.
Proof.
  unfold set_col. destruct (decide (c ∈ hdr.*1)) as [Hc|Hc].
  - induction hdr as [|[c' d'] hdr IH]; [by apply elem_of_nil in Hc|].
    cbn. destruct (decide (c' = c)) as [->|Hne].
    + cbn. by rewrite lookup_insert_eq.
    + cbn. rewrite lookup_insert_ne by done. apply IH.
      cbn in Hc. apply elem_of_cons in Hc as [?|?]; [congruence|done].
  - induction hdr as [|[c' d'] hdr IH].
    + cbn. by rewrite lookup_insert_eq.
    + cbn. cbn in Hc. apply not_elem_of_cons in Hc as [Hne Hc].
      rewrite lookup_insert_ne by done. by apply IH.
Qed.

Lemma set_col_dtype_other (hdr : list (string * dtype)) (c c' : string) (d : dtype) :
  c ≠ c' →
  (list_to_map (set_col hdr c d) : gmap string dtype) !! c'
  = (list_to_map hdr : gmap string dtype) !! c'.
Proof.
  intros Hne. unfold set_col. destruct (decide (c ∈ hdr.*1)) as [Hc|Hc].
  - clear Hc. induction hdr as [|[c1 d1] hdr IH]; [done|].
    cbn. destruct (decide (c1 = c)) as [->|Hne1]; cbn.
    + rewrite !lookup_insert_ne by done. apply IH.
    + destruct (decide (c1 = c')) as [->|Hne2].
      * by rewrite !lookup_insert_eq.
      * rewrite !lookup_insert_ne by done. apply IH.
  - clear Hc. induction hdr as [|[c1 d1] hdr IH].
    + cbn. by rewrite lookup_insert_ne.
    + cbn. destruct (decide (c1 = c')) as [->|Hne2].
      * by rewrite !lookup_insert_eq.
      * rewrite !lookup_insert_ne by done. apply IH.
Qed.

(** The table after [df[c] = s] when [s] is computed row by row. *)
Lemma set_column_fmap (T : DataFrame) (c : string) (d : dtype) (g : Z * row → value) :
  set_column T c (mkSeries d ((λ ir, (ir.1, g ir)) <$> rows T))
  = Ok (mkDF (set_col (columns T) c d)
          ((λ ir, (ir.1, <[c:=g ir]> ir.2)) <$> rows T)).
Proof.
  unfold set_column. cbn [s_data s_dtype].
  rewrite decide_True by by rewrite length_fmap.
  by rewrite zip_with_fmap_r.
Qed.

(** ** Running computations over the store *)

Lemma Py_bind_Ok {A B} (m : Py A) (f : A → Py B) (σ σ' : store) (a : A) :
  m σ = Ok (a, σ') → (m ≫= f) σ = f a σ'.
Proof. intros H. unfold mbind, Py_bind. by rewrite H. Qed.

Lemma deref_Ok (l : loc) (σ : store) (T : DataFrame) :
  σ !! l = Some T → deref l σ = Ok (T, σ).
Proof. intros H. unfold deref. by rewrite H. Qed.

Lemma lift_Ok {A} (r : result A) (a : A) (σ : store) :
  r = Ok a → lift r σ = Ok (a, σ).
Proof. by intros ->. Qed.

Lemma setitem_Ok (l : loc) (c : string) (s : Series) (σ : store) (T T' : DataFrame) :
  σ !! l = Some T → set_column T c s = Ok T' →
  setitem l c s σ = Ok ((), <[l:=T']> σ).
Proof. intros H1 H2. unfold setitem. by rewrite H1, H2. Qed.

Lemma new_frame_Ok (d : DataFrame) (σ : store) :
  new_frame d σ = Ok (fresh (dom σ), <[fresh (dom σ):=d]> σ).
Proof. reflexivity. Qed.

Lemma fresh_loc_None (σ : store) : σ !! fresh (dom σ) = None.
Proof. apply not_elem_of_dom. apply is_fresh. Qed.

(** ** Categorizer *)

Lemma map_and_order_edu_run (σ : store) (l : loc) (T : DataFrame)
    (edu_col label_col : string) (labels : gmap Z string) (order : list string) :
  σ !! l = Some T → has_col T edu_col → NoDup order →
  map_and_order_edu l edu_col label_col (Some labels) (Some order) σ
  = Ok (l, <[l:=categorized_table T edu_col label_col labels order]> σ).
Proof.
  intros Hl (d & Hd & Hget)%getitem_Ok Hnd.
  unfold map_and_order_edu.
  rewrite (Py_bind_Ok _ _ _ _ _ (deref_Ok _ _ _ Hl)).
  rewrite (Py_bind_Ok _ _ _ _ _ (lift_Ok _ _ _ Hget)).
  cbn [fmap option_fmap option_map series_map s_data].
  rewrite <- list_fmap_compose.
  set (g1 := λ ir : Z * row, default VNaN (int_dict labels (cell ir.2 edu_col))).
  erewrite (Py_bind_Ok (lift _)); [|by apply lift_Ok].
  erewrite (Py_bind_Ok (setitem _ _ _));
    [|eapply setitem_Ok; [exact Hl|apply (set_column_fmap T label_col Plain g1)]].
  set (T1 := mkDF (set_col (columns T) label_col Plain)
               ((λ ir, (ir.1, <[label_col:=g1 ir]> ir.2)) <$> rows T)).
  assert (<[l:=T1]> σ !! l = Some T1) as Hl1 by apply lookup_insert_eq.
  rewrite (Py_bind_Ok _ _ _ _ _ (deref_Ok _ _ _ Hl1)).
  assert (getitem T1 label_col
          = Ok (mkSeries Plain ((λ ir, (ir.1, cell ir.2 label_col)) <$> rows T1))) as Hget1.
  { unfold getitem, col_dtype. subst T1. cbn [columns]. by rewrite set_col_dtype. }
  rewrite (Py_bind_Ok _ _ _ _ _ (lift_Ok _ _ _ Hget1)).
  unfold pd_Categorical. rewrite decide_True by done. cbn [s_data].
  rewrite <- list_fmap_compose.
  erewrite (Py_bind_Ok (lift _)); [|by apply lift_Ok].
  erewrite (Py_bind_Ok (setitem _ _ _));
    [|eapply setitem_Ok; [exact Hl1|
       apply (set_column_fmap T1 label_col (Categorical order true)
                (λ ir, match cell ir.2 label_col with
                       | VStr s => if decide (s ∈ order) then VStr s else VNaN
                       | _ => VNaN
                       end))]].
  unfold mret, Py_ret. rewrite insert_insert_eq. do 3 f_equal.
  unfold categorized_table. subst T1. cbn [columns rows]. f_equal.
  rewrite <- list_fmap_compose. apply list_fmap_ext. intros i [ix r] _.
  cbn. unfold cell at 1. rewrite lookup_insert_eq. cbn [default from_option id].
  rewrite insert_insert_eq. reflexivity.
Qed.

Lemma label_of_cases (labels : gmap Z string) (order : list string) (v : value) :
  label_of labels order v = VNaN
  ∨ ∃ s, label_of labels order v = VStr s ∧ s ∈ order.
Proof.
  unfold label_of. destruct (default VNaN (int_dict labels v)) as [q|s|]; [by left| |by left].
  destruct (decide (s ∈ order)); [right; eauto|by left].
Qed.

Lemma categorized_table_cell (T : DataFrame) (edu_col label_col : string)
    (labels : gmap Z string) (order : list string) (i : nat) (ir : Z * row) :
  rows T !! i = Some ir →
  ∃ r', rows (categorized_table T edu_col label_col labels order) !! i = Some (ir.1, r')
        ∧ cell r' label_col = label_of labels order (cell ir.2 edu_col)
        ∧ ∀ c, c ≠ label_col → r' !! c = ir.2 !! c.
Proof.
  intros Hi. eexists. split.
  - unfold categorized_table. cbn [rows]. rewrite list_lookup_fmap, Hi. reflexivity.
  - split.
    + unfold cell. by rewrite lookup_insert_eq.
    + intros c Hc. by rewrite lookup_insert_ne.
Qed.

Lemma test_order_NoDup : NoDup test_order.
Proof. apply (bool_decide_unpack _). vm_compute. exact I. Defined.

(** C4. For every table with the code column, every label map and every
    order list that names each label once, [map_and_order_edu] leaves
    (in place of its argument, which it returns) a table whose label
    column is an ordered categorical with the category sequence [order]
    exactly, whatever codes occur in the table: every label cell is
    missing or one of the categories, and a category that no row
    carries is still a category. *)
Theorem map_and_order_edu_categories (σ : store) (l : loc) (T : DataFrame)
    (edu_col label_col : string) (labels : gmap Z string) (order : list string) :
  σ !! l = Some T → has_col T edu_col → NoDup order →
  ∃ T', map_and_order_edu l edu_col label_col (Some labels) (Some order) σ
        = Ok (l, <[l:=T']> σ)
      ∧ col_dtype T' label_col = Some (Categorical order true)
      ∧ nrows T' = nrows T
      ∧ ∀ ir, ir ∈ rows T' →
          cell ir.2 label_col = VNaN
          ∨ ∃ s, cell ir.2 label_col = VStr s ∧ s ∈ order.
Proof.
  intros Hl Hc Hnd. eexists. split; [by apply map_and_order_edu_run|].
  split; [|split].
  - unfold col_dtype, categorized_table. cbn [columns]. apply set_col_dtype.
  - unfold nrows, categorized_table. cbn [rows]. by rewrite length_fmap.
  - intros ir Hir. unfold categorized_table in Hir. cbn [rows] in Hir.
    apply list_elem_of_fmap in Hir as (w & -> & _). cbn [snd].
    unfold cell at 1 3. rewrite lookup_insert_eq. cbn [default from_option id].
    apply label_of_cases.
Qed.

Lemma map_and_order_edu_categories_witness :
  ∃ T', map_and_order_edu 1%positive "Edu_code" "Education Level"
          (Some test_labels) (Some test_order) {[ 1%positive := edu_code_df ]}
        = Ok (1%positive, <[1%positive:=T']> {[ 1%positive := edu_code_df ]})
      ∧ col_dtype T' "Education Level" = Some (Categorical test_order true).
Proof.
  destruct (map_and_order_edu_categories {[ 1%positive := edu_code_df ]} 1%positive
              edu_code_df "Edu_code" "Education Level" test_labels test_order)
    as (T' & Hrun & Hd & _).
  - apply lookup_singleton_eq.
  - unfold has_col. cbn. repeat constructor.
  - apply test_order_NoDup.
  - exists T'. split; [exact Hrun|exact Hd].
Defined.

(** ** Lists *)

Lemma fmap_snd_filter {A B} (P : B → Prop) (Q : A * B → Prop)
    `{!∀ y, Decision (P y)} `{!∀ x, Decision (Q x)} (l : list (A * B)) :
  (∀ ab, Q ab ↔ P ab.2) → (filter Q l).*2 = filter P l.*2.
Proof.
  intros HQP. induction l as [|[a b] l IH]; [done|].
  rewrite fmap_cons, !filter_cons. cbn [snd].
  destruct (decide (Q (a, b))) as [HQ|HQ], (decide (P b)) as [HP|HP].
  - by rewrite fmap_cons, IH.
  - exfalso. by apply HP, (HQP (a, b)).
  - exfalso. by apply HQ, (HQP (a, b)).
  - done.
Qed.

Lemma fmap_snd_imap {A B C} (g : nat → C) (F : A → B) (l : list A) :
  (imap (λ i k, (g i, F k)) l).*2 = F <$> l.
Proof.
  revert g. induction l as [|x l IH]; intros g; [done|].
  cbn. f_equal. apply (IH (g ∘ S)).
Qed.

Lemma fmap_snd_imap_id {A C} (g : nat → C) (l : list A) :
  (imap (λ i r, (g i, r)) l).*2 = l.
Proof. rewrite (fmap_snd_imap g id). apply list_fmap_id. Qed.

Lemma filter_fmap_in {A B} (P : B → Prop) `{!∀ y, Decision (P y)}
    (Q : A → Prop) `{!∀ x, Decision (Q x)} (f : A → B) (l : list A) :
  (∀ x, x ∈ l → (P (f x) ↔ Q x)) → filter P (f <$> l) = f <$> filter Q l.
Proof.
  induction l as [|x l IH]; intros HPQ; [done|].
  rewrite fmap_cons, !filter_cons.
  destruct (decide (P (f x))) as [HP|HP], (decide (Q x)) as [HQ|HQ].
  - rewrite fmap_cons, IH; [done|]. intros y Hy. apply HPQ. by right.
  - exfalso. apply HQ, (HPQ x); [by left|done].
  - exfalso. apply HP, (HPQ x); [by left|done].
  - apply IH. intros y Hy. apply HPQ. by right.
Qed.

Lemma filter_ext_in {A} (P Q : A → Prop) `{!∀ x, Decision (P x)} `{!∀ x, Decision (Q x)}
    (l : list A) :
  (∀ x, x ∈ l → (P x ↔ Q x)) → filter P l = filter Q l.
Proof.
  intros HPQ. rewrite <- (list_fmap_id l) at 1.
  rewrite (filter_fmap_in P Q id l HPQ). apply list_fmap_id.
Qed.

Lemma filter_none {A} (P : A → Prop) `{!∀ x, Decision (P x)} (l : list A) :
  (∀ x, x ∈ l → ¬ P x) → filter P l = [].
Proof.
  induction l as [|x l IH]; intros HP; [done|].
  rewrite filter_cons_False by (apply HP; by left).
  apply IH. intros y Hy. apply HP. by right.
Qed.

Lemma filter_eq_NoDup {A} `{!EqDecision A} (l : list A) (x : A) :
  NoDup l → x ∈ l → filter (λ y, y = x) l = [x].
Proof.
  induction 1 as [|y l Hy Hnd IH]; intros Hx; [by apply elem_of_nil in Hx|].
  rewrite filter_cons. destruct (decide (y = x)) as [->|Hne].
  - f_equal. apply filter_none. intros z Hz ->. contradiction.
  - apply IH. apply elem_of_cons in Hx as [?|?]; [congruence|done].
Qed.

Lemma omap_filter_keep {A B} (f : A → option B) (P : A → Prop)
    `{!∀ x, Decision (P x)} (l : list A) :
  (∀ x, x ∈ l → ¬ P x → f x = None) → omap f (filter P l) = omap f l.
Proof.
  induction l as [|x l IH]; intros Hf; [done|].
  rewrite filter_cons. destruct (decide (P x)) as [HP|HP].
  - cbn. rewrite IH; [done|]. intros y Hy. apply Hf. by right.
  - cbn. rewrite (Hf x) by (done || by left).
    apply IH. intros y Hy. apply Hf. by right.
Qed.

(** Counting the elements of a list by key: over distinct keys the
    counts add up to the number of elements having one of the keys. *)
Lemma count_by_key {A K} `{!EqDecision K} (f : A → option K) (ks : list K) (l : list A) :
  NoDup ks →
  sum_list_with (λ k, length (filter (λ x, f x = Some k) l)) ks
  = length (filter (key_in f ks) l).
Proof.
  intros Hnd. induction l as [|x l IH].
  - cbn. induction ks as [|k ks IHk]; [done|]. cbn. apply IHk. by inversion Hnd.
  - rewrite (filter_cons (key_in f ks)).
    transitivity (sum_list_with (λ k, if decide (f x = Some k) then 1 else 0) ks
                  + sum_list_with (λ k, length (filter (λ x, f x = Some k) l)) ks).
    { clear. induction ks as [|k ks IHk]; [done|].
      cbn [sum_list_with]. rewrite IHk, filter_cons.
      destruct (decide (f x = Some k)); cbn [length]; lia. }
    rewrite IH. clear IH.
    assert (∀ o : option K,
              sum_list_with (λ k, if decide (o = Some k) then 1 else 0) ks
              = match o with
                | Some k => if decide (k ∈ ks) then 1 else 0
                | None => 0
                end) as ->.
    { intros o. induction Hnd as [|k ks Hk Hnd IHk].
      - cbn. destruct o; [|done]. rewrite decide_False; [done|apply not_elem_of_nil].
      - cbn [sum_list_with]. rewrite IHk.
        destruct o as [k'|]; [|by rewrite decide_False].
        destruct (decide (Some k' = Some k)) as [[= ->]|Hne].
        + rewrite decide_False by done.
          rewrite decide_True by (by left). done.
        + destruct (decide (k' ∈ ks)) as [Hin|Hin].
          * rewrite decide_True by (by right). done.
          * rewrite decide_False; [done|].
            intros [->|?]%elem_of_cons; done. }
    destruct (decide (key_in f ks x)) as [Hx|Hx]; unfold key_in in Hx;
      destruct (f x) as [k'|]; cbn [length]; try done.
    + by rewrite decide_True.
    + by rewrite decide_False.
Qed.

(** ** Group keys *)

Lemma key_of_idem (a b : value) : key_of a = Some b → key_of b = Some b.
Proof.
  destruct a as [q|s|]; intros [= <-]; cbn; [|done].
  do 2 f_equal. apply Qred_complete, Qred_correct.
Qed.

Lemma key_of_Some_isna (a : value) : is_Some (key_of a) ↔ isna a = false.
Proof. destruct a; cbn; split; (done || eauto || by intros [??]). Qed.

Lemma elem_of_group_keys (T : DataFrame) (hdr : list (string * dtype)) (k : list value) :
  k ∈ group_keys T hdr ↔ ∃ ir, ir ∈ rows T ∧ row_key hdr.*1 ir.2 = Some k.
Proof.
  unfold group_keys. rewrite merge_sort_Permutation, elem_of_remove_dups.
  apply list_elem_of_omap.
Qed.

Lemma NoDup_group_keys (T : DataFrame) (hdr : list (string * dtype)) :
  NoDup (group_keys T hdr).
Proof.
  unfold group_keys. rewrite merge_sort_Permutation. apply NoDup_remove_dups.
Qed.

Lemma row_key_length (keys : list string) (r : row) (k : list value) :
  row_key keys r = Some k → length k = length keys.
Proof. intros H. symmetry. by eapply length_mapM. Qed.

Lemma row_key_normal (keys : list string) (r : row) (k : list value) :
  row_key keys r = Some k → Forall (λ a, key_of a = Some a) k.
Proof.
  unfold row_key. intros H%mapM_Some_1.
  induction H as [|c a keys k Hc _ IH]; constructor; [|done].
  by eapply key_of_idem.
Qed.

Lemma mapM_option_ext {A B} (f g : A → option B) (l : list A) :
  (∀ x, x ∈ l → f x = g x) → mapM f l = mapM g l.
Proof.
  induction l as [|x l IH]; intros Hfg; [done|].
  change (mapM f (x :: l)) with (y ← f x; k ← mapM f l; mret (y :: k)).
  change (mapM g (x :: l)) with (y ← g x; k ← mapM g l; mret (y :: k)).
  rewrite (Hfg x) by (by left). rewrite IH; [done|].
  intros y Hy. apply Hfg. by right.
Qed.

Lemma row_key_agree (keys : list string) (r r' : row) :
  (∀ c, c ∈ keys → r !! c = r' !! c) → row_key keys r = row_key keys r'.
Proof.
  intros Hrr. unfold row_key. apply mapM_option_ext.
  intros c Hc. unfold cell. by rewrite (Hrr c Hc).
Qed.

Lemma key_row_cons (c : string) (keys : list string) (a : value) (k : list value) :
  key_row (c :: keys) (a :: k) = <[c:=a]> (key_row keys k).
Proof. reflexivity. Qed.

(** A row made of a key reads back that key, under the grouping columns
    and under any leading part of them. *)
Lemma row_key_key_row_prefix (keys1 keys2 : list string) (k1 k2 : list value) :
  NoDup keys1 → length k1 = length keys1 → Forall (λ a, key_of a = Some a) k1 →
  row_key keys1 (key_row (keys1 ++ keys2) (k1 ++ k2)) = Some k1.
Proof.
  intros Hnd. revert k1. induction Hnd as [|c keys1 Hc Hnd IH]; intros k1 Hlen Hk.
  - destruct k1; [done|]. cbn in Hlen. lia.
  - destruct k1 as [|a k1]; [cbn in Hlen; lia|].
    apply Forall_cons in Hk as [Ha Hk].
    cbn [app]. rewrite key_row_cons.
    change (row_key (c :: keys1) ?r)
      with (x ← key_of (cell r c); k ← row_key keys1 r; mret (x :: k)).
    unfold cell at 1. rewrite lookup_insert_eq. cbn [default from_option id].
    rewrite Ha. cbn [mbind option_bind].
    rewrite (row_key_agree keys1 _ (key_row (keys1 ++ keys2) (k1 ++ k2))).
    + rewrite IH; [done| |done]. cbn in Hlen. lia.
    + intros c' Hc'. apply lookup_insert_ne. intros ->. contradiction.
Qed.

Lemma row_key_key_row (keys : list string) (k : list value) :
  NoDup keys → length k = length keys → Forall (λ a, key_of a = Some a) k →
  row_key keys (key_row keys k) = Some k.
Proof.
  intros Hnd Hlen Hk.
  rewrite <- (app_nil_r keys) at 2. rewrite <- (app_nil_r k) at 1.
  by apply row_key_key_row_prefix.
Qed.

Lemma key_row_lookup_notin (keys : list string) (k : list value) (c : string) :
  c ∉ keys → key_row keys k !! c = None.
Proof.
  revert k. induction keys as [|c' keys IH]; intros k Hc; [done|].
  destruct k as [|a k]; [done|].
  apply not_elem_of_cons in Hc as [Hne Hc].
  rewrite key_row_cons, lookup_insert_ne by done. by apply IH.
Qed.

(** ** Numeric columns *)

Lemma value_div_Ok (a b : value) : not_str a → not_str b → value_div a b = Ok (vdiv a b).
Proof. by destruct a, b. Qed.

Lemma value_mul_Ok (a : value) (k : Q) : not_str a → value_mul a k = Ok (vmul a k).
Proof. by destruct a. Qed.

Lemma vdiv_not_str (a b : value) : not_str (vdiv a b).
Proof. destruct a, b; cbn; try done. by destruct (Qeq_bool _ _). Qed.

Lemma nums_present (vs : list value) :
  Forall not_str vs →
  nums vs = Ok (omap (λ v, match v with VNum q => Some q | _ => None end) vs).
Proof.
  intros H. unfold nums.
  rewrite (mapM_Ok num_of (λ v, match v with VNum q => Some q | _ => None end)).
  - rewrite bind_Ok. f_equal. induction vs as [|v vs IH]; [done|].
    apply Forall_cons in H as [_ H]. cbn. destruct v; cbn; by rewrite IH.
  - intros v Hv. rewrite Forall_forall in H. specialize (H v Hv). by destruct v.
Qed.

Lemma nums_all (vs : list value) :
  Forall (λ v, ∃ q, v = VNum q) vs → nums vs = Ok (cell_num <$> vs).
Proof.
  intros H. rewrite nums_present.
  - f_equal. induction H as [|v vs [q ->] _ IH]; [done|]. cbn. by rewrite IH.
  - eapply Forall_impl; [exact H|]. by intros v [q ->].
Qed.

Lemma total_of_not_str C keys c r : not_str (total_of C keys c r).
Proof. unfold total_of. by destruct (row_key keys r). Qed.

Lemma groupby_transform_sum_Ok (C : DataFrame) (keys : list string) (c : string) :
  Forall (has_col C) keys → has_col C c →
  (∀ ir, ir ∈ rows C → ∃ q, cell ir.2 c = VNum q) →
  groupby_transform_sum C keys c
  = Ok (mkSeries Plain ((λ ir, (ir.1, total_of C keys c ir.2)) <$> rows C)).
Proof.
  intros Hk (d & _ & Hc)%getitem_Ok Hnum. unfold groupby_transform_sum.
  rewrite (mapM_lookup_dtype C keys Hk), bind_Ok, Hc, bind_Ok.
  rewrite (mapM_Ok _ (λ ir, (ir.1, total_of C keys c ir.2))); [done|].
  intros ir Hir. unfold total_of. destruct (row_key keys ir.2) as [k|]; [|done].
  unfold agg_rows. rewrite nums_all.
  - rewrite bind_Ok. cbn [agg_apply]. unfold column_sum.
    by rewrite <- list_fmap_compose.
  - apply Forall_fmap, Forall_forall. intros jr Hjr.
    apply list_elem_of_filter in Hjr as [_ Hjr]. by apply Hnum.
Qed.

Lemma zip_fmap_same {A B C} (f : A → B) (g : A → C) (l : list A) :
  zip (f <$> l) (g <$> l) = (λ x, (f x, g x)) <$> l.
Proof. induction l as [|x l IH]; [done|]. cbn. by rewrite IH. Qed.

Lemma series_div_Ok (d1 d2 : dtype) (rs : list (Z * row)) (f g : Z * row → value) :
  (∀ ir, ir ∈ rs → not_str (f ir) ∧ not_str (g ir)) →
  series_div (mkSeries d1 ((λ ir, (ir.1, f ir)) <$> rs))
             (mkSeries d2 ((λ ir, (ir.1, g ir)) <$> rs))
  = Ok (mkSeries Plain ((λ ir, (ir.1, vdiv (f ir) (g ir))) <$> rs)).
Proof.
  intros H. unfold series_div. cbn [s_data].
  rewrite decide_True by by rewrite !length_fmap.
  rewrite zip_fmap_same.
  rewrite (mapM_Ok _ (λ p : (Z * value) * (Z * value), (p.1.1, vdiv p.1.2 p.2.2))).
  - rewrite bind_Ok, <- list_fmap_compose. done.
  - intros p Hp. apply list_elem_of_fmap in Hp as (ir & -> & Hir). cbn.
    destruct (H ir Hir) as [Hf Hg]. by rewrite value_div_Ok.
Qed.

Lemma series_mul_Ok (d : dtype) (rs : list (Z * row)) (f : Z * row → value) (k : Q) :
  (∀ ir, ir ∈ rs → not_str (f ir)) →
  series_mul (mkSeries d ((λ ir, (ir.1, f ir)) <$> rs)) k
  = Ok (mkSeries Plain ((λ ir, (ir.1, vmul (f ir) k)) <$> rs)).
Proof.
  intros H. unfold series_mul. cbn [s_data].
  rewrite (mapM_Ok _ (λ iv : Z * value, (iv.1, vmul iv.2 k))).
  - rewrite bind_Ok, <- list_fmap_compose. done.
  - intros p Hp. apply list_elem_of_fmap in Hp as (ir & -> & Hir). cbn.
    by rewrite value_mul_Ok by by apply H.
Qed.

(** ** The percentage table *)

Lemma Py_bind_lift {A B} (r : result A) (f : A → Py B) (σ : store) :
  (lift r ≫= f) σ = match r with Ok a => f a σ | Err e => Err e end.
Proof. by destruct r. Qed.

Lemma Py_bind_deref {B} (l : loc) (f : DataFrame → Py B) (σ : store) (T : DataFrame) :
  σ !! l = Some T → (deref l ≫= f) σ = f T σ.
Proof. intros H. unfold mbind, Py_bind, deref. by rewrite H. Qed.

Lemma Py_bind_new_frame {B} (d : DataFrame) (f : loc → Py B) (σ : store) :
  (new_frame d ≫= f) σ = f (fresh (dom σ)) (<[fresh (dom σ):=d]> σ).
Proof. reflexivity. Qed.

Lemma Py_bind_setitem {B} (l : loc) (c : string) (s : Series) (f : unit → Py B)
    (σ : store) (T : DataFrame) :
  σ !! l = Some T →
  (setitem l c s ≫= f) σ
  = match set_column T c s with Ok T' => f () (<[l:=T']> σ) | Err e => Err e end.
Proof.
  intros H. unfold mbind, Py_bind, setitem. rewrite H.
  by destruct (set_column T c s).
Qed.

(** [compute_percent] allocates one table, the result, and touches
    nothing else. *)
Lemma compute_percent_pure (σ : store) (l : loc) (T : DataFrame) (target_col : string) :
  σ !! l = Some T →
  compute_percent l target_col σ
  = match percent_of T target_col with
    | Ok R => Ok (fresh (dom σ), <[fresh (dom σ):=R]> σ)
    | Err e => Err e
    end.
Proof.
  intros Hl. unfold compute_percent, percent_of.
  rewrite (Py_bind_deref _ _ _ _ Hl), Py_bind_lift.
  destruct (groupby_size T _ _) as [sized|e]; [|done].
  rewrite bind_Ok, Py_bind_new_frame.
  set (r := fresh (dom σ)).
  assert (<[r:=sized]> σ !! r = Some sized) as Hr by apply lookup_insert_eq.
  rewrite (Py_bind_deref _ _ _ _ Hr), Py_bind_lift.
  destruct (getitem sized "Count") as [cnt|e]; [|done].
  rewrite bind_Ok, Py_bind_lift.
  destruct (groupby_transform_sum sized _ _) as [tot|e]; [|done].
  rewrite bind_Ok, Py_bind_lift.
  destruct (series_div cnt tot) as [quot|e]; [|done].
  rewrite bind_Ok, Py_bind_lift.
  destruct (series_mul quot 100) as [pct|e]; [|done].
  rewrite bind_Ok, (Py_bind_setitem _ _ _ _ _ _ Hr).
  destruct (set_column sized "Percent" pct) as [R|e]; [|done].
  unfold mret, Py_ret. by rewrite insert_insert_eq.
Qed.

Lemma target_column_keys (T : DataFrame) (tc : string) :
  categorized T → target_column T tc →
  Forall (has_col T) (percent_keys tc)
  ∧ NoDup (percent_keys tc) ∧ ("Count" ∉ percent_keys tc) ∧ ("Percent" ∉ percent_keys tc).
Proof.
  intros [Hp He] [Ht Hne].
  assert (tc ≠ "Parent" ∧ tc ≠ "Education Level" ∧ tc ≠ "Count" ∧ tc ≠ "Percent")
    as (H1 & H2 & H3 & H4).
  { repeat split; intros ->; apply Hne; repeat constructor. }
  split; [by repeat constructor|]. split; [|split].
  - unfold percent_keys. repeat constructor.
    + intros [?|[?|?%elem_of_nil]%elem_of_cons]%elem_of_cons; done.
    + intros [?|?%elem_of_nil]%elem_of_cons; done.
    + apply not_elem_of_nil.
  - intros [?|[?|[?|?%elem_of_nil]%elem_of_cons]%elem_of_cons]%elem_of_cons; done.
  - intros [?|[?|[?|?%elem_of_nil]%elem_of_cons]%elem_of_cons]%elem_of_cons; done.
Qed.

Lemma groupby_size_Ok (T : DataFrame) (tc : string) :
  categorized T → target_column T tc →
  groupby_size T (percent_keys tc) "Count" = Ok (sized_table T tc).
Proof.
  intros HT Htc. destruct (target_column_keys T tc HT Htc) as (Hk & Hnd & Hc & _).
  unfold groupby_size. rewrite (mapM_lookup_dtype T _ Hk), bind_Ok.
  by rewrite decide_True.
Qed.

Section percent_rows.
Variables (T : DataFrame) (tc : string).
Hypothesis HT : categorized T.
Hypothesis Htc : target_column T tc.

Lemma group_key_shape (k : list value) :
  k ∈ group_keys T (header_of T (percent_keys tc)) →
  ∃ a b c, k = [a; b; c] ∧ Forall (λ x, key_of x = Some x) k
           ∧ group_rows T (percent_keys tc) k ≠ [].
Proof.
  intros (ir & Hir & Hk)%elem_of_group_keys. rewrite header_of_names in Hk.
  pose proof (row_key_length _ _ _ Hk) as Hlen.
  pose proof (row_key_normal _ _ _ Hk) as Hn.
  destruct k as [|a [|b [|c [|]]]]; try done.
  exists a, b, c. split; [done|]. split; [done|].
  intros Hnil. unfold group_rows in Hnil.
  by apply (filter_nil_not_elem_of _ _ ir Hnil Hk).
Qed.

Lemma count_row_key (k : list value) :
  k ∈ group_keys T (header_of T (percent_keys tc)) →
  row_key (percent_keys tc) (count_row T tc k) = Some k.
Proof.
  intros Hk. destruct (target_column_keys T tc HT Htc) as (_ & Hnd & Hc & _).
  destruct (group_key_shape k Hk) as (a & b & c & -> & Hn & _).
  unfold count_row.
  rewrite (row_key_agree _ _ (key_row (percent_keys tc) [a; b; c])).
  - by apply row_key_key_row.
  - intros c' Hc'. apply lookup_insert_ne. intros <-. contradiction.
Qed.

Lemma count_row_group (k : list value) :
  k ∈ group_keys T (header_of T (percent_keys tc)) →
  row_key group_cols (count_row T tc k) = Some (take 2 k).
Proof.
  intros Hk. destruct (target_column_keys T tc HT Htc) as (_ & Hnd & Hc & _).
  destruct (group_key_shape k Hk) as (a & b & c & -> & Hn & _).
  unfold count_row.
  rewrite (row_key_agree _ _ (key_row (group_cols ++ [tc]) ([a; b] ++ [c]))).
  - apply row_key_key_row_prefix; [|done|].
    + apply NoDup_cons_1_2 in Hnd as Hnd'. unfold group_cols. repeat constructor.
      * intros [?|?%elem_of_nil]%elem_of_cons; done.
      * apply not_elem_of_nil.
    + apply Forall_cons in Hn as [Ha Hn]. apply Forall_cons in Hn as [Hb _].
      by repeat constructor.
  - intros c' Hc'. apply lookup_insert_ne. intros <-.
    unfold group_cols in Hc'.
    apply elem_of_cons in Hc' as [?|[?|?%elem_of_nil]%elem_of_cons]; done.
Qed.

Lemma count_row_count (k : list value) :
  cell (count_row T tc k) "Count"
  = VNum (inject_Z (Z.of_nat (length (group_rows T (percent_keys tc) k)))).
Proof. unfold cell, count_row. by rewrite lookup_insert_eq. Qed.

Lemma sized_table_rows :
  (rows (sized_table T tc)).*2
  = count_row T tc <$> group_keys T (header_of T (percent_keys tc)).
Proof. unfold sized_table. cbn [rows]. apply fmap_snd_imap. Qed.

Lemma sized_table_row (ir : Z * row) :
  ir ∈ rows (sized_table T tc) →
  ∃ k, k ∈ group_keys T (header_of T (percent_keys tc)) ∧ ir.2 = count_row T tc k.
Proof.
  intros Hir. assert (ir.2 ∈ (rows (sized_table T tc)).*2) as H.
  { apply list_elem_of_fmap. by exists ir. }
  rewrite sized_table_rows in H. apply list_elem_of_fmap in H as (k & ? & ?).
  by exists k.
Qed.

Lemma sized_table_has_col (c : string) :
  c ∈ percent_keys tc ++ ["Count"] → has_col (sized_table T tc) c.
Proof.
  unfold has_col, col_names, sized_table. cbn [columns].
  by rewrite fmap_app, header_of_names.
Qed.

Lemma percent_of_Ok : percent_of T tc = Ok (percent_table T tc).
Proof.
  unfold percent_of. fold (percent_keys tc).
  rewrite (groupby_size_Ok T tc HT Htc), bind_Ok.
  destruct (getitem_Ok (sized_table T tc) "Count") as (d & _ & ->).
  { apply sized_table_has_col. unfold percent_keys. set_solver. }
  rewrite bind_Ok.
  fold group_cols. rewrite groupby_transform_sum_Ok; cycle 1.
  { unfold group_cols. repeat constructor;
      apply sized_table_has_col; unfold percent_keys; set_solver. }
  { apply sized_table_has_col. unfold percent_keys. set_solver. }
  { intros ir (k & _ & ->)%sized_table_row. rewrite count_row_count. eauto. }
  rewrite bind_Ok.
  rewrite (series_div_Ok d Plain (rows (sized_table T tc))
             (λ ir, cell ir.2 "Count")
             (λ ir, total_of (sized_table T tc) group_cols "Count" ir.2)); cycle 1.
  { intros ir (k & _ & ->)%sized_table_row. rewrite count_row_count.
    split; [done|apply total_of_not_str]. }
  rewrite bind_Ok.
  rewrite (series_mul_Ok Plain (rows (sized_table T tc))
             (λ ir, vdiv (cell ir.2 "Count")
                      (total_of (sized_table T tc) group_cols "Count" ir.2))); cycle 1.
  { intros ir _. apply vdiv_not_str. }
  rewrite bind_Ok.
  unfold percent_table, percent_cell.
  exact (set_column_fmap (sized_table T tc) "Percent" Plain
           (λ ir, vmul (vdiv (cell ir.2 "Count")
                          (total_of (sized_table T tc) group_cols "Count" ir.2)) 100)).
Qed.
End percent_rows.

(** ** Sums of rationals *)

Lemma Qsum_cons (x : Q) (l : list Q) : Qsum (x :: l) = (x + Qsum l)%Q.
Proof. reflexivity. Qed.

Lemma Qsum_fmap_ext {A} (f g : A → Q) (l : list A) :
  (∀ x, x ∈ l → (f x == g x)%Q) → (Qsum (f <$> l) == Qsum (g <$> l))%Q.
Proof.
  induction l as [|x l IH]; intros H; [reflexivity|].
  rewrite !fmap_cons, !Qsum_cons. rewrite (H x) by (by left).
  rewrite IH; [reflexivity|]. intros y Hy. apply H. by right.
Qed.

Lemma Qsum_inject {A} (f : A → nat) (l : list A) :
  (Qsum ((λ x, inject_Z (Z.of_nat (f x))) <$> l)
   == inject_Z (Z.of_nat (sum_list_with f l)))%Q.
Proof.
  induction l as [|x l IH]; [reflexivity|].
  rewrite fmap_cons, Qsum_cons. cbn [sum_list_with].
  rewrite IH, Nat2Z.inj_add, inject_Z_plus. reflexivity.
Qed.

Lemma Qsum_scale {A} (f : A → Q) (c : Q) (l : list A) :
  (Qsum ((λ x, f x * c) <$> l) == Qsum (f <$> l) * c)%Q.
Proof.
  induction l as [|x l IH].
  - change (0 == 0 * c)%Q. ring.
  - rewrite !fmap_cons, !Qsum_cons. rewrite IH. ring.
Qed.

Lemma column_sum_snd (c : string) (rs : list (Z * row)) :
  column_sum c rs = Qsum ((λ r, cell_num (cell r c)) <$> rs.*2).
Proof. unfold column_sum. by rewrite <- list_fmap_compose. Qed.

Lemma percent_value (a S : Q) :
  ¬ (S == 0)%Q →
  ∃ q, vmul (vdiv (VNum a) (VNum (Qred S))) 100 = VNum q ∧ (q == a / S * 100)%Q.
Proof.
  intros HS. unfold vdiv, vmul.
  destruct (Qeq_bool (Qred S) 0) eqn:E.
  - apply Qeq_bool_iff in E. rewrite Qred_correct in E. contradiction.
  - eexists. split; [reflexivity|]. by rewrite !Qred_correct.
Qed.

(** ** Groups of the percentage table *)

Lemma row_key_three (x y z : string) (r : row) (k : list value) :
  row_key [x; y; z] r = Some k
  ↔ ∃ a b c, k = [a; b; c] ∧ row_key [x; y] r = Some [a; b]
             ∧ key_of (cell r z) = Some c.
Proof.
  unfold row_key. cbn.
  destruct (key_of (cell r x)) as [a|]; cbn; [|split; [done|by intros (?&?&?&?&?&?)]].
  destruct (key_of (cell r y)) as [b|]; cbn; [|split; [done|by intros (?&?&?&?&?&?)]].
  destruct (key_of (cell r z)) as [c|]; cbn; [|split; [done|by intros (?&?&?&?&?&?)]].
  split.
  - intros [= <-]. by exists a, b, c.
  - intros (a' & b' & c' & -> & [= <- <-] & [= <-]). done.
Qed.

Section percent_groups.
Variables (T : DataFrame) (tc : string).
Hypothesis HT : categorized T.
Hypothesis Htc : target_column T tc.

Lemma percent_table_rows :
  (rows (percent_table T tc)).*2
  = percent_row T tc <$> group_keys T (header_of T (percent_keys tc)).
Proof.
  unfold percent_table. cbn [rows].
  transitivity ((λ r, <["Percent":=percent_cell (sized_table T tc) r]> r)
                  <$> (rows (sized_table T tc)).*2).
  { by rewrite <- !list_fmap_compose. }
  by rewrite (sized_table_rows T tc), <- list_fmap_compose.
Qed.

Lemma percent_row_agree (k : list value) (c : string) :
  c ≠ "Percent" → percent_row T tc k !! c = count_row T tc k !! c.
Proof. intros Hc. unfold percent_row. by rewrite lookup_insert_ne. Qed.

Lemma percent_row_key (k : list value) :
  k ∈ group_keys T (header_of T (percent_keys tc)) →
  row_key (percent_keys tc) (percent_row T tc k) = Some k.
Proof.
  intros Hk. destruct (target_column_keys T tc HT Htc) as (_ & _ & _ & Hp).
  rewrite <- (count_row_key T tc HT Htc k Hk). apply row_key_agree.
  intros c Hc. apply percent_row_agree. intros ->. contradiction.
Qed.

Lemma percent_row_group (k : list value) :
  k ∈ group_keys T (header_of T (percent_keys tc)) →
  row_key group_cols (percent_row T tc k) = Some (take 2 k).
Proof.
  intros Hk. rewrite <- (count_row_group T tc HT Htc k Hk). apply row_key_agree.
  intros c Hc. apply percent_row_agree. intros ->.
  unfold group_cols in Hc.
  apply elem_of_cons in Hc as [?|[?|?%elem_of_nil]%elem_of_cons]; done.
Qed.

(** The rows of a group, in a table with one row per key. *)
Lemma group_of_keyed_rows (X : DataFrame) (F : list value → row) (p e : value) :
  (rows X).*2 = F <$> group_keys T (header_of T (percent_keys tc)) →
  (∀ k, k ∈ group_keys T (header_of T (percent_keys tc)) →
        row_key group_cols (F k) = Some (take 2 k)) →
  (group_rows X group_cols [p; e]).*2 = F <$> keys_of_group T tc p e.
Proof.
  intros HX HF. unfold group_rows.
  assert ((filter (λ ir : Z * row, row_key group_cols ir.2 = Some [p; e]) (rows X)).*2
          = filter (λ r : row, row_key group_cols r = Some [p; e]) (rows X).*2) as ->
    by by apply fmap_snd_filter.
  rewrite HX. apply filter_fmap_in. intros k Hk. rewrite (HF k Hk). split; congruence.
Qed.

Lemma keys_of_group_count (p e : value) :
  sum_list_with (λ k, length (group_rows T (percent_keys tc) k)) (keys_of_group T tc p e)
  = length (with_present tc (group_records T p e)).
Proof.
  unfold group_rows at 1.
  rewrite (count_by_key (λ ir : Z * row, row_key (percent_keys tc) ir.2));
    [|apply NoDup_filter, NoDup_group_keys].
  f_equal. unfold with_present, group_records, group_rows.
  rewrite list_filter_filter. apply filter_ext_in. intros ir Hir.
  unfold key_in, keys_of_group. split.
  - destruct (row_key (percent_keys tc) ir.2) as [k|] eqn:Hk; [|done].
    intros [Hpe Hgk]%list_elem_of_filter.
    apply row_key_three in Hk as (a & b & c & -> & Hab & Hc).
    cbn in Hpe. injection Hpe as -> ->. split; [|done].
    apply key_of_Some_isna. eauto.
  - intros [[c Hc]%key_of_Some_isna Hpe].
    assert (row_key (percent_keys tc) ir.2 = Some [p; e; c]) as Hk.
    { apply row_key_three. by exists p, e, c. }
    rewrite Hk. apply list_elem_of_filter. split; [done|].
    apply elem_of_group_keys. exists ir. by rewrite header_of_names.
Qed.

(** The counts of a group add up to the number of its records that
    have a target value, in the table of counts and in the result. *)
Lemma group_count_sum (X : DataFrame) (F : list value → row) (p e : value) :
  (rows X).*2 = F <$> group_keys T (header_of T (percent_keys tc)) →
  (∀ k, k ∈ group_keys T (header_of T (percent_keys tc)) →
        row_key group_cols (F k) = Some (take 2 k)) →
  (∀ k, cell (F k) "Count" = cell (count_row T tc k) "Count") →
  (column_sum "Count" (group_rows X group_cols [p; e])
   == inject_Z (Z.of_nat (length (with_present tc (group_records T p e)))))%Q.
Proof.
  intros HX HF Hcnt.
  rewrite column_sum_snd, (group_of_keyed_rows X F p e HX HF).
  rewrite <- list_fmap_compose, <- keys_of_group_count, <- Qsum_inject.
  apply Qsum_fmap_ext. intros k _. cbn.
  rewrite Hcnt, (count_row_count T tc). reflexivity.
Qed.
End percent_groups.

Lemma NoDup_all_equal {A} (l : list A) (x : A) :
  NoDup l → (∀ y, y ∈ l → y = x) → x ∈ l → l = [x].
Proof.
  intros Hnd Hall Hx. destruct l as [|a [|b l]].
  - by apply elem_of_nil in Hx.
  - f_equal. apply Hall. by left.
  - exfalso. apply NoDup_cons_1_1 in Hnd. apply Hnd.
    rewrite (Hall a) by (by left). rewrite <- (Hall b) by (right; by left). by left.
Qed.

Section percent_sums.
Variables (T : DataFrame) (tc : string).
Hypothesis HT : categorized T.
Hypothesis Htc : target_column T tc.
Variables (p e : value).
Hypothesis Hrecs : with_present tc (group_records T p e) ≠ [].

Lemma group_total_nonzero :
  ¬ (column_sum "Count" (group_rows (sized_table T tc) group_cols [p; e]) == 0)%Q.
Proof.
  rewrite (group_count_sum T tc (sized_table T tc) (count_row T tc) p e
             (sized_table_rows T tc) (count_row_group T tc HT Htc) (λ _, eq_refl)).
  destruct (with_present tc (group_records T p e)) as [|x xs]; [done|].
  cbn [length]. intros H. unfold Qeq in H. cbn in H. lia.
Qed.

Lemma percent_row_percent (k : list value) :
  k ∈ keys_of_group T tc p e →
  ∃ q, cell (percent_row T tc k) "Percent" = VNum q
       ∧ (q == inject_Z (Z.of_nat (length (group_rows T (percent_keys tc) k)))
               / inject_Z (Z.of_nat (length (with_present tc (group_records T p e))))
               * 100)%Q.
Proof.
  intros [Hpe Hk]%list_elem_of_filter.
  unfold cell at 1, percent_row. rewrite lookup_insert_eq. cbn [default from_option id].
  unfold percent_cell, total_of.
  rewrite (count_row_group T tc HT Htc k Hk), Hpe, (count_row_count T tc).
  destruct (percent_value
              (inject_Z (Z.of_nat (length (group_rows T (percent_keys tc) k))))
              _ group_total_nonzero) as (q & -> & Hq).
  exists q. split; [done|]. rewrite Hq.
  rewrite (group_count_sum T tc (sized_table T tc) (count_row T tc) p e
             (sized_table_rows T tc) (count_row_group T tc HT Htc) (λ _, eq_refl)).
  reflexivity.
Qed.

Lemma group_percent_sum :
  (column_sum "Percent" (group_rows (percent_table T tc) group_cols [p; e]) == 100)%Q.
Proof.
  rewrite column_sum_snd.
  rewrite (group_of_keyed_rows T tc (percent_table T tc) (percent_row T tc) p e
             (percent_table_rows T tc) (percent_row_group T tc HT Htc)).
  rewrite <- list_fmap_compose.
  set (N := inject_Z (Z.of_nat (length (with_present tc (group_records T p e))))).
  assert (¬ (N == 0)%Q) as HN.
  { subst N. destruct (with_present tc (group_records T p e)) as [|x xs]; [done|].
    cbn [length]. intros H. unfold Qeq in H. cbn in H. lia. }
  rewrite (Qsum_fmap_ext _
             (λ k, inject_Z (Z.of_nat (length (group_rows T (percent_keys tc) k)))
                   * (/ N * 100))%Q).
  - rewrite Qsum_scale, Qsum_inject, (keys_of_group_count T tc). fold N. by field.
  - intros k Hk. cbn. destruct (percent_row_percent k Hk) as (q & -> & Hq).
    cbn. rewrite Hq. fold N. by field.
Qed.

Lemma single_target_key (t : value) :
  (∀ ir, ir ∈ with_present tc (group_records T p e) → key_of (cell ir.2 tc) = Some t) →
  keys_of_group T tc p e = [[p; e; t]].
Proof.
  intros Hall.
  assert (∀ ir c, ir ∈ rows T → row_key (percent_keys tc) ir.2 = Some [p; e; c] →
                  ir ∈ with_present tc (group_records T p e)) as Hin.
  { intros ir c Hir (a & b & c' & [= <- <- <-] & Hab & Hc)%row_key_three.
    apply list_elem_of_filter. split; [apply key_of_Some_isna; eauto|].
    by apply list_elem_of_filter. }
  apply NoDup_all_equal.
  - apply NoDup_filter, NoDup_group_keys.
  - intros k [Hpe Hk]%list_elem_of_filter.
    apply elem_of_group_keys in Hk as (ir & Hir & Hkey).
    rewrite header_of_names in Hkey.
    pose proof Hkey as (a & b & c & -> & Hab & Hc)%row_key_three.
    cbn in Hpe. injection Hpe as -> ->.
    specialize (Hall ir (Hin ir c Hir Hkey)). congruence.
  - destruct (with_present tc (group_records T p e)) as [|ir rs] eqn:E; [done|].
    assert (ir ∈ with_present tc (group_records T p e)) as Hir by (rewrite E; by left).
    pose proof (Hall ir ltac:(by left)) as Ht.
    apply list_elem_of_filter in Hir as [_ [Hpe Hir]%list_elem_of_filter].
    apply list_elem_of_filter. split; [done|].
    apply elem_of_group_keys. exists ir. split; [done|].
    rewrite header_of_names. apply row_key_three. by exists p, e, t.
Qed.
End percent_sums.

(** ** Percentages: the claims *)

Lemma compute_percent_run (σ : store) (l : loc) (T : DataFrame) (tc : string) :
  σ !! l = Some T → categorized T → target_column T tc →
  compute_percent l tc σ
  = Ok (fresh (dom σ), <[fresh (dom σ):=percent_table T tc]> σ).
Proof.
  intros Hl HT Htc. rewrite (compute_percent_pure σ l T tc Hl).
  by rewrite (percent_of_Ok T tc HT Htc).
Qed.

Lemma missing_target_df_categorized :
  categorized missing_target_df ∧ target_column missing_target_df "Target".
Proof.
  split; [split; unfold has_col; cbn; repeat constructor|].
  split; [unfold has_col; cbn; repeat constructor|].
  intros [?|[?|[?|[?|?%elem_of_nil]%elem_of_cons]%elem_of_cons]%elem_of_cons]%elem_of_cons;
    done.
Defined.

(** C1, as the specification states it, fails: in [missing_target_df]
    the group (Mother, Elementary) has two records, one of them without
    a target value; [compute_percent] counts only the other, so the
    [Count] values of the group sum to 1 and not to the group's total
    record count 2. *)
Lemma count_sum_skips_missing_target :
  ∃ r R, compute_percent 1%positive "Target" {[ 1%positive := missing_target_df ]}
         = Ok (r, <[r:=R]> {[ 1%positive := missing_target_df ]})
       ∧ length (group_records missing_target_df (VStr "Mother") (VStr "Elementary")) = 2
       ∧ (column_sum "Count" (group_rows R group_cols [VStr "Mother"; VStr "Elementary"])
          == 1)%Q
       ∧ ¬ (column_sum "Count" (group_rows R group_cols [VStr "Mother"; VStr "Elementary"])
            == inject_Z (Z.of_nat (length (group_records missing_target_df
                                             (VStr "Mother") (VStr "Elementary")))))%Q.
Proof.
  exists (fresh (dom ({[ 1%positive := missing_target_df ]} : store))),
         (percent_table missing_target_df "Target").
  split.
  { apply compute_percent_run; [apply lookup_singleton_eq|..];
      apply missing_target_df_categorized. }
  split; [vm_compute; reflexivity|].
  split; [vm_compute; reflexivity|].
  vm_compute. discriminate.
Qed.

Lemma percent_row_target (T : DataFrame) (tc : string) (a b c : value) :
  target_column T tc → cell (percent_row T tc [a; b; c]) tc = c.
Proof.
  intros [_ Hne].
  assert (tc ≠ "Parent" ∧ tc ≠ "Education Level" ∧ tc ≠ "Count" ∧ tc ≠ "Percent")
    as (H1 & H2 & H3 & H4).
  { repeat split; intros ->; apply Hne; repeat constructor. }
  unfold cell, percent_row, count_row, percent_keys.
  rewrite !lookup_insert_ne by done. rewrite !key_row_cons.
  rewrite !lookup_insert_ne by done. by rewrite lookup_insert_eq.
Qed.

(** C1, amended. For every categorized long table and target column,
    [compute_percent] returns a new table in which, for every
    (Parent, EducationLevel) group: the [Count] values of the group sum
    to the number of the group's records that have a target value (its
    total record count when none is missing); when there is such a
    record the [Percent] values of the group sum to 100; when all such
    records have one and the same target value the group has exactly
    one row, for that value, with [Percent] 100; and every row of the
    group carries a target value that a record of the group has. *)
Theorem compute_percent_group_sums (σ : store) (l : loc) (T : DataFrame) (tc : string) :
  σ !! l = Some T → categorized T → target_column T tc →
  ∃ r R, compute_percent l tc σ = Ok (r, <[r:=R]> σ) ∧
    ∀ p e,
      let recs := with_present tc (group_records T p e) in
      (column_sum "Count" (group_rows R group_cols [p; e])
       == inject_Z (Z.of_nat (length recs)))%Q
      ∧ (recs ≠ [] →
         (column_sum "Percent" (group_rows R group_cols [p; e]) == 100)%Q)
      ∧ (∀ t, recs ≠ [] →
           (∀ ir, ir ∈ recs → key_of (cell ir.2 tc) = Some t) →
           ∃ r1 q, (group_rows R group_cols [p; e]).*2 = [r1]
                   ∧ cell r1 tc = t
                   ∧ cell r1 "Count" = VNum (inject_Z (Z.of_nat (length recs)))
                   ∧ cell r1 "Percent" = VNum q ∧ (q == 100)%Q)
      ∧ (∀ ir, ir ∈ group_rows R group_cols [p; e] →
           ∃ ir', ir' ∈ recs ∧ key_of (cell ir'.2 tc) = Some (cell ir.2 tc)).
Proof.
  intros Hl HT Htc. eexists _, _. split; [by apply compute_percent_run|].
  intros p e recs.
  pose proof (group_of_keyed_rows T tc (percent_table T tc) (percent_row T tc) p e
                (percent_table_rows T tc) (percent_row_group T tc HT Htc)) as Hrows.
  split; [|split; [|split]].
  - apply (group_count_sum T tc (percent_table T tc) (percent_row T tc) p e
             (percent_table_rows T tc) (percent_row_group T tc HT Htc)).
    intros k. unfold cell. by rewrite percent_row_agree.
  - intros Hrecs. by apply group_percent_sum.
  - intros t Hrecs Hall.
    pose proof (single_target_key T tc p e Hrecs t Hall) as Hkeys.
    assert ([p; e; t] ∈ keys_of_group T tc p e) as Hk by (rewrite Hkeys; by left).
    destruct (percent_row_percent T tc HT Htc p e Hrecs _ Hk) as (q & Hq & Hq100).
    pose proof (keys_of_group_count T tc p e) as Hcnt.
    rewrite Hkeys in Hcnt. cbn [sum_list_with] in Hcnt. rewrite Nat.add_0_r in Hcnt.
    exists (percent_row T tc [p; e; t]), q.
    split; [by rewrite Hrows, Hkeys|].
    split; [by apply percent_row_target|].
    split.
    { unfold cell. rewrite percent_row_agree by done.
      fold (cell (count_row T tc [p; e; t]) "Count").
      by rewrite count_row_count, Hcnt. }
    split; [done|]. rewrite Hq100, Hcnt. fold recs.
    assert (¬ (inject_Z (Z.of_nat (length recs)) == 0)%Q) as HN.
    { destruct recs as [|x xs]; [done|].
      cbn [length]. intros H. unfold Qeq in H. cbn in H. lia. }
    by field.
  - intros ir Hir.
    assert (ir.2 ∈ (group_rows (percent_table T tc) group_cols [p; e]).*2) as Hir2.
    { apply list_elem_of_fmap. by exists ir. }
    rewrite Hrows in Hir2. apply list_elem_of_fmap in Hir2 as (k & -> & Hk).
    apply list_elem_of_filter in Hk as [Hpe Hk].
    apply elem_of_group_keys in Hk as (ir' & Hir' & Hkey).
    rewrite header_of_names in Hkey.
    pose proof Hkey as (a & b & c & -> & Hab & Hc)%row_key_three.
    cbn in Hpe. injection Hpe as -> ->.
    exists ir'. rewrite (percent_row_target T tc p e c Htc). split; [|done].
    apply list_elem_of_filter. split; [apply key_of_Some_isna; eauto|].
    by apply list_elem_of_filter.
Qed.

Lemma compute_percent_group_sums_witness :
  ∃ r R, compute_percent 1%positive "Target" {[ 1%positive := missing_target_df ]}
         = Ok (r, <[r:=R]> {[ 1%positive := missing_target_df ]})
       ∧ (column_sum "Percent" (group_rows R group_cols [VStr "Mother"; VStr "Elementary"])
          == 100)%Q.
Proof.
  destruct (compute_percent_group_sums {[ 1%positive := missing_target_df ]} 1%positive
              missing_target_df "Target") as (r & R & Hrun & Hgroups).
  - apply lookup_singleton_eq.
  - apply missing_target_df_categorized.
  - apply missing_target_df_categorized.
  - exists r, R. split; [exact Hrun|].
    destruct (Hgroups (VStr "Mother") (VStr "Elementary")) as (_ & Hpct & _).
    apply Hpct. vm_compute. discriminate.
Defined.

Lemma has_col_set_col (hdr : list (string * dtype)) (rs rs' : list (Z * row))
    (c c' : string) (d : dtype) :
  has_col (mkDF hdr rs) c → has_col (mkDF (set_col hdr c' d) rs') c.
Proof.
  intros [d0 Hd0]%col_dtype_is_Some. destruct (decide (c' = c)) as [->|Hne].
  - apply (col_dtype_has_col _ _ d). unfold col_dtype. cbn [columns]. apply set_col_dtype.
  - apply (col_dtype_has_col _ _ d0). unfold col_dtype in *. cbn [columns] in *.
    by rewrite set_col_dtype_other.
Qed.

Lemma percent_table_has_col (T : DataFrame) (tc c : string) :
  c ∈ percent_keys tc ++ ["Count"] → has_col (percent_table T tc) c.
Proof.
  intros Hc. unfold percent_table.
  apply (has_col_set_col _ (rows (sized_table T tc))).
  by apply sized_table_has_col.
Qed.

Lemma percent_table_row (T : DataFrame) (tc : string) (ir : Z * row) :
  ir ∈ rows (percent_table T tc) →
  ∃ k, k ∈ group_keys T (header_of T (percent_keys tc)) ∧ ir.2 = percent_row T tc k.
Proof.
  intros Hir. assert (ir.2 ∈ (rows (percent_table T tc)).*2) as H.
  { apply list_elem_of_fmap. by exists ir. }
  rewrite percent_table_rows in H. apply list_elem_of_fmap in H as (k & ? & ?).
  by exists k.
Qed.

Lemma percent_row_count (T : DataFrame) (tc : string) (k : list value) :
  cell (percent_row T tc k) "Count"
  = VNum (inject_Z (Z.of_nat (length (group_rows T (percent_keys tc) k)))).
Proof.
  unfold cell. rewrite percent_row_agree by done. apply (count_row_count T tc k).
Qed.

(** Grouping the percentage table by its own keys gives groups of one
    row each. *)
Lemma percent_table_group (T : DataFrame) (tc : string) (k : list value) :
  categorized T → target_column T tc →
  k ∈ group_keys T (header_of T (percent_keys tc)) →
  (group_rows (percent_table T tc) (percent_keys tc) k).*2 = [percent_row T tc k].
Proof.
  intros HT Htc Hk. unfold group_rows.
  assert ((filter (λ ir : Z * row, row_key (percent_keys tc) ir.2 = Some k)
             (rows (percent_table T tc))).*2
          = filter (λ r : row, row_key (percent_keys tc) r = Some k)
              (rows (percent_table T tc)).*2) as ->
    by by apply fmap_snd_filter.
  rewrite percent_table_rows.
  rewrite (filter_fmap_in _ (λ k', k' = k)).
  - by rewrite filter_eq_NoDup by (apply NoDup_group_keys || done).
  - intros k' Hk'. rewrite (percent_row_key T tc HT Htc k' Hk'). split; congruence.
Qed.

Lemma singleton_of_snd {A B} (l : list (A * B)) (x : A * B) :
  l.*2 = [x.2] → x ∈ l → l = [x].
Proof.
  destruct l as [|y [|z l]]; intros Hl Hx; try done.
  apply elem_of_cons in Hx as [->|Hx%elem_of_nil]; done.
Qed.

Lemma ages_df_categorized : categorized ages_df ∧ target_column ages_df "Target".
Proof.
  split; [split; unfold has_col; cbn; repeat constructor|].
  split; [unfold has_col; cbn; repeat constructor|].
  intros Hin. repeat (apply elem_of_cons in Hin as [?|Hin]; [done|]).
  by apply elem_of_nil in Hin.
Qed.

Lemma percent_table_regroup (T : DataFrame) (tc : string) :
  categorized T → target_column T tc →
  NoDup ((λ ir, row_key (percent_keys tc) ir.2) <$> rows (percent_table T tc))
  ∧ (∀ ir, ir ∈ rows (percent_table T tc) →
       ∃ k, row_key (percent_keys tc) ir.2 = Some k
            ∧ group_rows (percent_table T tc) (percent_keys tc) k = [ir])
  ∧ groupby_transform_sum (percent_table T tc) (percent_keys tc) "Count"
    = getitem (percent_table T tc) "Count".
Proof.
  intros HT Htc.
  destruct (target_column_keys T tc HT Htc) as (_ & _ & Hc & _).
  split; [|split].
  - assert ((λ ir : Z * row, row_key (percent_keys tc) ir.2) <$> rows (percent_table T tc)
            = Some <$> group_keys T (header_of T (percent_keys tc))) as ->.
    { transitivity (row_key (percent_keys tc) <$> (rows (percent_table T tc)).*2).
      { by rewrite <- list_fmap_compose. }
      rewrite percent_table_rows, <- list_fmap_compose.
      apply list_fmap_ext. intros i k Hik. apply (percent_row_key T tc HT Htc).
      by eapply list_elem_of_lookup_2. }
    apply NoDup_fmap; [apply _|apply NoDup_group_keys].
  - intros ir Hir. destruct (percent_table_row T tc ir Hir) as (k & Hk & Hrow).
    exists k. split; [rewrite Hrow; by apply percent_row_key|].
    apply singleton_of_snd.
    + rewrite Hrow. by apply percent_table_group.
    + apply list_elem_of_filter. split; [|done].
      rewrite Hrow. by apply percent_row_key.
  - rewrite groupby_transform_sum_Ok; cycle 1.
    { unfold percent_keys. repeat constructor; apply percent_table_has_col;
        unfold percent_keys; set_solver. }
    { apply percent_table_has_col. set_solver. }
    { intros ir (k & _ & ->)%percent_table_row. rewrite percent_row_count. eauto. }
    unfold getitem.
    assert (col_dtype (percent_table T tc) "Count" = Some Plain) as ->.
    { unfold col_dtype, percent_table, sized_table. cbn [columns].
      rewrite set_col_dtype_other by done.
      rewrite list_to_map_app, lookup_union_r.
      - cbn. by rewrite lookup_insert_eq.
      - apply not_elem_of_list_to_map_1. by rewrite header_of_names. }
    do 2 f_equal. apply list_fmap_ext. intros i ir Hi. f_equal.
    apply list_elem_of_lookup_2 in Hi.
    destruct (percent_table_row T tc ir Hi) as (k & Hk & Hrow).
    unfold total_of. rewrite Hrow at 1. rewrite (percent_row_key T tc HT Htc k Hk).
    rewrite column_sum_snd, (percent_table_group T tc k HT Htc Hk).
    cbn [fmap list_fmap Qsum foldr].
    rewrite Hrow, !percent_row_count. cbn [cell_num].
    f_equal. etransitivity; [|apply inject_Z_Qred].
    apply Qred_complete. ring.
Qed.

Lemma regroup_by_group_cols (T : DataFrame) (tc : string) :
  categorized T → target_column T tc →
  groupby_transform_sum (percent_table T tc) group_cols "Count"
  = Ok (mkSeries Plain
          ((λ ir, (ir.1, total_of (percent_table T tc) group_cols "Count" ir.2))
             <$> rows (percent_table T tc)))
  ∧ ∀ k, k ∈ group_keys T (header_of T (percent_keys tc)) →
      ∃ a b c q, k = [a; b; c]
        ∧ total_of (percent_table T tc) group_cols "Count" (percent_row T tc k) = VNum q
        ∧ (q == inject_Z (Z.of_nat (length (with_present tc (group_records T a b)))))%Q.
Proof.
  intros HT Htc. split.
  - apply groupby_transform_sum_Ok.
    + unfold group_cols. repeat constructor; apply percent_table_has_col;
        unfold percent_keys; set_solver.
    + apply percent_table_has_col. set_solver.
    + intros ir (k & _ & ->)%percent_table_row. rewrite percent_row_count. eauto.
  - intros k Hk. destruct (group_key_shape T tc k Hk) as (a & b & c & -> & _ & _).
    exists a, b, c, (Qred (column_sum "Count"
                             (group_rows (percent_table T tc) group_cols [a; b]))).
    split; [done|]. split.
    + unfold total_of. by rewrite (percent_row_group T tc HT Htc _ Hk).
    + rewrite Qred_correct.
      apply (group_count_sum T tc (percent_table T tc) (percent_row T tc) a b).
      * apply percent_table_rows.
      * intros k' Hk'. by apply percent_row_group.
      * intros k'. unfold cell. by rewrite percent_row_agree.
Qed.

(** C9, as the specification states it, fails: on [ages_df] the group
    (Mother, Elementary) has two rows in the table [compute_percent]
    returns, with counts 1 and 2; regrouping by (Parent,
    EducationLevel) gives both rows the group's total 3, so the
    regrouped values 1, 3, 3 are not the [Count] column 1, 1, 2. *)
Lemma regroup_by_parent_edu_changes_count :
  ∃ r R, compute_percent 1%positive "Target" {[ 1%positive := ages_df ]}
         = Ok (r, <[r:=R]> {[ 1%positive := ages_df ]})
       ∧ getitem R "Count"
         = Ok (mkSeries Plain [(0%Z, VNum 1); (1%Z, VNum 1); (2%Z, VNum 2)])
       ∧ groupby_transform_sum R group_cols "Count"
         = Ok (mkSeries Plain [(0%Z, VNum 1); (1%Z, VNum 3); (2%Z, VNum 3)])
       ∧ groupby_transform_sum R group_cols "Count" ≠ getitem R "Count".
Proof.
  exists (fresh (dom ({[ 1%positive := ages_df ]} : store))),
         (percent_table ages_df "Target").
  split.
  { apply compute_percent_run; [apply lookup_singleton_eq|..];
      apply ages_df_categorized. }
  split; [vm_compute; reflexivity|].
  split; [vm_compute; reflexivity|].
  vm_compute. discriminate.
Qed.

(** C9. In every table that [compute_percent] produces, each
    (Parent, EducationLevel, Target) combination occurs in exactly one
    row, and regrouping the table by these three keys with [Count] as
    the value reproduces the [Count] values: every group is that one
    row, and the per-group sum of [Count], taken row by row as
    [compute_percent] itself regroups, is the [Count] column.
    Regrouping by (Parent, EducationLevel) alone succeeds as well, but
    gives every row the total of its group: the number of the group's
    records that have a target value. *)
Theorem compute_percent_regroup_stable (σ : store) (l : loc) (T : DataFrame) (tc : string) :
  σ !! l = Some T → categorized T → target_column T tc →
  ∃ r R, compute_percent l tc σ = Ok (r, <[r:=R]> σ)
    ∧ NoDup ((λ ir, row_key (percent_keys tc) ir.2) <$> rows R)
    ∧ (∀ ir, ir ∈ rows R →
         ∃ k, row_key (percent_keys tc) ir.2 = Some k
              ∧ group_rows R (percent_keys tc) k = [ir])
    ∧ groupby_transform_sum R (percent_keys tc) "Count" = getitem R "Count"
    ∧ ∃ S, groupby_transform_sum R group_cols "Count" = Ok S
        ∧ (s_data S).*1 = (rows R).*1
        ∧ ∀ i ir, rows R !! i = Some ir →
            ∃ a b c q, row_key (percent_keys tc) ir.2 = Some [a; b; c]
              ∧ (s_data S).*2 !! i = Some (VNum q)
              ∧ (q == inject_Z (Z.of_nat
                          (length (with_present tc (group_records T a b)))))%Q.
Proof.
  intros Hl HT Htc. exists (fresh (dom σ)), (percent_table T tc).
  split; [by apply compute_percent_run|].
  destruct (percent_table_regroup T tc HT Htc) as (H1 & H2 & H3).
  split; [exact H1|]. split; [exact H2|]. split; [exact H3|].
  destruct (regroup_by_group_cols T tc HT Htc) as [HS Htot].
  eexists. split; [exact HS|]. cbn [s_data]. split.
  - rewrite <- list_fmap_compose. by apply list_fmap_ext.
  - intros i ir Hi.
    destruct (percent_table_row T tc ir (list_elem_of_lookup_2 _ _ _ Hi))
      as (k & Hk & Hrow).
    destruct (Htot k Hk) as (a & b & c & q & -> & Hq & Hn).
    exists a, b, c, q. split; [rewrite Hrow; by apply percent_row_key|].
    split; [|exact Hn].
    rewrite <- list_fmap_compose, list_lookup_fmap, Hi. cbn [fmap option_fmap option_map compose snd].
    by rewrite Hrow, Hq.
Qed.

Lemma compute_percent_regroup_stable_witness :
  ∃ r R, compute_percent 1%positive "Target" {[ 1%positive := ages_df ]}
         = Ok (r, <[r:=R]> {[ 1%positive := ages_df ]})
       ∧ groupby_transform_sum R (percent_keys "Target") "Count" = getitem R "Count"
       ∧ ∃ S, groupby_transform_sum R group_cols "Count" = Ok S
              ∧ (s_data S).*1 = (rows R).*1.
Proof.
  destruct (compute_percent_regroup_stable {[ 1%positive := ages_df ]}
              1%positive ages_df "Target")
    as (r & R & Hrun & _ & _ & Hsum & S & HS & Hidx & _).
  - apply lookup_singleton_eq.
  - apply ages_df_categorized.
  - apply ages_df_categorized.
  - exists r, R. split; [exact Hrun|]. split; [exact Hsum|].
    exists S. split; [exact HS|exact Hidx].
Defined.

(** ** The summary table *)

(** [compute_summary_stats] allocates two tables, the grouped one and
    the result, and touches nothing else. *)
Lemma compute_summary_stats_pure (σ : store) (l : loc) (T : DataFrame) (value_col : string) :
  σ !! l = Some T →
  compute_summary_stats l value_col σ
  = match groupby_agg T ["Parent"; "Education Level"] (summary_aggs value_col) with
    | Ok grouped =>
        let σ0 := <[fresh (dom σ):=grouped]> σ in
        match summary_long_of grouped value_col with
        | Ok R => Ok (fresh (dom σ0), <[fresh (dom σ0):=R]> σ0)
        | Err e => Err e
        end
    | Err e => Err e
    end.
Proof.
  intros Hl. unfold compute_summary_stats, summary_long_of.
  fold (summary_aggs value_col). fold stat_names.
  rewrite (Py_bind_deref _ _ _ _ Hl), Py_bind_lift.
  destruct (groupby_agg T _ _) as [grouped|e]; [|done].
  rewrite Py_bind_new_frame. cbv zeta.
  set (σ0 := <[fresh (dom σ):=grouped]> σ).
  assert (σ0 !! fresh (dom σ) = Some grouped) as Hr0 by apply lookup_insert_eq.
  rewrite (Py_bind_deref _ _ _ _ Hr0), Py_bind_lift.
  destruct (melt grouped _ _ _ _) as [melted|e]; [|done].
  rewrite bind_Ok, Py_bind_new_frame.
  set (r := fresh (dom σ0)).
  assert (<[r:=melted]> σ0 !! r = Some melted) as Hr by apply lookup_insert_eq.
  rewrite (Py_bind_deref _ _ _ _ Hr), Py_bind_lift.
  destruct (getitem melted "Statistic") as [stat|e]; [|done].
  rewrite bind_Ok, Py_bind_lift.
  destruct (series_map stat _) as [mapped|e]; [|done].
  rewrite bind_Ok, (Py_bind_setitem _ _ _ _ _ _ Hr).
  destruct (set_column melted "Statistic" mapped) as [R|e]; [|done].
  unfold mret, Py_ret. by rewrite insert_insert_eq.
Qed.

(** ** Frame: the aggregators and the store *)

(** C8. [compute_percent] and [compute_summary_stats] do not mutate
    their input: whenever either returns, the table object passed in
    still holds the same table (columns, rows and values), so does
    every other object of the store, and the result is an object that
    did not exist before the call. *)
Theorem aggregators_leave_input_unchanged (σ : store) (l : loc) (T : DataFrame)
    (c : string) :
  σ !! l = Some T →
  (∀ r σ', compute_percent l c σ = Ok (r, σ') →
     σ' !! l = Some T ∧ σ !! r = None ∧ is_Some (σ' !! r)
     ∧ ∀ l' T', σ !! l' = Some T' → σ' !! l' = Some T')
  ∧ (∀ r σ', compute_summary_stats l c σ = Ok (r, σ') →
     σ' !! l = Some T ∧ σ !! r = None ∧ is_Some (σ' !! r)
     ∧ ∀ l' T', σ !! l' = Some T' → σ' !! l' = Some T').
Proof.
  intros Hl. split; intros r σ' Hrun.
  - rewrite (compute_percent_pure σ l T c Hl) in Hrun.
    destruct (percent_of T c) as [R|e]; [|done]. injection Hrun as <- <-.
    assert (∀ l' T', σ !! l' = Some T' → <[fresh (dom σ):=R]> σ !! l' = Some T') as Hframe.
    { intros l' T' Hl'. rewrite lookup_insert_ne; [done|].
      intros <-. by rewrite fresh_loc_None in Hl'. }
    split; [by apply Hframe|]. split; [apply fresh_loc_None|].
    split; [|done]. rewrite lookup_insert_eq. eauto.
  - rewrite (compute_summary_stats_pure σ l T c Hl) in Hrun.
    destruct (groupby_agg T _ _) as [grouped|e]; [|done]. cbv zeta in Hrun.
    destruct (summary_long_of grouped c) as [R|e]; [|done]. injection Hrun as <- <-.
    set (σ0 := <[fresh (dom σ):=grouped]> σ).
    assert (σ !! fresh (dom σ0) = None) as Hfresh.
    { pose proof (fresh_loc_None σ0) as Hn. subst σ0.
      by apply lookup_insert_None in Hn as [Hn _]. }
    assert (∀ l' T', σ !! l' = Some T' → <[fresh (dom σ0):=R]> σ0 !! l' = Some T') as Hframe.
    { intros l' T' Hl'. rewrite lookup_insert_ne by (intros <-; congruence).
      subst σ0. rewrite lookup_insert_ne; [done|].
      intros <-. by rewrite fresh_loc_None in Hl'. }
    split; [by apply Hframe|]. split; [done|].
    split; [|done]. rewrite lookup_insert_eq. eauto.
Qed.

(** ** Groups of the summary table *)

Lemma present_nums_cells (c : string) (rs : list (Z * row)) :
  omap (λ v, match v with VNum q => Some q | _ => None end) ((λ ir, cell ir.2 c) <$> rs)
  = present_nums c rs.
Proof.
  unfold present_nums. induction rs as [|ir rs IH]; [done|].
  cbn. rewrite IH. done.
Qed.

Lemma agg_rows_Ok (f : aggfunc) (c : string) (rs : list (Z * row)) :
  (∀ ir, ir ∈ rs → not_str (cell ir.2 c)) →
  agg_rows f c rs = Ok (agg_apply f (present_nums c rs)).
Proof.
  intros H. unfold agg_rows. rewrite nums_present.
  - by rewrite bind_Ok, present_nums_cells.
  - apply Forall_fmap, Forall_forall. intros ir Hir. by apply H.
Qed.

Lemma numeric_column_facts (T : DataFrame) (vc : string) :
  numeric_column T vc →
  has_col T vc ∧ (vc ∉ group_cols)
  ∧ vc ≠ "Parent" ∧ vc ≠ "Education Level" ∧ vc ≠ "Mean_Age" ∧ vc ≠ "Median_Age"
  ∧ vc ≠ "Statistic"
  ∧ (∀ ir, ir ∈ rows T → not_str (cell ir.2 vc)).
Proof.
  intros (Hc & Hne & Hnum).
  assert (vc ≠ "Parent" ∧ vc ≠ "Education Level" ∧ vc ≠ "Mean_Age"
          ∧ vc ≠ "Median_Age" ∧ vc ≠ "Statistic") as (H1 & H2 & H3 & H4 & H5).
  { repeat split; intros ->; apply Hne; repeat constructor. }
  repeat split; try done.
  - intros [?|[?|?%elem_of_nil]%elem_of_cons]%elem_of_cons; done.
  - intros ir Hir. specialize (Hnum ir Hir). destruct (cell ir.2 vc); [done| |done].
    by eapply Hnum.
Qed.

Lemma group_cols_NoDup : NoDup group_cols.
Proof.
  unfold group_cols. repeat constructor.
  - intros [?|?%elem_of_nil]%elem_of_cons; done.
  - apply not_elem_of_nil.
Qed.

Lemma groupby_agg_Ok (T : DataFrame) (vc : string) :
  categorized T → numeric_column T vc →
  groupby_agg T group_cols (summary_aggs vc) = Ok (grouped_table T vc).
Proof.
  intros [Hp He] (Hc & Hng & _ & _ & _ & _ & _ & Hnum)%numeric_column_facts.
  unfold groupby_agg.
  rewrite (mapM_lookup_dtype T group_cols) by by repeat constructor.
  rewrite bind_Ok.
  rewrite (mapM_Ok _ (λ a, (a.2.1, default Plain (col_dtype T a.2.1)))); cycle 1.
  { intros a Ha. unfold summary_aggs in Ha.
    assert (a.2.1 = vc) as ->.
    { apply elem_of_cons in Ha as [->|[->|?%elem_of_nil]%elem_of_cons]; done. }
    rewrite decide_False by done. unfold lookup_dtype.
    by destruct (col_dtype_is_Some T vc Hc) as [d ->]. }
  rewrite bind_Ok. rewrite decide_True; cycle 1.
  { split; [apply group_cols_NoDup|]. unfold summary_aggs, group_cols.
    repeat constructor; cbn;
      intros [?|[?|?%elem_of_nil]%elem_of_cons]%elem_of_cons; done. }
  rewrite (mapM_Ok _ (agg_row T vc)); [done|].
  intros k Hk. unfold summary_aggs.
  assert (∀ ir, ir ∈ group_rows T group_cols k → not_str (cell ir.2 vc)) as Hn.
  { intros ir [_ Hir]%list_elem_of_filter. by apply Hnum. }
  change (mapM ?f [?a; ?b]) with (x ← f a; l ← (y ← f b; Ok [y]); Ok (x :: l)).
  cbn [fst snd]. rewrite !(agg_rows_Ok _ _ _ Hn). reflexivity.
Qed.

Lemma grouped_table_names (T : DataFrame) (vc : string) :
  col_names (grouped_table T vc) = group_cols ++ ["Mean_Age"; "Median_Age"].
Proof.
  unfold col_names, grouped_table. cbn [columns].
  by rewrite fmap_app, header_of_names.
Qed.

Lemma melt_Ok (T : DataFrame) (vc : string) :
  numeric_column T vc →
  melt (grouped_table T vc) group_cols ["Mean_Age"; "Median_Age"] "Statistic" vc
  = Ok (melted_table (grouped_table T vc) vc).
Proof.
  intros (_ & _ & H1 & H2 & H3 & H4 & H5 & _)%numeric_column_facts.
  unfold melt.
  rewrite (mapM_lookup_dtype (grouped_table T vc) group_cols); cycle 1.
  { unfold has_col. rewrite grouped_table_names. unfold group_cols.
    repeat constructor. }
  rewrite bind_Ok.
  rewrite (mapM_lookup_dtype (grouped_table T vc) ["Mean_Age"; "Median_Age"]); cycle 1.
  { unfold has_col. rewrite grouped_table_names. unfold group_cols.
    repeat constructor. }
  rewrite bind_Ok. rewrite decide_False; [done|].
  rewrite grouped_table_names. unfold group_cols.
  intros [Hin|Heq]; [|done].
  apply elem_of_cons in Hin as [?|Hin]; [done|].
  apply elem_of_cons in Hin as [?|Hin]; [done|].
  apply elem_of_cons in Hin as [?|Hin]; [done|].
  apply elem_of_cons in Hin as [?|Hin%elem_of_nil]; done.
Qed.

Lemma summary_long_of_Ok (T : DataFrame) (vc : string) :
  numeric_column T vc →
  summary_long_of (grouped_table T vc) vc = Ok (summary_table T vc).
Proof.
  intros Hvc. unfold summary_long_of. fold group_cols.
  rewrite (melt_Ok T vc Hvc), bind_Ok.
  set (M := melted_table (grouped_table T vc) vc).
  destruct (getitem_Ok M "Statistic") as (d & _ & ->).
  { unfold has_col, col_names. subst M. unfold melted_table. cbn [columns].
    rewrite fmap_app, header_of_names. unfold group_cols. cbn. repeat constructor. }
  rewrite bind_Ok. cbn [series_map s_data]. rewrite bind_Ok, <- list_fmap_compose.
  exact (set_column_fmap M "Statistic" Plain
           (λ ir, default VNaN (str_dict stat_names (cell ir.2 "Statistic")))).
Qed.

Lemma compute_summary_stats_run (σ : store) (l : loc) (T : DataFrame) (vc : string) :
  σ !! l = Some T → categorized T → numeric_column T vc →
  compute_summary_stats l vc σ
  = Ok (fresh (dom (<[fresh (dom σ):=grouped_table T vc]> σ)),
        <[fresh (dom (<[fresh (dom σ):=grouped_table T vc]> σ)):=summary_table T vc]>
          (<[fresh (dom σ):=grouped_table T vc]> σ)).
Proof.
  intros Hl HT Hvc. rewrite (compute_summary_stats_pure σ l T vc Hl).
  fold group_cols. rewrite (groupby_agg_Ok T vc HT Hvc). cbv zeta.
  by rewrite (summary_long_of_Ok T vc Hvc).
Qed.

Global Instance Qle_total : Total Qle.
Proof.
  intros x y. destruct (Qlt_le_dec x y) as [H|H]; [left; by apply Qlt_le_weak|by right].
Qed.

Lemma mean_is_mean (xs : list Q) : is_mean xs (mean xs).
Proof.
  destruct xs as [|x xs]; [done|]. unfold is_mean, mean.
  eexists. split; [reflexivity|]. rewrite Qred_correct.
  set (n := inject_Z (Z.of_nat (length (x :: xs)))).
  assert (¬ (n == 0)%Q) as Hn.
  { subst n. cbn [length]. intros H. unfold Qeq in H. cbn in H. lia. }
  by field.
Qed.

Lemma median_is_median (xs : list Q) : is_median xs (median xs).
Proof.
  destruct xs as [|x xs]; [done|]. unfold is_median, median.
  set (s := merge_sort Qle (x :: xs)).
  assert (s ≡ₚ x :: xs) as Hperm by apply merge_sort_Permutation.
  assert (length s = length (x :: xs)) as Hlen by by rewrite Hperm.
  rewrite Hlen. set (n := length (x :: xs)) in *.
  assert (n ≠ 0) as Hn0 by (subst n; cbn; lia).
  rewrite decide_False by done.
  assert (n / 2 < n) as Hhalf by (apply Nat.div_lt; lia).
  destruct (Nat.odd n) eqn:Hodd.
  - eexists s, _. split; [reflexivity|]. split; [done|].
    split; [apply Sorted_merge_sort; apply _|].
    eexists. split; [apply list_lookup_lookup_total_lt; lia|].
    apply Qred_correct.
  - eexists s, _. split; [reflexivity|]. split; [done|].
    split; [apply Sorted_merge_sort; apply _|].
    eexists _, _. split; [apply list_lookup_lookup_total_lt; lia|].
    split; [apply list_lookup_lookup_total_lt; lia|].
    apply Qred_correct.
Qed.

Section summary_rows.
Variables (T : DataFrame) (vc : string).
Hypothesis HT : categorized T.
Hypothesis Hvc : numeric_column T vc.

Lemma summary_key_shape (k : list value) :
  k ∈ group_keys T (header_of T group_cols) →
  length k = length group_cols ∧ Forall (λ a, key_of a = Some a) k.
Proof.
  intros (ir & Hir & Hk)%elem_of_group_keys. rewrite header_of_names in Hk.
  split; [by eapply row_key_length|by eapply row_key_normal].
Qed.

Lemma agg_row_key (k : list value) (c : string) :
  c ∈ group_cols → agg_row T vc k !! c = key_row group_cols k !! c.
Proof.
  intros Hc. unfold agg_row. apply lookup_union_r.
  cbn. unfold group_cols in Hc.
  apply elem_of_cons in Hc as [->|[->|?%elem_of_nil]%elem_of_cons]; done.
Qed.

Lemma stat_row_key (v : string) (k : list value) :
  k ∈ group_keys T (header_of T group_cols) →
  row_key group_cols (stat_row vc v (agg_row T vc k)) = Some k.
Proof.
  intros Hk. destruct (summary_key_shape k Hk) as [Hlen Hn].
  destruct (numeric_column_facts T vc Hvc) as (_ & Hng & _).
  rewrite (row_key_agree _ _ (key_row group_cols k)).
  - apply row_key_key_row; [apply group_cols_NoDup|done..].
  - intros c Hc. unfold stat_row.
    assert (c ≠ "Statistic") as Hcs.
    { intros ->. unfold group_cols in Hc.
      apply elem_of_cons in Hc as [?|[?|?%elem_of_nil]%elem_of_cons]; done. }
    rewrite lookup_insert_ne by done.
    rewrite lookup_insert_ne by (intros ->; contradiction).
    rewrite lookup_insert_ne by done.
    rewrite lookup_select, decide_True by done. by apply agg_row_key.
Qed.

Lemma stat_row_statistic (v : string) (g : row) :
  cell (stat_row vc v g) "Statistic" = default VNaN (str_dict stat_names (VStr v)).
Proof. unfold cell, stat_row. by rewrite lookup_insert_eq. Qed.

Lemma stat_row_value (v : string) (g : row) :
  cell (stat_row vc v g) vc = cell g v.
Proof.
  destruct (numeric_column_facts T vc Hvc) as (_ & _ & _ & _ & _ & _ & Hs & _).
  unfold cell at 1, stat_row.
  rewrite lookup_insert_ne by done. by rewrite lookup_insert_eq.
Qed.

Lemma agg_row_mean (k : list value) :
  cell (agg_row T vc k) "Mean_Age" = mean (present_nums vc (group_rows T group_cols k)).
Proof.
  unfold cell, agg_row. erewrite lookup_union_Some_l; [done|].
  cbn. by rewrite lookup_insert_eq.
Qed.

Lemma agg_row_median (k : list value) :
  cell (agg_row T vc k) "Median_Age"
  = median (present_nums vc (group_rows T group_cols k)).
Proof.
  unfold cell, agg_row. erewrite lookup_union_Some_l; [done|].
  cbn. rewrite lookup_insert_ne by done. by rewrite lookup_insert_eq.
Qed.

Lemma summary_table_rows :
  (rows (summary_table T vc)).*2
  = ((λ k, stat_row vc "Mean_Age" (agg_row T vc k))
       <$> group_keys T (header_of T group_cols))
    ++ ((λ k, stat_row vc "Median_Age" (agg_row T vc k))
          <$> group_keys T (header_of T group_cols)).
Proof.
  destruct (numeric_column_facts T vc Hvc) as (_ & _ & _ & _ & _ & _ & Hs & _).
  assert (∀ v (g : row),
            <["Statistic":=default VNaN
                (str_dict stat_names
                   (cell (<[vc:=cell g v]>
                            (<["Statistic":=VStr v]>
                               (filter (λ kv : string * value, kv.1 ∈ group_cols) g)))
                         "Statistic"))]>
              (<[vc:=cell g v]>
                 (<["Statistic":=VStr v]>
                    (filter (λ kv : string * value, kv.1 ∈ group_cols) g)))
            = stat_row vc v g) as Hfinal.
  { intros v g. unfold stat_row. f_equal. unfold cell at 1.
    rewrite lookup_insert_ne by done. by rewrite lookup_insert_eq. }
  unfold summary_table. cbn [rows].
  rewrite <- list_fmap_compose. unfold melted_table. cbn [rows].
  transitivity ((λ r : row,
                   <["Statistic":=default VNaN (str_dict stat_names (cell r "Statistic"))]> r)
                  <$> (imap (λ (i : nat) (r : row), (Z.of_nat i, r))
                         (["Mean_Age"; "Median_Age"] ≫= λ v,
                            (λ ir : Z * row,
                               <[vc:=cell ir.2 v]>
                                 (<["Statistic":=VStr v]>
                                    (filter (λ kv : string * value, kv.1 ∈ group_cols) ir.2)))
                              <$> rows (grouped_table T vc))).*2).
  { by rewrite <- list_fmap_compose. }
  rewrite (fmap_snd_imap_id (λ i, Z.of_nat i)).
  cbn [mbind list_bind]. rewrite app_nil_r, fmap_app.
  assert (∀ v, (λ ir : Z * row,
                  <[vc:=cell ir.2 v]>
                    (<["Statistic":=VStr v]>
                       (filter (λ kv : string * value, kv.1 ∈ group_cols) ir.2)))
                 <$> rows (grouped_table T vc)
               = (λ g : row,
                    <[vc:=cell g v]>
                      (<["Statistic":=VStr v]>
                         (filter (λ kv : string * value, kv.1 ∈ group_cols) g)))
                   <$> (agg_row T vc <$> group_keys T (header_of T group_cols))) as Hg.
  { intros v. unfold grouped_table. cbn [rows].
    rewrite <- (fmap_snd_imap_id (λ i, Z.of_nat i)
                  (agg_row T vc <$> group_keys T (header_of T group_cols))) at 2.
    by rewrite <- list_fmap_compose. }
  rewrite !Hg, <- !list_fmap_compose. f_equal.
  - apply list_fmap_ext. intros i k _. cbn. apply Hfinal.
  - apply list_fmap_ext. intros i k _. cbn. apply Hfinal.
Qed.
End summary_rows.

(** ** Summary statistics: the claim *)

Lemma observed_group_key (T : DataFrame) (p e : value) :
  [p; e] ∈ group_keys T (header_of T group_cols) ↔ group_records T p e ≠ [].
Proof.
  rewrite elem_of_group_keys, header_of_names. unfold group_records, group_rows. split.
  - intros (ir & Hir & Hk) Hnil. by apply (filter_nil_not_elem_of _ _ ir Hnil Hk).
  - intros Hne. destruct (filter _ (rows T)) as [|ir rs] eqn:E; [done|].
    assert (ir ∈ filter (λ ir : Z * row, row_key group_cols ir.2 = Some [p; e]) (rows T))
      as [Hk Hir]%list_elem_of_filter by (rewrite E; by left).
    by exists ir.
Qed.

Lemma summary_group_rows (T : DataFrame) (vc : string) (p e : value) :
  categorized T → numeric_column T vc →
  (group_rows (summary_table T vc) group_cols [p; e]).*2
  = ((λ k, stat_row vc "Mean_Age" (agg_row T vc k))
       <$> filter (λ k, k = [p; e]) (group_keys T (header_of T group_cols)))
    ++ ((λ k, stat_row vc "Median_Age" (agg_row T vc k))
          <$> filter (λ k, k = [p; e]) (group_keys T (header_of T group_cols))).
Proof.
  intros HT Hvc. unfold group_rows.
  assert ((filter (λ ir : Z * row, row_key group_cols ir.2 = Some [p; e])
             (rows (summary_table T vc))).*2
          = filter (λ r : row, row_key group_cols r = Some [p; e])
              (rows (summary_table T vc)).*2) as ->
    by by apply fmap_snd_filter.
  rewrite (summary_table_rows T vc Hvc), filter_app.
  f_equal; apply filter_fmap_in; intros k Hk;
    rewrite (stat_row_key T vc Hvc _ k Hk); split; congruence.
Qed.

(** C6. For every categorized long table and numeric value column,
    [compute_summary_stats] returns a new table that holds, for each
    observed (Parent, EducationLevel) group, exactly two rows: one
    tagged Mean whose value-column cell is the arithmetic mean of the
    group's values, and one tagged Median whose value-column cell is
    their median (the middle value, or the average of the two middle
    values of an even number); a group without records has no row.
    Missing values of the column are left out of both statistics. *)
Theorem compute_summary_stats_rows (σ : store) (l : loc) (T : DataFrame) (vc : string) :
  σ !! l = Some T → categorized T → numeric_column T vc →
  ∃ r R σ', compute_summary_stats l vc σ = Ok (r, σ') ∧ σ' !! r = Some R ∧
    ∀ p e,
      let recs := group_records T p e in
      (recs = [] → group_rows R group_cols [p; e] = [])
      ∧ (recs ≠ [] →
         ∃ rm rd, (group_rows R group_cols [p; e]).*2 = [rm; rd]
           ∧ cell rm "Statistic" = VStr "Mean"
           ∧ is_mean (present_nums vc recs) (cell rm vc)
           ∧ cell rd "Statistic" = VStr "Median"
           ∧ is_median (present_nums vc recs) (cell rd vc)).
Proof.
  intros Hl HT Hvc. eexists _, (summary_table T vc), _.
  split; [by apply compute_summary_stats_run|].
  split; [apply lookup_insert_eq|].
  intros p e recs.
  pose proof (summary_group_rows T vc p e HT Hvc) as Hrows.
  split.
  - intros Hnil.
    assert ([p; e] ∉ group_keys T (header_of T group_cols)) as Hnot.
    { intros Hin%observed_group_key. contradiction. }
    rewrite (filter_none (λ k, k = [p; e])) in Hrows
      by (intros k Hk ->; contradiction).
    by apply fmap_nil_inv in Hrows.
  - intros Hobs%observed_group_key.
    rewrite (filter_eq_NoDup _ _ (NoDup_group_keys _ _) Hobs) in Hrows.
    eexists _, _. split; [exact Hrows|].
    rewrite !(stat_row_statistic vc), !(stat_row_value T vc Hvc).
    rewrite (agg_row_mean T vc), (agg_row_median T vc).
    split; [by vm_compute|]. split; [apply mean_is_mean|].
    split; [by vm_compute|]. apply median_is_median.
Qed.

Lemma ages_df_numeric : categorized ages_df ∧ numeric_column ages_df "Age".
Proof.
  split; [split; unfold has_col; cbn; repeat constructor|].
  split; [unfold has_col; cbn; repeat constructor|]. split.
  - intros Hin. repeat (apply elem_of_cons in Hin as [?|Hin]; [done|]).
    by apply elem_of_nil in Hin.
  - intros ir Hir s. cbn in Hir.
    repeat (apply elem_of_cons in Hir as [->|Hir]; [by vm_compute|]).
    by apply elem_of_nil in Hir.
Defined.

Lemma compute_summary_stats_rows_witness :
  ∃ r R σ', compute_summary_stats 1%positive "Age" {[ 1%positive := ages_df ]} = Ok (r, σ')
    ∧ σ' !! r = Some R
    ∧ ∃ rm rd,
        (group_rows R group_cols [VStr "Mother"; VStr "Elementary"]).*2 = [rm; rd]
        ∧ cell rm "Statistic" = VStr "Mean" ∧ cell rd "Statistic" = VStr "Median".
Proof.
  destruct (compute_summary_stats_rows {[ 1%positive := ages_df ]} 1%positive
              ages_df "Age") as (r & R & σ' & Hrun & HR & Hgroups).
  - apply lookup_singleton_eq.
  - apply ages_df_numeric.
  - apply ages_df_numeric.
  - exists r, R, σ'. split; [exact Hrun|]. split; [exact HR|].
    destruct (Hgroups (VStr "Mother") (VStr "Elementary")) as [_ Hobs].
    destruct Hobs as (rm & rd & Hrows & Hm & _ & Hd & _).
    + vm_compute. discriminate.
    + exists rm, rd. split; [exact Hrows|]. split; [exact Hm|exact Hd].
Defined.

Lemma aggregators_leave_input_unchanged_witness :
  ∃ r σ', compute_percent 1%positive "Target" {[ 1%positive := missing_target_df ]}
          = Ok (r, σ')
        ∧ σ' !! 1%positive = Some missing_target_df
        ∧ ({[ 1%positive := missing_target_df ]} : store) !! r = None.
Proof.
  destruct (aggregators_leave_input_unchanged {[ 1%positive := missing_target_df ]}
              1%positive missing_target_df "Target") as [Hp _].
  - apply lookup_singleton_eq.
  - eexists _, _. split.
    + apply compute_percent_run; [apply lookup_singleton_eq|..];
        apply missing_target_df_categorized.
    + edestruct Hp as (H1 & H2 & _).
      * apply compute_percent_run; [apply lookup_singleton_eq|..];
          apply missing_target_df_categorized.
      * split; [exact H1|exact H2].
Defined.

(** ** Rows without an education level *)

Lemma row_key_missing (keys : list string) (r : row) (c : string) :
  c ∈ keys → isna (cell r c) = true → row_key keys r = None.
Proof.
  unfold row_key. induction keys as [|c' keys IH]; intros Hc Hna.
  - by apply elem_of_nil in Hc.
  - change (mapM ?f (c' :: keys)) with (x ← f c'; k ← mapM f keys; mret (x :: k)).
    apply elem_of_cons in Hc as [<-|Hc].
    + destruct (cell r c); done.
    + rewrite (IH Hc Hna). by destruct (key_of (cell r c')).
Qed.

Lemma row_key_present (keys : list string) (r : row) (c : string) (k : list value) :
  c ∈ keys → row_key keys r = Some k → isna (cell r c) = false.
Proof.
  intros Hc Hk. destruct (isna (cell r c)) eqn:E; [|done].
  by rewrite (row_key_missing keys r c Hc E) in Hk.
Qed.

Lemma group_keys_drop (T : DataFrame) (hdr : list (string * dtype)) :
  "Education Level" ∈ hdr.*1 →
  group_keys (drop_unlabelled T) hdr = group_keys T hdr.
Proof.
  intros Hc. unfold group_keys, drop_unlabelled, with_present. cbn [rows].
  rewrite omap_filter_keep; [done|].
  intros ir _ Hna. apply (row_key_missing _ _ "Education Level" Hc).
  by destruct (isna (cell ir.2 "Education Level")).
Qed.

Lemma group_rows_drop (T : DataFrame) (keys : list string) (k : list value) :
  "Education Level" ∈ keys →
  group_rows (drop_unlabelled T) keys k = group_rows T keys k.
Proof.
  intros Hc. unfold group_rows, drop_unlabelled, with_present. cbn [rows].
  rewrite list_filter_filter. apply filter_ext_in. intros ir _. split; [tauto|].
  intros Hk. split; [done|]. by eapply row_key_present.
Qed.

Lemma mapM_lookup_dtype_names (T : DataFrame) (cs : list string)
    (hdr : list (string * dtype)) :
  mapM (lookup_dtype T) cs = Ok hdr → hdr.*1 = cs.
Proof.
  revert hdr. induction cs as [|c cs IH]; intros hdr.
  - by intros [= <-].
  - change (mapM ?f (c :: cs)) with (x ← f c; k ← mapM f cs; mret (x :: k)).
    destruct (lookup_dtype T c) as [x|e] eqn:E; [|by rewrite bind_Err].
    rewrite bind_Ok.
    destruct (mapM (lookup_dtype T) cs) as [hdr'|]; [|by rewrite bind_Err].
    rewrite bind_Ok. intros [= <-]. cbn. rewrite (IH hdr') by done. f_equal.
    unfold lookup_dtype in E. destruct (col_dtype T c); by simplify_eq.
Qed.

Lemma mapM_result_ext {A B} (f g : A → result B) (l : list A) :
  (∀ x, x ∈ l → f x = g x) → mapM f l = mapM g l.
Proof.
  induction l as [|x l IH]; intros Hfg; [done|].
  change (mapM f (x :: l)) with (y ← f x; k ← mapM f l; mret (y :: k)).
  change (mapM g (x :: l)) with (y ← g x; k ← mapM g l; mret (y :: k)).
  rewrite (Hfg x) by (by left). rewrite IH; [done|].
  intros y Hy. apply Hfg. by right.
Qed.

Lemma groupby_size_drop (T : DataFrame) (keys : list string) (name : string) :
  "Education Level" ∈ keys →
  groupby_size (drop_unlabelled T) keys name = groupby_size T keys name.
Proof.
  intros Hc. unfold groupby_size.
  change (lookup_dtype (drop_unlabelled T)) with (lookup_dtype T).
  destruct (mapM (lookup_dtype T) keys) as [hdr|e] eqn:Eh; [|done].
  rewrite !bind_Ok. destruct (decide (NoDup keys ∧ name ∉ keys)); [|done].
  rewrite group_keys_drop by by rewrite (mapM_lookup_dtype_names T keys hdr Eh).
  do 2 f_equal. apply imap_ext. intros i k _.
  by rewrite group_rows_drop.
Qed.

Lemma groupby_agg_drop (T : DataFrame) (keys : list string)
    (aggs : list (string * (string * aggfunc))) :
  "Education Level" ∈ keys →
  groupby_agg (drop_unlabelled T) keys aggs = groupby_agg T keys aggs.
Proof.
  intros Hc. unfold groupby_agg.
  change (lookup_dtype (drop_unlabelled T)) with (lookup_dtype T).
  destruct (mapM (lookup_dtype T) keys) as [hdr|e] eqn:Eh; [|done].
  rewrite !bind_Ok.
  destruct (mapM _ aggs) as [hdr2|e]; [|done].
  rewrite !bind_Ok.
  destruct (decide (NoDup keys ∧ Forall (λ a, a.1 ∉ keys) aggs)); [|done].
  rewrite group_keys_drop by by rewrite (mapM_lookup_dtype_names T keys hdr Eh).
  f_equal. apply mapM_result_ext. intros k0 _.
  f_equal. apply mapM_result_ext. intros ag _.
  by rewrite group_rows_drop.
Qed.

Lemma result_table_compute_percent (σ : store) (l : loc) (T : DataFrame) (tc : string) :
  result_table (compute_percent l tc) (<[l:=T]> σ) = percent_of T tc.
Proof.
  unfold result_table.
  rewrite (compute_percent_pure _ l T tc) by apply lookup_insert_eq.
  destruct (percent_of T tc) as [R|e]; [|done]. by rewrite lookup_insert_eq.
Qed.

Lemma result_table_compute_summary_stats (σ : store) (l : loc) (T : DataFrame)
    (vc : string) :
  result_table (compute_summary_stats l vc) (<[l:=T]> σ) = summary_of T vc.
Proof.
  unfold result_table, summary_of.
  rewrite (compute_summary_stats_pure _ l T vc) by apply lookup_insert_eq.
  destruct (groupby_agg T _ _) as [grouped|e]; [|done]. cbv zeta. rewrite bind_Ok.
  destruct (summary_long_of grouped vc) as [R|e]; [|done]. by rewrite lookup_insert_eq.
Qed.

Lemma percent_of_drop (T : DataFrame) (tc : string) :
  percent_of (drop_unlabelled T) tc = percent_of T tc.
Proof.
  unfold percent_of. rewrite groupby_size_drop; [done|].
  right. by left.
Qed.

Lemma summary_of_drop (T : DataFrame) (vc : string) :
  summary_of (drop_unlabelled T) vc = summary_of T vc.
Proof.
  unfold summary_of. rewrite groupby_agg_drop; [done|].
  right. by left.
Qed.

(** C5. A code without an entry in the label map raises no error:
    [map_and_order_edu] succeeds on every table that has the code
    column (for an order list naming each label once) and gives each
    row with such a code the missing marker in the label column.  Rows
    whose education level is the missing marker belong to no group of
    [compute_percent] or [compute_summary_stats], and both return
    exactly what they return on the table without these rows, so the
    rows enter no count, percentage or summary statistic. *)
Theorem unmapped_codes_are_missing_and_ungrouped (σ : store) (l : loc) (T : DataFrame)
    (edu_col label_col : string) (labels : gmap Z string) (order : list string) :
  σ !! l = Some T → has_col T edu_col → NoDup order →
  (∃ T', map_and_order_edu l edu_col label_col (Some labels) (Some order) σ
         = Ok (l, <[l:=T']> σ)
       ∧ ∀ i ir, rows T !! i = Some ir →
           code_of (cell ir.2 edu_col) ≫= (labels !!.) = None →
           ∃ r', rows T' !! i = Some (ir.1, r') ∧ cell r' label_col = VNaN)
  ∧ (∀ (T1 : DataFrame) (keys : list string) (k : list value) (ir : Z * row),
       "Education Level" ∈ keys → ir ∈ group_rows T1 keys k →
       isna (cell ir.2 "Education Level") = false)
  ∧ (∀ (σ1 : store) (l1 : loc) (T1 : DataFrame) (c : string),
       result_table (compute_percent l1 c) (<[l1:=T1]> σ1)
       = result_table (compute_percent l1 c) (<[l1:=drop_unlabelled T1]> σ1)
       ∧ result_table (compute_summary_stats l1 c) (<[l1:=T1]> σ1)
         = result_table (compute_summary_stats l1 c) (<[l1:=drop_unlabelled T1]> σ1)).
Proof.
  intros Hl Hc Hnd. split; [|split].
  - eexists. split; [by apply map_and_order_edu_run|].
    intros i ir Hi Hnone.
    destruct (categorized_table_cell T edu_col label_col labels order i ir Hi)
      as (r' & Hr' & Hcell & _).
    exists r'. split; [done|]. rewrite Hcell. unfold label_of, int_dict.
    by rewrite Hnone.
  - intros T1 keys k ir Hin [Hk _]%list_elem_of_filter.
    by eapply row_key_present.
  - intros σ1 l1 T1 c.
    rewrite !result_table_compute_percent, !result_table_compute_summary_stats.
    by rewrite percent_of_drop, summary_of_drop.
Qed.

Lemma unmapped_codes_are_missing_and_ungrouped_witness :
  ∃ T', map_and_order_edu 1%positive "Edu_code" "Education Level"
          (Some test_labels) (Some test_order) {[ 1%positive := unmapped_code_df ]}
        = Ok (1%positive, <[1%positive:=T']> {[ 1%positive := unmapped_code_df ]})
      ∧ ∃ r', rows T' !! 1 = Some (1%Z, r') ∧ cell r' "Education Level" = VNaN.
Proof.
  destruct (unmapped_codes_are_missing_and_ungrouped {[ 1%positive := unmapped_code_df ]}
              1%positive unmapped_code_df "Edu_code" "Education Level"
              test_labels test_order) as ((T' & Hrun & Hrows) & _).
  - apply lookup_singleton_eq.
  - unfold has_col. cbn. repeat constructor.
  - apply test_order_NoDup.
  - exists T'. split; [exact Hrun|].
    apply (Hrows 1 (1%Z, {[ "Edu_code" := VNum 9 ]})); reflexivity.
Defined.

(** ** The scenarios of the specification and of the test suite *)

(** Filtering the fixture for codes (2, 2) yields exactly its first row. *)
Example filter_scenario :
  filter_by_parent_edu dummy_df (VNum 2) (Some (VNum 2))
  = Ok (mkDF (columns dummy_df) [wide_row 0 2 2 "Graduate" 20]).
Proof. vm_compute. reflexivity. Qed.

(** The long table of the fixture has 8 rows, 4 per parent. *)
Example make_long_scenario :
  (λ L, (nrows L,
         length (filter (λ ir, cell ir.2 "Parent" = VStr "Mother") (rows L)),
         length (filter (λ ir, cell ir.2 "Parent" = VStr "Father") (rows L))))
    <$> make_long dummy_df "Age" parent_cols_default
  = Ok (8, 4, 4).
Proof. vm_compute. reflexivity. Qed.

(** Reshaping the fixture on [Target], categorizing and computing the
    percentages: the group (Mother, Elementary) has the single row
    Graduate with count 2 and percentage 100. *)
Example percent_scenario :
  (L ← make_long dummy_df "Target" parent_cols_default;
   match (l ← new_frame L;
          l' ← map_and_order_edu l "Edu_code" "Education Level"
                 (Some test_labels) (Some test_order);
          compute_percent l' "Target") ∅ with
   | Ok (r, σ) =>
       match σ !! r with
       | Some R =>
           Ok ((λ ir : Z * row,
                  (cell ir.2 "Target", cell ir.2 "Count", cell ir.2 "Percent"))
                 <$> group_rows R group_cols [VStr "Mother"; VStr "Elementary"])
       | None => Err TypeError
       end
   | Err e => Err e
   end)
  = Ok [(VStr "Graduate", VNum 2, VNum 100)].
Proof. vm_compute. reflexivity. Qed.

(** * Further properties of the operations *)

(** ** Selector *)

Lemma getitem_Err (T : DataFrame) (c : string) :
  ¬ has_col T c → getitem T c = Err (KeyError c).
Proof.
  intros Hc. unfold getitem. destruct (col_dtype T c) as [d|] eqn:E; [|done].
  exfalso. by apply Hc, (col_dtype_has_col T c d).
Qed.

(** X1. A filter whose column is absent raises [KeyError] for that
    column; [filter_by_parent_edu] looks the mother's column up first,
    so when both are absent the error names [Mother_edu_code]. *)
Theorem filters_report_missing_column (T : DataFrame) (m : value) (f : option value)
    (parent : string) (code : value) :
  (¬ has_col T "Mother_edu_code" →
     filter_by_parent_edu T m f = Err (KeyError "Mother_edu_code"))
  ∧ (has_col T "Mother_edu_code" → ¬ has_col T "Father_edu_code" →
     filter_by_parent_edu T m f = Err (KeyError "Father_edu_code"))
  ∧ (¬ has_col T parent → filter_one_parent T parent code = Err (KeyError parent)).
Proof.
  split; [|split].
  - intros Hm. unfold filter_by_parent_edu. by rewrite (getitem_Err T _ Hm).
  - intros (d & _ & Hm)%getitem_Ok Hf. unfold filter_by_parent_edu.
    by rewrite Hm, bind_Ok, (getitem_Err T _ Hf).
  - intros Hp. unfold filter_one_parent. by rewrite (getitem_Err T _ Hp).
Qed.

Lemma edu_code_df_no_parent_columns :
  ¬ has_col edu_code_df "Mother_edu_code" ∧ ¬ has_col edu_code_df "Father_edu_code".
Proof.
  split; unfold has_col; cbn; intros [?|?%elem_of_nil]%elem_of_cons; done.
Defined.

Lemma filters_report_missing_column_witness :
  filter_by_parent_edu edu_code_df (VNum 2) None = Err (KeyError "Mother_edu_code")
  ∧ filter_one_parent edu_code_df "Father_edu_code" (VNum 2)
    = Err (KeyError "Father_edu_code").
Proof.
  destruct (filters_report_missing_column edu_code_df (VNum 2) None
              "Father_edu_code" (VNum 2)) as (H1 & _ & H3).
  split; [apply H1|apply H3]; apply edu_code_df_no_parent_columns.
Defined.

(** X2. [filter_one_parent] returns exactly the rows whose cell in the
    named column equals the code, with the header unchanged; the other
    parent's column plays no part. *)
Theorem filter_one_parent_exact (T : DataFrame) (parent : string) (code : value) :
  has_col T parent →
  ∃ R, filter_one_parent T parent code = Ok R
     ∧ columns R = columns T
     ∧ ∀ ir, ir ∈ rows R ↔ ir ∈ rows T ∧ value_eqb (cell ir.2 parent) code = true.
Proof.
  intros Hp. eexists. split; [by apply filter_one_parent_rows|].
  split; [done|]. intros ir. cbn [rows]. rewrite list_elem_of_filter. tauto.
Qed.

Lemma filter_one_parent_exact_witness :
  ∃ R, filter_one_parent dummy_df "Father_edu_code" (VNum 5) = Ok R
     ∧ columns R = columns dummy_df
     ∧ ∀ ir, ir ∈ rows R ↔
         ir ∈ rows dummy_df ∧ value_eqb (cell ir.2 "Father_edu_code") (VNum 5) = true.
Proof.
  apply (filter_one_parent_exact dummy_df "Father_edu_code" (VNum 5)).
  apply dummy_df_wide.
Defined.

(** X3. Filtering by both parents is filtering by the mother's code and
    then by the father's code, errors included: the two-parent filter is
    the composition of two one-parent filters. *)
Theorem filter_by_parent_edu_composes (T : DataFrame) (m : value) (f : option value) :
  filter_by_parent_edu T m f
  = R ← filter_one_parent T "Mother_edu_code" m;
    filter_one_parent R "Father_edu_code" (default m f).
Proof.
  assert (∀ f', filter_by_parent_edu T m (Some f')
                = R ← filter_one_parent T "Mother_edu_code" m;
                  filter_one_parent R "Father_edu_code" f') as H.
  { intros f'.
    destruct (decide (has_col T "Mother_edu_code")) as [Hm|Hm]; cycle 1.
    { unfold filter_by_parent_edu, filter_one_parent.
      by rewrite (getitem_Err T _ Hm). }
    rewrite (filter_one_parent_rows T _ m Hm), bind_Ok.
    destruct (decide (has_col T "Father_edu_code")) as [Hf|Hf].
    - rewrite (filter_by_parent_edu_rows T m f' Hm Hf).
      rewrite filter_one_parent_rows by done. cbn [columns rows]. do 2 f_equal.
      rewrite list_filter_filter. apply filter_ext_in. intros ir _.
      rewrite andb_true_iff. tauto.
    - destruct (getitem_Ok T _ Hm) as (d & _ & Hgm).
      unfold filter_by_parent_edu, filter_one_parent.
      rewrite Hgm, bind_Ok, (getitem_Err T _ Hf).
      rewrite getitem_Err; [done|]. exact Hf. }
  destruct f as [f'|]; [apply H|apply (H m)].
Qed.

(** X4. Both filters are idempotent: filtering a filter's result again
    with the same codes returns that result unchanged. *)
Theorem filters_idempotent (T R : DataFrame) (m : value) (f : option value)
    (parent : string) (code : value) :
  (filter_by_parent_edu T m f = Ok R → filter_by_parent_edu R m f = Ok R)
  ∧ (filter_one_parent T parent code = Ok R → filter_one_parent R parent code = Ok R).
Proof.
  split.
  - assert (∀ f', filter_by_parent_edu T m (Some f') = Ok R →
                  filter_by_parent_edu R m (Some f') = Ok R) as H.
    { intros f' HR.
      destruct (decide (has_col T "Mother_edu_code")) as [Hm|Hm]; cycle 1.
      { unfold filter_by_parent_edu in HR. by rewrite (getitem_Err T _ Hm) in HR. }
      destruct (decide (has_col T "Father_edu_code")) as [Hf|Hf]; cycle 1.
      { destruct (getitem_Ok T _ Hm) as (d & _ & Hgm).
        unfold filter_by_parent_edu in HR.
        by rewrite Hgm, bind_Ok, (getitem_Err T _ Hf) in HR. }
      rewrite (filter_by_parent_edu_rows T m f' Hm Hf) in HR. injection HR as <-.
      rewrite filter_by_parent_edu_rows by done. cbn [columns rows]. do 2 f_equal.
      apply list_filter_filter_l. tauto. }
    destruct f as [f'|]; [apply H|apply (H m)].
  - intros HR.
    destruct (decide (has_col T parent)) as [Hp|Hp]; cycle 1.
    { unfold filter_one_parent in HR. by rewrite (getitem_Err T _ Hp) in HR. }
    rewrite (filter_one_parent_rows T parent code Hp) in HR. injection HR as <-.
    rewrite filter_one_parent_rows by done. cbn [columns rows]. do 2 f_equal.
    apply list_filter_filter_l. tauto.
Qed.

Lemma filters_idempotent_witness :
  ∃ R, filter_by_parent_edu dummy_df (VNum 2) None = Ok R
     ∧ filter_by_parent_edu R (VNum 2) None = Ok R.
Proof.
  destruct (filter_by_parent_edu dummy_df (VNum 2) None) as [R|e] eqn:E;
    [|vm_compute in E; discriminate E].
  exists R. split; [reflexivity|].
  by apply (filters_idempotent dummy_df R (VNum 2) None "Mother_edu_code" (VNum 2)).
Defined.




(** ** Reshaper *)

Lemma lookup_dtype_Err (T : DataFrame) (c : string) :
  ¬ has_col T c → lookup_dtype T c = Err (KeyError c).
Proof.
  intros Hc. unfold lookup_dtype. destruct (col_dtype T c) as [d|] eqn:E; [|done].
  exfalso. by apply Hc, (col_dtype_has_col T c d).
Qed.

Lemma lookup_dtype_Ok (T : DataFrame) (c : string) :
  has_col T c → ∃ d, lookup_dtype T c = Ok (c, d).
Proof.
  intros [d Hd]%col_dtype_is_Some. exists d. unfold lookup_dtype. by rewrite Hd.
Qed.

Lemma getitem_cols_Err_first (T : DataFrame) (c : string) (cs : list string) :
  ¬ has_col T c → getitem_cols T (c :: cs) = Err (KeyError c).
Proof.
  intros Hc. unfold getitem_cols.
  change (mapM ?f (c :: cs)) with (x ← f c; k ← mapM f cs; mret (x :: k)).
  by rewrite (lookup_dtype_Err T c Hc).
Qed.

Lemma getitem_cols_Err_second (T : DataFrame) (c1 c2 : string) :
  has_col T c1 → ¬ has_col T c2 → getitem_cols T [c1; c2] = Err (KeyError c2).
Proof.
  intros [d1 H1]%lookup_dtype_Ok Hc. unfold getitem_cols.
  change (mapM ?f [c1; c2]) with (x ← f c1; k ← (y ← f c2; Ok [y]); mret (x :: k)).
  by rewrite H1, bind_Ok, (lookup_dtype_Err T c2 Hc).
Qed.

(** X6. The errors of [make_long]: with fewer than two parent columns
    given it raises [IndexError] (with one, only after the mother's
    half has been built); a column that is absent raises [KeyError],
    the value column before the mother's column before the father's. *)
Theorem make_long_errors (T : DataFrame) (v p0 p1 : string) (rest : list string) :
  make_long T v [] = Err IndexError
  ∧ (has_col T v → has_col T p0 → make_long T v [p0] = Err IndexError)
  ∧ (¬ has_col T v → make_long T v (p0 :: rest) = Err (KeyError v))
  ∧ (has_col T v → ¬ has_col T p0 → make_long T v (p0 :: rest) = Err (KeyError p0))
  ∧ (has_col T v → has_col T p0 → ¬ has_col T p1 →
     make_long T v (p0 :: p1 :: rest) = Err (KeyError p1)).
Proof.
  split; [done|]. split; [|split; [|split]].
  - intros Hv H0.
    destruct (getitem_cols_Ok T [v; p0]) as [s Hs]; [by repeat constructor|].
    unfold make_long, list_index. cbn [lookup list_lookup].
    by rewrite bind_Ok, Hs, bind_Ok.
  - intros Hv. unfold make_long, list_index. cbn [lookup list_lookup].
    by rewrite bind_Ok, (getitem_cols_Err_first T v [p0] Hv).
  - intros Hv H0. unfold make_long, list_index. cbn [lookup list_lookup].
    by rewrite bind_Ok, (getitem_cols_Err_second T v p0 Hv H0).
  - intros Hv H0 H1.
    destruct (getitem_cols_Ok T [v; p0]) as [s Hs]; [by repeat constructor|].
    unfold make_long, list_index. cbn [lookup list_lookup].
    rewrite bind_Ok, Hs, bind_Ok. cbv zeta.
    by rewrite bind_Ok, (getitem_cols_Err_second T v p1 Hv H1).
Qed.

Lemma make_long_errors_witness :
  make_long dummy_df "Age" ["Mother_edu_code"] = Err IndexError
  ∧ make_long dummy_df "Income" parent_cols_default = Err (KeyError "Income").
Proof.
  destruct (make_long_errors dummy_df "Age" "Mother_edu_code" "Father_edu_code" [])
    as (_ & H1 & _).
  destruct (make_long_errors dummy_df "Income" "Mother_edu_code" "Father_edu_code"
              ["Father_edu_code"]) as (_ & _ & H2 & _).
  split.
  - apply H1; [apply dummy_df_Age|apply dummy_df_wide].
  - apply H2. unfold has_col. cbn. intros Hin.
    repeat (apply elem_of_cons in Hin as [?|Hin]; [done|]).
    by apply elem_of_nil in Hin.
Defined.

(** What [make_long] returns for any two parent columns. *)
Lemma make_long_rows_general (T : DataFrame) (v p0 p1 : string) (rest : list string) :
  has_col T v → has_col T p0 → has_col T p1 → v ≠ p0 → v ≠ p1 →
  ∃ L, make_long T v (p0 :: p1 :: rest) = Ok L
       ∧ col_names L = long_names v
       ∧ rows L = (long_record p0 "Mother" v <$> rows T)
                  ++ (long_record p1 "Father" v <$> rows T).
Proof.
  intros Hv H0 H1 Hv0 Hv1.
  destruct (getitem_cols_Ok T [v; p0]) as [sm Hsm]; [by repeat constructor|].
  destruct (getitem_cols_Ok T [v; p1]) as [sf Hsf]; [by repeat constructor|].
  destruct (half_names T v p0 "Mother" sm) as [Hnm Hrm]; [done..|].
  destruct (half_names T v p1 "Father" sf) as [Hnf Hrf]; [done..|].
  unfold make_long, list_index. cbn [lookup list_lookup].
  rewrite !bind_Ok, Hsm, bind_Ok. cbv zeta. rewrite bind_Ok, Hsf, bind_Ok.
  unfold concat. rewrite decide_True by by rewrite Hnm, Hnf.
  eexists. split; [reflexivity|]. split.
  - unfold col_names in *. cbn [columns]. rewrite <- Hnm.
    assert (length (columns (assign (rename sm p0 "Edu_code") "Parent" (VStr "Mother")))
            = length (columns (assign (rename sf p1 "Edu_code") "Parent" (VStr "Father"))))
      as Hlen.
    { rewrite <- (length_fmap fst),
        <- (length_fmap fst (columns (assign (rename sf _ _) _ _))).
      by rewrite Hnm, Hnf. }
    revert Hlen.
    generalize (columns (assign (rename sm p0 "Edu_code") "Parent" (VStr "Mother"))).
    generalize (columns (assign (rename sf p1 "Edu_code") "Parent" (VStr "Father"))).
    intros b a. revert b. induction a as [|x a IH]; intros [|y b] Hl; try done.
    cbn. f_equal. apply IH. cbn in Hl. lia.
  - cbn [rows]. by rewrite Hrm, Hrf.
Qed.

(** X7. [make_long] keeps the index labels of the wide table and does
    not renumber: the index of the long table is the wide index followed
    by the wide index again, so every label occurs twice as often as in
    the wide table. *)
Theorem make_long_repeats_index (T : DataFrame) (v : string) :
  wide_table T → value_column T v →
  ∃ L, make_long T v parent_cols_default = Ok L
     ∧ (rows L).*1 = (rows T).*1 ++ (rows T).*1.
Proof.
  intros [Hm Hf] [Hv Hne].
  assert (v ≠ "Mother_edu_code" ∧ v ≠ "Father_edu_code") as [Hvm Hvf].
  { split; intros ->; apply Hne; repeat constructor. }
  destruct (make_long_rows_general T v "Mother_edu_code" "Father_edu_code" [])
    as (L & HL & _ & Hrows); [done..|].
  exists L. split; [exact HL|].
  rewrite Hrows, fmap_app, <- !list_fmap_compose. done.
Qed.

Lemma make_long_repeats_index_witness :
  ∃ L, make_long dummy_df "Age" parent_cols_default = Ok L
     ∧ (rows L).*1 = [0; 1; 2; 3; 0; 1; 2; 3]%Z.
Proof.
  destruct (make_long_repeats_index dummy_df "Age" dummy_df_wide dummy_df_Age)
    as (L & HL & Hidx).
  exists L. split; [exact HL|exact Hidx].
Defined.

(** X8. [make_long] tags by position, not by name: for any parent
    columns given, rows built from the first are tagged Mother and rows
    built from the second are tagged Father, entries after the second
    are ignored, and the two columns may even be the same.  The long
    table has [2 n] rows; row [i] carries the first column's cell as
    [Edu_code], row [n + i] the second's. *)
Theorem make_long_tags_by_position (T : DataFrame) (v p0 p1 : string)
    (rest : list string) :
  has_col T v → has_col T p0 → has_col T p1 →
  v ∉ [p0; p1; "Edu_code"] → p0 ≠ "Edu_code" → p1 ≠ "Edu_code" →
  ∃ L, make_long T v (p0 :: p1 :: rest) = Ok L
     ∧ make_long T v [p0; p1] = Ok L
     ∧ nrows L = 2 * nrows T
     ∧ ∀ i w, rows T !! i = Some w →
         ∃ rm rf, rows L !! i = Some rm ∧ rows L !! (nrows T + i) = Some rf
           ∧ cell rm.2 "Parent" = VStr "Mother" ∧ cell rm.2 "Edu_code" = cell w.2 p0
           ∧ cell rf.2 "Parent" = VStr "Father" ∧ cell rf.2 "Edu_code" = cell w.2 p1.
Proof.
  intros Hv H0 H1 Hne Hp0 Hp1.
  assert (v ≠ p0 ∧ v ≠ p1 ∧ v ≠ "Edu_code") as (Hv0 & Hv1 & Hve).
  { repeat split; intros ->; apply Hne; repeat constructor. }
  destruct (make_long_rows_general T v p0 p1 rest) as (L & HL & _ & Hrows); [done..|].
  destruct (make_long_rows_general T v p0 p1 []) as (L' & HL' & _ & Hrows'); [done..|].
  assert (L' = L) as ->.
  { unfold make_long, list_index in HL, HL'. cbn [lookup list_lookup] in HL, HL'.
    rewrite HL in HL'. by injection HL'. }
  exists L. split; [done|]. split; [done|]. unfold nrows. rewrite Hrows.
  split; [rewrite length_app, !length_fmap; lia|].
  intros i w Hi.
  exists (long_record p0 "Mother" v w), (long_record p1 "Father" v w).
  split.
  { rewrite lookup_app_l by (rewrite length_fmap; by eapply lookup_lt_Some).
    by rewrite list_lookup_fmap, Hi. }
  split.
  { rewrite lookup_app_r by (rewrite length_fmap; lia).
    rewrite length_fmap.
    replace (length (rows T) + i - length (rows T)) with i by lia.
    by rewrite list_lookup_fmap, Hi. }
  by rewrite !long_record_parent, !long_record_edu_code.
Qed.

Lemma make_long_tags_by_position_witness :
  ∃ L, make_long dummy_df "Age" ["Father_edu_code"; "Father_edu_code"; "Target"] = Ok L
     ∧ nrows L = 8.
Proof.
  destruct (make_long_tags_by_position dummy_df "Age" "Father_edu_code"
              "Father_edu_code" ["Target"]) as (L & HL & _ & Hn & _);
    try apply dummy_df_wide; try apply dummy_df_Age; try done.
  - intros Hin. repeat (apply elem_of_cons in Hin as [?|Hin]; [done|]).
    by apply elem_of_nil in Hin.
  - exists L. split; [exact HL|exact Hn].
Defined.

(** ** Categorizer *)

Lemma set_col_names (hdr : list (string * dtype)) (c : string) (d : dtype) :
  (set_col hdr c d).*1 = if decide (c ∈ hdr.*1) then hdr.*1 else hdr.*1 ++ [c].
Proof.
  unfold set_col. destruct (decide (c ∈ hdr.*1)) as [Hc|Hc].
  - clear Hc. induction hdr as [|[c' d'] hdr IH]; [done|].
    cbn. destruct (decide (c' = c)) as [->|Hne]; cbn; by rewrite IH.
  - by rewrite fmap_app.
Qed.

Lemma set_col_set_col (hdr : list (string * dtype)) (c : string) (d1 d2 : dtype) :
  set_col (set_col hdr c d1) c d2 = set_col hdr c d2.
Proof.
  assert (c ∈ (set_col hdr c d1).*1) as Hin.
  { rewrite set_col_names. destruct (decide (c ∈ hdr.*1)); [done|].
    apply elem_of_app. right. by left. }
  unfold set_col at 1. rewrite decide_True by done.
  unfold set_col. destruct (decide (c ∈ hdr.*1)) as [Hc|Hc].
  - rewrite <- list_fmap_compose. apply list_fmap_ext. intros i [c' d'] _. cbn.
    destruct (decide (c' = c)) as [->|Hne]; cbn.
    + by rewrite decide_True.
    + by rewrite decide_False.
  - rewrite fmap_app. cbn. rewrite decide_True by done. f_equal.
    rewrite <- (list_fmap_id hdr) at 2. apply list_fmap_ext. intros i [c' d'] Hi. cbn.
    rewrite decide_False; [done|]. intros ->. apply Hc.
    apply list_elem_of_fmap. exists (c, d'). split; [done|].
    by eapply list_elem_of_lookup_2.
Qed.

Lemma categorized_table_names (T : DataFrame) (edu_col label_col : string)
    (labels : gmap Z string) (order : list string) :
  col_names (categorized_table T edu_col label_col labels order)
  = if decide (label_col ∈ col_names T) then col_names T else col_names T ++ [label_col].
Proof.
  unfold col_names, categorized_table. cbn [columns].
  by rewrite set_col_set_col, set_col_names.
Qed.

(** X9. [map_and_order_edu] works in place: it returns the very object
    it was given and allocates nothing; afterwards that object has the
    label column (a new column goes last, an existing one keeps its
    place and is overwritten), while the index labels, the number of
    rows, every cell of every other column, and every other object are
    as before. *)
Theorem map_and_order_edu_in_place (σ : store) (l : loc) (T : DataFrame)
    (edu_col label_col : string) (labels : gmap Z string) (order : list string) :
  σ !! l = Some T → has_col T edu_col → NoDup order →
  ∃ T', map_and_order_edu l edu_col label_col (Some labels) (Some order) σ
        = Ok (l, <[l:=T']> σ)
      ∧ dom (<[l:=T']> σ) = dom σ
      ∧ (∀ l', l' ≠ l → <[l:=T']> σ !! l' = σ !! l')
      ∧ col_names T' = (if decide (label_col ∈ col_names T) then col_names T
                        else col_names T ++ [label_col])
      ∧ (rows T').*1 = (rows T).*1
      ∧ ∀ i ir, rows T !! i = Some ir →
          ∃ r', rows T' !! i = Some (ir.1, r')
                ∧ ∀ c, c ≠ label_col → r' !! c = ir.2 !! c.
Proof.
  intros Hl Hc Hnd. eexists. split; [by apply map_and_order_edu_run|].
  split; [|split; [|split; [|split]]].
  - apply dom_insert_lookup_L. eauto.
  - intros l' Hne. by rewrite lookup_insert_ne.
  - apply categorized_table_names.
  - unfold categorized_table. cbn [rows]. by rewrite <- list_fmap_compose.
  - intros i ir Hi.
    destruct (categorized_table_cell T edu_col label_col labels order i ir Hi)
      as (r' & Hr' & _ & Hother).
    by exists r'.
Qed.

Lemma map_and_order_edu_in_place_witness :
  ∃ T', map_and_order_edu 1%positive "Edu_code" "Education Level"
          (Some test_labels) (Some test_order) {[ 1%positive := edu_code_df ]}
        = Ok (1%positive, <[1%positive:=T']> {[ 1%positive := edu_code_df ]})
      ∧ col_names T' = ["Edu_code"; "Education Level"].
Proof.
  destruct (map_and_order_edu_in_place {[ 1%positive := edu_code_df ]} 1%positive
              edu_code_df "Edu_code" "Education Level" test_labels test_order)
    as (T' & Hrun & _ & _ & Hnames & _).
  - apply lookup_singleton_eq.
  - unfold has_col. cbn. repeat constructor.
  - apply test_order_NoDup.
  - exists T'. split; [exact Hrun|exact Hnames].
Defined.

(** X10. Categorizing twice is categorizing once: when the label column
    is not the code column itself, running [map_and_order_edu] again on
    its own result, with the same arguments, leaves the store as the
    first run left it. *)
Theorem map_and_order_edu_idempotent (σ : store) (l : loc) (T : DataFrame)
    (edu_col label_col : string) (labels : gmap Z string) (order : list string) :
  σ !! l = Some T → has_col T edu_col → NoDup order → edu_col ≠ label_col →
  (l' ← map_and_order_edu l edu_col label_col (Some labels) (Some order);
   map_and_order_edu l' edu_col label_col (Some labels) (Some order)) σ
  = map_and_order_edu l edu_col label_col (Some labels) (Some order) σ.
Proof.
  intros Hl Hc Hnd Hne.
  rewrite (Py_bind_Ok _ _ _ _ _ (map_and_order_edu_run σ l T _ _ _ _ Hl Hc Hnd)).
  rewrite (map_and_order_edu_run σ l T _ _ _ _ Hl Hc Hnd).
  rewrite (map_and_order_edu_run _ l (categorized_table T edu_col label_col labels order));
    [|apply lookup_insert_eq| |done].
  - rewrite insert_insert_eq. do 3 f_equal.
    unfold categorized_table. cbn [columns rows]. f_equal.
    + by rewrite !set_col_set_col.
    + rewrite <- list_fmap_compose. apply list_fmap_ext. intros i [ix r] _. cbn.
      rewrite insert_insert_eq. do 3 f_equal.
      unfold cell. by rewrite lookup_insert_ne.
  - unfold categorized_table.
    apply (has_col_set_col _ (rows T)), (has_col_set_col _ (rows T)).
    by destruct T.
Qed.

Lemma map_and_order_edu_idempotent_witness :
  (l' ← map_and_order_edu 1%positive "Edu_code" "Education Level"
          (Some test_labels) (Some test_order);
   map_and_order_edu l' "Edu_code" "Education Level" (Some test_labels) (Some test_order))
    {[ 1%positive := edu_code_df ]}
  = map_and_order_edu 1%positive "Edu_code" "Education Level"
      (Some test_labels) (Some test_order) {[ 1%positive := edu_code_df ]}.
Proof.
  apply (map_and_order_edu_idempotent _ _ edu_code_df).
  - apply lookup_singleton_eq.
  - unfold has_col. cbn. repeat constructor.
  - apply test_order_NoDup.
  - done.
Defined.

Lemma code_of_integer (q : Q) (z : Z) : (q == inject_Z z)%Q → code_of (VNum q) = Some z.
Proof.
  intros Hq. unfold code_of.
  rewrite (Qred_complete _ _ Hq), inject_Z_Qred. cbn. by rewrite decide_True.
Qed.

(** X11. The label a row gets: a code cell numerically equal to a key
    [z] of the label map (an integer, or a float with that value) gets
    the label of [z] when that label is one of the categories, and the
    missing marker when it is not. *)
Theorem map_and_order_edu_labels (σ : store) (l : loc) (T : DataFrame)
    (edu_col label_col : string) (labels : gmap Z string) (order : list string) :
  σ !! l = Some T → has_col T edu_col → NoDup order →
  ∃ T', map_and_order_edu l edu_col label_col (Some labels) (Some order) σ
        = Ok (l, <[l:=T']> σ)
      ∧ ∀ i ir q z s, rows T !! i = Some ir →
          cell ir.2 edu_col = VNum q → (q == inject_Z z)%Q → labels !! z = Some s →
          ∃ r', rows T' !! i = Some (ir.1, r')
                ∧ (s ∈ order → cell r' label_col = VStr s)
                ∧ (s ∉ order → cell r' label_col = VNaN).
Proof.
  intros Hl Hc Hnd. eexists. split; [by apply map_and_order_edu_run|].
  intros i ir q z s Hi Hq Hz Hs.
  destruct (categorized_table_cell T edu_col label_col labels order i ir Hi)
    as (r' & Hr' & Hcell & _).
  exists r'. split; [done|]. rewrite Hcell, Hq. unfold label_of, int_dict.
  rewrite (code_of_integer q z Hz). cbn. rewrite Hs. cbn.
  split; intros Hin; [by rewrite decide_True|by rewrite decide_False].
Qed.

Lemma map_and_order_edu_labels_witness :
  ∃ T', map_and_order_edu 1%positive "Edu_code" "Education Level"
          (Some test_labels) (Some test_order) {[ 1%positive := edu_code_df ]}
        = Ok (1%positive, <[1%positive:=T']> {[ 1%positive := edu_code_df ]})
      ∧ ∃ r', rows T' !! 2 = Some (2%Z, r') ∧ cell r' "Education Level" = VStr "High".
Proof.
  destruct (map_and_order_edu_labels {[ 1%positive := edu_code_df ]} 1%positive
              edu_code_df "Edu_code" "Education Level" test_labels test_order)
    as (T' & Hrun & Hrows).
  - apply lookup_singleton_eq.
  - unfold has_col. cbn. repeat constructor.
  - apply test_order_NoDup.
  - exists T'. split; [exact Hrun|].
    destruct (Hrows 2 (2%Z, {[ "Edu_code" := VNum 5 ]}) 5%Q 5%Z "High")
      as (r' & Hr' & Hin & _); try reflexivity.
    exists r'. split; [exact Hr'|]. apply Hin.
    unfold test_order. repeat constructor.
Defined.

Lemma omap_fmap_compose {A B C} (f : B → option C) (g : A → B) (l : list A) :
  omap f (g <$> l) = omap (λ x, f (g x)) l.
Proof. induction l as [|x l IH]; [done|]. cbn. by rewrite IH. Qed.

Lemma omap_ext_in {A B} (f g : A → option B) (l : list A) :
  (∀ x, x ∈ l → f x = g x) → omap f l = omap g l.
Proof.
  induction l as [|x l IH]; intros Hfg; [done|].
  cbn. rewrite (Hfg x) by (by left). rewrite IH; [done|].
  intros y Hy. apply Hfg. by right.
Qed.

(** The run of [map_and_order_edu] with or without an order. *)
Lemma map_and_order_edu_run_opt (σ : store) (l : loc) (T : DataFrame)
    (edu_col label_col : string) (labels : gmap Z string) (order : option (list string)) :
  σ !! l = Some T → has_col T edu_col →
  NoDup (default (inferred_order T edu_col labels) order) →
  map_and_order_edu l edu_col label_col (Some labels) order σ
  = Ok (l, <[l:=categorized_table T edu_col label_col labels
                  (default (inferred_order T edu_col labels) order)]> σ).
Proof.
  intros Hl (d & Hd & Hget)%getitem_Ok Hnd.
  unfold map_and_order_edu.
  rewrite (Py_bind_Ok _ _ _ _ _ (deref_Ok _ _ _ Hl)).
  rewrite (Py_bind_Ok _ _ _ _ _ (lift_Ok _ _ _ Hget)).
  cbn [fmap option_fmap option_map series_map s_data].
  rewrite <- list_fmap_compose.
  set (g1 := λ ir : Z * row, default VNaN (int_dict labels (cell ir.2 edu_col))).
  erewrite (Py_bind_Ok (lift _)); [|by apply lift_Ok].
  erewrite (Py_bind_Ok (setitem _ _ _));
    [|eapply setitem_Ok; [exact Hl|apply (set_column_fmap T label_col Plain g1)]].
  set (T1 := mkDF (set_col (columns T) label_col Plain)
               ((λ ir, (ir.1, <[label_col:=g1 ir]> ir.2)) <$> rows T)).
  assert (<[l:=T1]> σ !! l = Some T1) as Hl1 by apply lookup_insert_eq.
  rewrite (Py_bind_Ok _ _ _ _ _ (deref_Ok _ _ _ Hl1)).
  assert (getitem T1 label_col
          = Ok (mkSeries Plain ((λ ir, (ir.1, cell ir.2 label_col)) <$> rows T1))) as Hget1.
  { unfold getitem, col_dtype. subst T1. cbn [columns]. by rewrite set_col_dtype. }
  rewrite (Py_bind_Ok _ _ _ _ _ (lift_Ok _ _ _ Hget1)).
  assert (match order with
          | Some cs => cs
          | None =>
              merge_sort str_le
                (remove_dups
                   (omap (λ iv : Z * value, str_of iv.2)
                      (s_data (mkSeries Plain
                                 ((λ ir : Z * row, (ir.1, cell ir.2 label_col)) <$> rows T1)))))
          end = default (inferred_order T edu_col labels) order) as Hcats.
  { destruct order as [cs|]; [done|]. cbn [default from_option id s_data].
    unfold inferred_order. do 2 f_equal. subst T1. cbn [rows].
    rewrite <- list_fmap_compose, omap_fmap_compose.
    apply omap_ext_in. intros [ix r] _. cbn.
    unfold cell at 1. by rewrite lookup_insert_eq. }
  unfold pd_Categorical. rewrite Hcats, decide_True by done. cbn [s_data].
  rewrite <- list_fmap_compose.
  erewrite (Py_bind_Ok (lift _)); [|by apply lift_Ok].
  erewrite (Py_bind_Ok (setitem _ _ _));
    [|eapply setitem_Ok; [exact Hl1|
       apply (set_column_fmap T1 label_col
                (Categorical (default (inferred_order T edu_col labels) order) true)
                (λ ir, match cell ir.2 label_col with
                       | VStr s =>
                           if decide (s ∈ default (inferred_order T edu_col labels) order)
                           then VStr s else VNaN
                       | _ => VNaN
                       end))]].
  unfold mret, Py_ret. rewrite insert_insert_eq. do 3 f_equal.
  unfold categorized_table. subst T1. cbn [columns rows]. f_equal.
  rewrite <- list_fmap_compose. apply list_fmap_ext. intros i [ix r] _.
  cbn. unfold cell at 1. rewrite lookup_insert_eq. cbn [default from_option id].
  rewrite insert_insert_eq. reflexivity.
Qed.

Global Instance str_le_total : Total str_le.
Proof. intros s t. apply String.leb_total. Qed.

Lemma int_dict_cases (labels : gmap Z string) (v : value) :
  int_dict labels v = None ∨ ∃ s, int_dict labels v = Some (VStr s).
Proof.
  unfold int_dict. destruct (code_of v ≫= (labels !!.)) as [s|]; cbn; eauto.
Qed.

(** X12. Called without an order, [map_and_order_edu] cannot fail on the
    categories: they are inferred as the labels that the rows of the
    table get, each once and in ascending order, and every row keeps the
    label of its code (missing only when the code has no entry). *)
Theorem map_and_order_edu_infers_order (σ : store) (l : loc) (T : DataFrame)
    (edu_col label_col : string) (labels : gmap Z string) :
  σ !! l = Some T → has_col T edu_col →
  ∃ T' cats, map_and_order_edu l edu_col label_col (Some labels) None σ
             = Ok (l, <[l:=T']> σ)
      ∧ col_dtype T' label_col = Some (Categorical cats true)
      ∧ NoDup cats ∧ Sorted str_le cats
      ∧ (∀ s, s ∈ cats ↔
           ∃ ir, ir ∈ rows T ∧ int_dict labels (cell ir.2 edu_col) = Some (VStr s))
      ∧ ∀ i ir, rows T !! i = Some ir →
          ∃ r', rows T' !! i = Some (ir.1, r')
                ∧ cell r' label_col = default VNaN (int_dict labels (cell ir.2 edu_col)).
Proof.
  intros Hl Hc.
  assert (NoDup (inferred_order T edu_col labels)) as Hnd.
  { unfold inferred_order. rewrite merge_sort_Permutation. apply NoDup_remove_dups. }
  assert (∀ s, s ∈ inferred_order T edu_col labels ↔
            ∃ ir, ir ∈ rows T ∧ int_dict labels (cell ir.2 edu_col) = Some (VStr s)) as Hin.
  { intros s. unfold inferred_order.
    rewrite merge_sort_Permutation, elem_of_remove_dups, list_elem_of_omap.
    split; intros (ir & Hir & Hs); exists ir; (split; [done|]).
    - destruct (int_dict_cases labels (cell ir.2 edu_col)) as [E|[s' E]];
        rewrite E in Hs |- *; cbn in Hs; by simplify_eq.
    - by rewrite Hs. }
  eexists _, (inferred_order T edu_col labels).
  split; [by apply (map_and_order_edu_run_opt σ l T edu_col label_col labels None)|].
  split; [unfold col_dtype, categorized_table; cbn [columns]; apply set_col_dtype|].
  split; [done|]. split; [apply Sorted_merge_sort; apply _|]. split; [done|].
  intros i ir Hi. cbn [default from_option id].
  destruct (categorized_table_cell T edu_col label_col labels
              (inferred_order T edu_col labels) i ir Hi) as (r' & Hr' & Hcell & _).
  exists r'. split; [done|]. rewrite Hcell. unfold label_of.
  destruct (int_dict_cases labels (cell ir.2 edu_col)) as [E|[s E]]; rewrite E; [done|].
  cbn. rewrite decide_True; [done|]. apply Hin. exists ir. split; [|done].
  by eapply list_elem_of_lookup_2.
Qed.

Lemma map_and_order_edu_infers_order_witness :
  ∃ T' cats, map_and_order_edu 1%positive "Edu_code" "Education Level"
               (Some test_labels) None {[ 1%positive := edu_code_df ]}
             = Ok (1%positive, <[1%positive:=T']> {[ 1%positive := edu_code_df ]})
      ∧ col_dtype T' "Education Level" = Some (Categorical cats true) ∧ NoDup cats.
Proof.
  destruct (map_and_order_edu_infers_order {[ 1%positive := edu_code_df ]} 1%positive
              edu_code_df "Edu_code" "Education Level" test_labels)
    as (T' & cats & Hrun & Hd & Hnd & _).
  - apply lookup_singleton_eq.
  - unfold has_col. cbn. repeat constructor.
  - exists T', cats. split; [exact Hrun|]. split; [exact Hd|exact Hnd].
Defined.

Lemma EDU_ORDER_NoDup : NoDup EDU_ORDER.
Proof. apply (bool_decide_unpack _). vm_compute. exact I. Qed.

Lemma EDU_LABELS_in_order (z : Z) (s : string) :
  EDU_LABELS !! z = Some s → s ∈ EDU_ORDER.
Proof.
  intros Hz.
  assert (map_Forall (λ _ s, s ∈ EDU_ORDER) EDU_LABELS) as H.
  { apply (bool_decide_unpack _). vm_compute. exact I. }
  by apply (H z s).
Qed.

(** X13. The module's own configuration fits the categorizer: with
    [EDU_LABELS] and [EDU_ORDER], categorization succeeds on every table
    that has the code column (the order repeats no label), and no label
    is lost to the order: a row's label is the [EDU_LABELS] entry of its
    code, and it is missing exactly when the code has no entry. *)
Theorem map_and_order_edu_module_constants (σ : store) (l : loc) (T : DataFrame)
    (edu_col label_col : string) :
  σ !! l = Some T → has_col T edu_col →
  ∃ T', map_and_order_edu l edu_col label_col (Some EDU_LABELS) (Some EDU_ORDER) σ
        = Ok (l, <[l:=T']> σ)
      ∧ col_dtype T' label_col = Some (Categorical EDU_ORDER true)
      ∧ ∀ i ir, rows T !! i = Some ir →
          ∃ r', rows T' !! i = Some (ir.1, r')
                ∧ cell r' label_col
                  = match code_of (cell ir.2 edu_col) ≫= (EDU_LABELS !!.) with
                    | Some s => VStr s
                    | None => VNaN
                    end.
Proof.
  intros Hl Hc. eexists.
  split; [apply (map_and_order_edu_run σ l T); [done..|apply EDU_ORDER_NoDup]|].
  split; [unfold col_dtype, categorized_table; cbn [columns]; apply set_col_dtype|].
  intros i ir Hi.
  destruct (categorized_table_cell T edu_col label_col EDU_LABELS EDU_ORDER i ir Hi)
    as (r' & Hr' & Hcell & _).
  exists r'. split; [done|]. rewrite Hcell. unfold label_of, int_dict.
  destruct (code_of (cell ir.2 edu_col) ≫= (EDU_LABELS !!.)) as [s|] eqn:E; [|done].
  cbn. rewrite decide_True; [done|].
  destruct (code_of (cell ir.2 edu_col)) as [z|]; [|done]. cbn in E.
  by apply (EDU_LABELS_in_order z).
Qed.

Lemma map_and_order_edu_module_constants_witness :
  ∃ T', map_and_order_edu 1%positive "Edu_code" "Education Level"
          (Some EDU_LABELS) (Some EDU_ORDER) {[ 1%positive := unmapped_code_df ]}
        = Ok (1%positive, <[1%positive:=T']> {[ 1%positive := unmapped_code_df ]})
      ∧ col_dtype T' "Education Level" = Some (Categorical EDU_ORDER true).
Proof.
  destruct (map_and_order_edu_module_constants {[ 1%positive := unmapped_code_df ]}
              1%positive unmapped_code_df "Edu_code" "Education Level")
    as (T' & Hrun & Hd & _).
  - apply lookup_singleton_eq.
  - unfold has_col. cbn. repeat constructor.
  - exists T'. split; [exact Hrun|exact Hd].
Defined.

(** ** Aggregator: percentages *)

Lemma inject_nat_pos (n : nat) : 1 ≤ n → (0 < inject_Z (Z.of_nat n))%Q.
Proof. intros Hn. unfold Qlt. cbn. lia. Qed.

Lemma inject_nat_le (n m : nat) :
  n ≤ m → (inject_Z (Z.of_nat n) <= inject_Z (Z.of_nat m))%Q.
Proof. intros Hn. unfold Qle. cbn. lia. Qed.

(** X14. What each row of the percentage table says: its [Count] is the
    number of records of the input with the row's (Parent,
    EducationLevel, Target) combination, which is at least 1; its
    [Percent] is 100 times that count over the number of records of
    the row's (Parent, EducationLevel) group that have a target value,
    and so lies above 0 and at most at 100 - no row is the outcome of a
    division by zero. *)
Theorem compute_percent_row_values (σ : store) (l : loc) (T : DataFrame) (tc : string) :
  σ !! l = Some T → categorized T → target_column T tc →
  ∃ r R, compute_percent l tc σ = Ok (r, <[r:=R]> σ) ∧
    ∀ ir, ir ∈ rows R →
      ∃ a b c q,
        row_key (percent_keys tc) ir.2 = Some [a; b; c]
        ∧ 1 ≤ length (group_rows T (percent_keys tc) [a; b; c])
        ∧ length (group_rows T (percent_keys tc) [a; b; c])
          ≤ length (with_present tc (group_records T a b))
        ∧ cell ir.2 "Count"
          = VNum (inject_Z (Z.of_nat (length (group_rows T (percent_keys tc) [a; b; c]))))
        ∧ cell ir.2 "Percent" = VNum q
        ∧ (q == 100 * inject_Z (Z.of_nat (length (group_rows T (percent_keys tc) [a; b; c])))
                / inject_Z (Z.of_nat (length (with_present tc (group_records T a b)))))%Q
        ∧ (0 < q)%Q ∧ (q <= 100)%Q.
Proof.
  intros Hl HT Htc. eexists _, _. split; [by apply compute_percent_run|].
  intros ir Hir. destruct (percent_table_row T tc ir Hir) as (k & Hk & Hrow).
  destruct (group_key_shape T tc k Hk) as (a & b & c & -> & _ & Hne).
  assert ([a; b; c] ∈ keys_of_group T tc a b) as Hkg
    by (apply list_elem_of_filter; by split).
  set (n := length (group_rows T (percent_keys tc) [a; b; c])).
  set (N := length (with_present tc (group_records T a b))).
  assert (1 ≤ n) as Hn1.
  { subst n. destruct (group_rows T (percent_keys tc) [a; b; c]); [done|cbn; lia]. }
  assert (n ≤ N) as HnN.
  { subst n N. rewrite <- (keys_of_group_count T tc a b).
    by apply (sum_list_with_in _ (λ k, length (group_rows T (percent_keys tc) k))). }
  assert (with_present tc (group_records T a b) ≠ []) as Hrecs.
  { intros E. subst N. rewrite E in HnN. cbn in HnN. lia. }
  destruct (percent_row_percent T tc HT Htc a b Hrecs _ Hkg) as (q & Hq & Hqv).
  fold n N in Hqv.
  exists a, b, c, q. rewrite Hrow.
  split; [by apply percent_row_key|]. split; [done|]. split; [done|].
  split; [apply percent_row_count|]. split; [done|].
  pose proof (inject_nat_pos n Hn1) as Hxpos.
  pose proof (inject_nat_pos N ltac:(lia)) as Hypos.
  pose proof (inject_nat_le n N HnN) as Hxy.
  set (x := inject_Z (Z.of_nat n)) in *. set (y := inject_Z (Z.of_nat N)) in *.
  assert (0 < x / y)%Q as Hpos by (apply Qlt_shift_div_l; lra).
  assert (x / y <= 1)%Q as Hle by (apply Qle_shift_div_r; lra).
  split; [|split].
  - rewrite Hqv. change (x / y * 100 == 100 * x / y)%Q. field. lra.
  - rewrite Hqv. lra.
  - rewrite Hqv. lra.
Qed.

Lemma compute_percent_row_values_witness :
  ∃ r R, compute_percent 1%positive "Target" {[ 1%positive := missing_target_df ]}
         = Ok (r, <[r:=R]> {[ 1%positive := missing_target_df ]})
       ∧ ∀ ir, ir ∈ rows R → ∃ q, cell ir.2 "Percent" = VNum q ∧ (0 < q)%Q ∧ (q <= 100)%Q.
Proof.
  destruct (compute_percent_row_values {[ 1%positive := missing_target_df ]} 1%positive
              missing_target_df "Target") as (r & R & Hrun & Hrows).
  - apply lookup_singleton_eq.
  - apply missing_target_df_categorized.
  - apply missing_target_df_categorized.
  - exists r, R. split; [exact Hrun|]. intros ir Hir.
    destruct (Hrows ir Hir) as (a & b & c & q & _ & _ & _ & _ & Hq & _ & H0 & H100).
    exists q. split; [exact Hq|]. split; [exact H0|exact H100].
Defined.

Lemma group_keys_nil (T : DataFrame) (hdr : list (string * dtype)) :
  rows T = [] → group_keys T hdr = [].
Proof. intros E. unfold group_keys. by rewrite E. Qed.

(** X15. The rows of the percentage table are the combinations that
    occur: a (Parent, EducationLevel, Target) key is the key of a row
    of the result exactly when it is the key of a record of the input,
    the result has as many rows as the input has distinct keys, and a
    table without rows gives a result without rows. *)
Theorem compute_percent_rows_are_combinations (σ : store) (l : loc) (T : DataFrame)
    (tc : string) :
  σ !! l = Some T → categorized T → target_column T tc →
  ∃ r R, compute_percent l tc σ = Ok (r, <[r:=R]> σ)
    ∧ nrows R
      = length (remove_dups (omap (λ ir, row_key (percent_keys tc) ir.2) (rows T)))
    ∧ (∀ k, (∃ ir, ir ∈ rows R ∧ row_key (percent_keys tc) ir.2 = Some k)
            ↔ (∃ ir, ir ∈ rows T ∧ row_key (percent_keys tc) ir.2 = Some k))
    ∧ (rows T = [] → rows R = []).
Proof.
  intros Hl HT Htc. eexists _, _. split; [by apply compute_percent_run|].
  assert (nrows (percent_table T tc)
          = length (group_keys T (header_of T (percent_keys tc)))) as Hn.
  { unfold nrows. rewrite <- (length_fmap snd), percent_table_rows.
    by rewrite length_fmap. }
  split; [|split].
  - rewrite Hn. unfold group_keys.
    by rewrite merge_sort_Permutation, header_of_names.
  - intros k. split.
    + intros (ir & Hir & Hkey).
      destruct (percent_table_row T tc ir Hir) as (k' & Hk' & Hrow).
      rewrite Hrow, (percent_row_key T tc HT Htc k' Hk') in Hkey.
      injection Hkey as <-.
      apply elem_of_group_keys in Hk'. by rewrite header_of_names in Hk'.
    + intros Hk.
      assert (k ∈ group_keys T (header_of T (percent_keys tc))) as Hgk
        by (apply elem_of_group_keys; by rewrite header_of_names).
      assert (percent_row T tc k ∈ (rows (percent_table T tc)).*2) as Hin.
      { rewrite percent_table_rows. apply list_elem_of_fmap. by exists k. }
      apply list_elem_of_fmap in Hin as (ir & Hrow & Hir).
      exists ir. split; [done|]. rewrite <- Hrow. by apply percent_row_key.
  - intros E. apply length_zero_iff_nil. fold (nrows (percent_table T tc)).
    by rewrite Hn, (group_keys_nil T _ E).
Qed.

Lemma compute_percent_rows_are_combinations_witness :
  ∃ r R, compute_percent 1%positive "Target" {[ 1%positive := ages_df ]}
         = Ok (r, <[r:=R]> {[ 1%positive := ages_df ]})
       ∧ nrows R = 3
       ∧ (∃ ir, ir ∈ rows R
                ∧ row_key (percent_keys "Target") ir.2
                  = Some [VStr "Mother"; VStr "Elementary"; VStr "Dropout"])
       ∧ ¬ (∃ ir, ir ∈ rows R
                  ∧ row_key (percent_keys "Target") ir.2
                    = Some [VStr "Father"; VStr "High"; VStr "Dropout"]).
Proof.
  destruct (compute_percent_rows_are_combinations
              {[ 1%positive := ages_df ]} 1%positive ages_df "Target")
    as (r & R & Hrun & Hn & Hiff & _).
  - apply lookup_singleton_eq.
  - apply ages_df_categorized.
  - apply ages_df_categorized.
  - exists r, R. split; [exact Hrun|]. split; [|split].
    + rewrite Hn. vm_compute. reflexivity.
    + apply Hiff.
      exists (long_row 1 "Mother" "Elementary" (VStr "Dropout") 23).
      split; [right; left|vm_compute; reflexivity].
    + intros Hex. apply Hiff in Hex as (ir & Hir & Hkey).
      unfold ages_df in Hir. cbn [rows] in Hir.
      repeat (apply elem_of_cons in Hir as [->|Hir];
              [vm_compute in Hkey; discriminate Hkey|]).
      by apply elem_of_nil in Hir.
Defined.

Lemma fmap_fst_imap {A B} (F : A → B) (l : list A) :
  (imap (λ i k, (Z.of_nat i, F k)) l).*1 = Z.of_nat <$> seq 0 (length l).
Proof.
  rewrite fmap_imap.
  etransitivity; [|apply (imap_seq_0 l (λ i, Z.of_nat i))].
  by apply imap_ext.
Qed.

Lemma header_of_dtype (T : DataFrame) (cs : list string) (c : string) :
  NoDup cs → c ∈ cs → has_col T c →
  (list_to_map (header_of T cs) : gmap string dtype) !! c = col_dtype T c.
Proof.
  intros Hnd Hc [d Hd]%col_dtype_is_Some. rewrite Hd.
  apply elem_of_list_to_map_1; [by rewrite header_of_names|].
  unfold header_of. apply list_elem_of_fmap. exists c. by rewrite Hd.
Qed.

(** X16. The shape of the percentage table: its columns are [Parent],
    [Education Level], the target column, [Count] and [Percent], in
    this order; its index is renumbered [0, 1, ...]; and the grouping
    columns keep the dtype they have in the input, so an ordered
    categorical [Education Level] is still one, with the same
    categories, in the result. *)
Theorem compute_percent_shape (σ : store) (l : loc) (T : DataFrame) (tc : string) :
  σ !! l = Some T → categorized T → target_column T tc →
  ∃ r R, compute_percent l tc σ = Ok (r, <[r:=R]> σ)
    ∧ col_names R = ["Parent"; "Education Level"; tc; "Count"; "Percent"]
    ∧ (rows R).*1 = Z.of_nat <$> seq 0 (nrows R)
    ∧ ∀ c, c ∈ percent_keys tc → col_dtype R c = col_dtype T c.
Proof.
  intros Hl HT Htc. eexists _, _. split; [by apply compute_percent_run|].
  destruct (target_column_keys T tc HT Htc) as (Hk & Hnd & Hc & Hp).
  split; [|split].
  - unfold col_names, percent_table, sized_table. cbn [columns].
    rewrite set_col_names, fmap_app, header_of_names. cbn.
    rewrite decide_False; [done|].
    intros Hin. apply Hp. unfold percent_keys.
    repeat (apply elem_of_cons in Hin as [?|Hin]; [subst; try done; repeat constructor|]).
    by apply elem_of_nil in Hin.
  - unfold nrows, percent_table, sized_table. cbn [rows].
    rewrite <- list_fmap_compose.
    change (fst ∘ (λ ir : Z * row, (ir.1, _))) with (fst : Z * row → Z).
    by rewrite fmap_fst_imap, length_fmap, length_imap.
  - intros c Hin. unfold col_dtype at 1, percent_table, sized_table. cbn [columns].
    rewrite set_col_dtype_other by (intros <-; contradiction).
    rewrite list_to_map_app.
    rewrite Forall_forall in Hk.
    destruct (col_dtype_is_Some T c (Hk c Hin)) as [d Hd].
    erewrite lookup_union_Some_l; [by rewrite Hd|].
    rewrite header_of_dtype; [done..|]. by apply Hk.
Qed.

Lemma compute_percent_shape_witness :
  ∃ r R, compute_percent 1%positive "Target" {[ 1%positive := missing_target_df ]}
         = Ok (r, <[r:=R]> {[ 1%positive := missing_target_df ]})
       ∧ col_dtype R "Education Level"
         = Some (Categorical ["Elementary"; "Middle"; "High"] true).
Proof.
  destruct (compute_percent_shape {[ 1%positive := missing_target_df ]} 1%positive
              missing_target_df "Target") as (r & R & Hrun & _ & _ & Hd).
  - apply lookup_singleton_eq.
  - apply missing_target_df_categorized.
  - apply missing_target_df_categorized.
  - exists r, R. split; [exact Hrun|].
    rewrite (Hd "Education Level"); [reflexivity|].
    unfold percent_keys. repeat constructor.
Defined.

(** ** Aggregator: summary statistics *)

Lemma summary_table_index (T : DataFrame) (vc : string) :
  (rows (summary_table T vc)).*1
  = Z.of_nat <$> seq 0 (2 * length (group_keys T (header_of T group_cols))).
Proof.
  unfold summary_table, melted_table. cbn [rows].
  rewrite <- list_fmap_compose.
  change (fst ∘ (λ ir : Z * row, (ir.1, _))) with (fst : Z * row → Z).
  rewrite (fmap_fst_imap id). do 2 f_equal.
  cbn [mbind list_bind]. rewrite app_nil_r, length_app, !length_fmap.
  unfold grouped_table. cbn [rows]. rewrite length_imap, length_fmap. lia.
Qed.

Lemma grouped_table_dtype (T : DataFrame) (vc : string) (c : string) :
  c ∈ group_cols → has_col T c → col_dtype (grouped_table T vc) c = col_dtype T c.
Proof.
  intros Hc Hcol. unfold col_dtype at 1, grouped_table. cbn [columns].
  rewrite list_to_map_app.
  destruct (col_dtype_is_Some T c Hcol) as [d Hd].
  erewrite lookup_union_Some_l; [by rewrite Hd|].
  rewrite header_of_dtype; [done|apply group_cols_NoDup|done..].
Qed.

(** X17. The shape of the summary table: its columns are [Parent],
    [Education Level], [Statistic] and the value column; with [g]
    observed groups it has [2 g] rows, renumbered [0, 1, ...] - first
    the [g] Mean rows, then the [g] Median rows, the groups in the same
    order in both halves, so rows [i] and [g + i] belong to one group;
    [Education Level] keeps the dtype it has in the input. *)
Theorem compute_summary_stats_shape (σ : store) (l : loc) (T : DataFrame) (vc : string) :
  σ !! l = Some T → categorized T → numeric_column T vc →
  ∃ r R σ', compute_summary_stats l vc σ = Ok (r, σ') ∧ σ' !! r = Some R
    ∧ col_names R = ["Parent"; "Education Level"; "Statistic"; vc]
    ∧ col_dtype R "Education Level" = col_dtype T "Education Level"
    ∧ ∃ g, g = length (remove_dups (omap (λ ir, row_key group_cols ir.2) (rows T)))
        ∧ nrows R = 2 * g
        ∧ (rows R).*1 = Z.of_nat <$> seq 0 (2 * g)
        ∧ (∀ i ir, rows R !! i = Some ir →
             cell ir.2 "Statistic" = if decide (i < g) then VStr "Mean" else VStr "Median")
        ∧ (∀ i rm, i < g → rows R !! i = Some rm →
             ∃ rd, rows R !! (g + i) = Some rd
                   ∧ row_key group_cols rd.2 = row_key group_cols rm.2).
Proof.
  intros Hl HT Hvc. eexists _, (summary_table T vc), _.
  split; [by apply compute_summary_stats_run|].
  split; [apply lookup_insert_eq|].
  destruct (numeric_column_facts T vc Hvc) as (_ & Hng & _ & _ & _ & _ & Hs & _).
  set (gk := group_keys T (header_of T group_cols)).
  pose proof (summary_table_rows T vc Hvc) as Hrows. fold gk in Hrows.
  pose proof (summary_table_index T vc) as Hidx. fold gk in Hidx.
  assert (length (rows (summary_table T vc)) = 2 * length gk) as Hlen.
  { rewrite <- (length_fmap snd), Hrows, length_app, !length_fmap. lia. }
  split; [|split].
  - unfold col_names, summary_table, melted_table. cbn [columns].
    rewrite set_col_names, fmap_app, header_of_names. cbn.
    rewrite decide_True; [done|]. repeat constructor.
  - unfold col_dtype at 1, summary_table, melted_table. cbn [columns].
    rewrite set_col_dtype_other by done. rewrite list_to_map_app.
    destruct HT as [_ He].
    destruct (col_dtype_is_Some T _ He) as [d Hd].
    assert ("Education Level" ∈ group_cols) as Hin by (right; by left).
    assert (has_col (grouped_table T vc) "Education Level") as HeG.
    { unfold has_col. rewrite grouped_table_names. apply elem_of_app. by left. }
    erewrite lookup_union_Some_l; [by rewrite Hd|].
    rewrite header_of_dtype; [|apply group_cols_NoDup|done..].
    by rewrite grouped_table_dtype.
  - exists (length gk). split.
    { subst gk. unfold group_keys.
      by rewrite merge_sort_Permutation, header_of_names. }
    split; [done|]. split; [done|]. split.
    + intros i ir Hi.
      assert ((rows (summary_table T vc)).*2 !! i = Some ir.2) as Hi2
        by by rewrite list_lookup_fmap, Hi.
      rewrite Hrows in Hi2. destruct (decide (i < length gk)) as [Hlt|Hge].
      * rewrite lookup_app_l in Hi2 by by rewrite length_fmap.
        rewrite list_lookup_fmap in Hi2.
        destruct (gk !! i) as [k|]; [|done]. injection Hi2 as <-.
        by rewrite (stat_row_statistic vc).
      * rewrite lookup_app_r in Hi2 by (rewrite length_fmap; lia).
        rewrite list_lookup_fmap in Hi2.
        destruct (gk !! _) as [k|]; [|done]. injection Hi2 as <-.
        by rewrite (stat_row_statistic vc).
    + intros i rm Hlt Hi.
      assert ((rows (summary_table T vc)).*2 !! i = Some rm.2) as Hi2
        by by rewrite list_lookup_fmap, Hi.
      rewrite Hrows in Hi2.
      rewrite lookup_app_l in Hi2 by by rewrite length_fmap.
      rewrite list_lookup_fmap in Hi2.
      destruct (gk !! i) as [k|] eqn:Hk; [|done]. injection Hi2 as Hrm.
      destruct (lookup_lt_is_Some_2 (rows (summary_table T vc)) (length gk + i))
        as [rd Hrd]; [lia|].
      exists rd. split; [done|].
      assert ((rows (summary_table T vc)).*2 !! (length gk + i) = Some rd.2) as Hd2
        by by rewrite list_lookup_fmap, Hrd.
      rewrite Hrows in Hd2.
      rewrite lookup_app_r in Hd2 by (rewrite length_fmap; lia).
      rewrite length_fmap in Hd2.
      replace (length gk + i - length gk) with i in Hd2 by lia.
      rewrite list_lookup_fmap, Hk in Hd2. injection Hd2 as Hrdv.
      apply list_elem_of_lookup_2 in Hk.
      rewrite <- Hrm, <- Hrdv.
      by rewrite !(stat_row_key T vc Hvc _ k Hk).
Qed.

Lemma compute_summary_stats_shape_witness :
  ∃ r R σ', compute_summary_stats 1%positive "Age" {[ 1%positive := ages_df ]} = Ok (r, σ')
    ∧ σ' !! r = Some R
    ∧ col_names R = ["Parent"; "Education Level"; "Statistic"; "Age"].
Proof.
  destruct (compute_summary_stats_shape {[ 1%positive := ages_df ]} 1%positive
              ages_df "Age") as (r & R & σ' & Hrun & HR & Hnames & _).
  - apply lookup_singleton_eq.
  - apply ages_df_numeric.
  - apply ages_df_numeric.
  - exists r, R, σ'. split; [exact Hrun|]. split; [exact HR|exact Hnames].
Defined.

(** ** Aggregator: errors *)

Lemma mapM_lookup_dtype_Err (T : DataFrame) (pre : list string) (c : string)
    (post : list string) :
  Forall (has_col T) pre → ¬ has_col T c →
  mapM (lookup_dtype T) (pre ++ c :: post) = Err (KeyError c).
Proof.
  intros Hpre Hc. induction Hpre as [|c0 pre H0 _ IH].
  - change (mapM ?f ([] ++ c :: post)) with (x ← f c; k ← mapM f post; mret (x :: k)).
    by rewrite (lookup_dtype_Err T c Hc).
  - change (mapM ?f ((c0 :: pre) ++ c :: post))
      with (x ← f c0; k ← mapM f (pre ++ c :: post); mret (x :: k)).
    destruct (lookup_dtype_Ok T c0 H0) as [d ->]. by rewrite bind_Ok, IH.
Qed.

Lemma mapM_head_Err {A B} (f : A → result B) (a : A) (l : list A) (e : error) :
  f a = Err e → mapM f (a :: l) = Err e.
Proof.
  intros E. change (mapM f (a :: l)) with (x ← f a; k ← mapM f l; mret (x :: k)).
  by rewrite E.
Qed.

(** X18. Both aggregators raise [KeyError] for a column they need and
    the table lacks, naming the first one missing in the order
    [Parent], [Education Level], then the target or value column. *)
Theorem aggregators_report_missing_column (σ : store) (l : loc) (T : DataFrame)
    (c : string) :
  σ !! l = Some T →
  (¬ has_col T "Parent" →
     compute_percent l c σ = Err (KeyError "Parent")
     ∧ compute_summary_stats l c σ = Err (KeyError "Parent"))
  ∧ (has_col T "Parent" → ¬ has_col T "Education Level" →
     compute_percent l c σ = Err (KeyError "Education Level")
     ∧ compute_summary_stats l c σ = Err (KeyError "Education Level"))
  ∧ (categorized T → ¬ has_col T c →
     compute_percent l c σ = Err (KeyError c)
     ∧ compute_summary_stats l c σ = Err (KeyError c)).
Proof.
  intros Hl.
  rewrite (compute_percent_pure σ l T c Hl), (compute_summary_stats_pure σ l T c Hl).
  unfold percent_of, groupby_size, groupby_agg.
  split; [|split].
  - intros Hp.
    pose proof (mapM_lookup_dtype_Err T [] "Parent" ["Education Level"; c]
                  (Forall_nil_2 _) Hp) as E3.
    pose proof (mapM_lookup_dtype_Err T [] "Parent" ["Education Level"]
                  (Forall_nil_2 _) Hp) as E2.
    cbn [app] in E3, E2. by rewrite E3, E2.
  - intros Hp He.
    assert (Forall (has_col T) ["Parent"]) as HF by by repeat constructor.
    pose proof (mapM_lookup_dtype_Err T ["Parent"] "Education Level" [c] HF He) as E3.
    pose proof (mapM_lookup_dtype_Err T ["Parent"] "Education Level" [] HF He) as E2.
    cbn [app] in E3, E2. by rewrite E3, E2.
  - intros [Hp He] Hc.
    assert (Forall (has_col T) ["Parent"; "Education Level"]) as HF
      by by repeat constructor.
    pose proof (mapM_lookup_dtype_Err T ["Parent"; "Education Level"] c [] HF Hc) as E3.
    cbn [app] in E3. rewrite E3. split; [done|].
    rewrite (mapM_lookup_dtype T ["Parent"; "Education Level"] HF).
    rewrite bind_Ok. unfold summary_aggs.
    rewrite (mapM_head_Err _ _ _ (KeyError c)); [done|].
    cbn [fst snd]. rewrite decide_False.
    + exact (lookup_dtype_Err T c Hc).
    + intros Hin. apply Hc.
      apply elem_of_cons in Hin as [->|[->|?%elem_of_nil]%elem_of_cons]; done.
Qed.

Lemma aggregators_report_missing_column_witness :
  compute_percent 1%positive "Target" {[ 1%positive := dummy_df ]}
  = Err (KeyError "Parent")
  ∧ compute_summary_stats 1%positive "Income" {[ 1%positive := ages_df ]}
    = Err (KeyError "Income").
Proof.
  destruct (aggregators_report_missing_column {[ 1%positive := dummy_df ]} 1%positive
              dummy_df "Target") as ([H1 _] & _).
  { apply lookup_singleton_eq. }
  { unfold has_col. cbn. intros Hin.
    repeat (apply elem_of_cons in Hin as [?|Hin]; [done|]).
    by apply elem_of_nil in Hin. }
  destruct (aggregators_report_missing_column {[ 1%positive := ages_df ]} 1%positive
              ages_df "Income") as (_ & _ & [_ H2]).
  { apply lookup_singleton_eq. }
  { apply ages_df_numeric. }
  { unfold has_col. cbn. intros Hin.
    repeat (apply elem_of_cons in Hin as [?|Hin]; [done|]).
    by apply elem_of_nil in Hin. }
  split; [exact H1|exact H2].
Defined.

(** ** The operations in sequence *)

Lemma result_table_bind_Ok {A} (m : Py A) (f : A → Py loc) (σ σ' : store) (a : A) :
  m σ = Ok (a, σ') → result_table (m ≫= f) σ = result_table (f a) σ'.
Proof. intros E. unfold result_table. by rewrite (Py_bind_Ok m f σ σ' a E). Qed.

Lemma key_of_VStr (x : value) (s : string) : key_of x = Some (VStr s) → x = VStr s.
Proof. destruct x; cbn; congruence. Qed.

Lemma row_key_two (x y : string) (r : row) (a b : value) :
  row_key [x; y] r = Some [a; b]
  → key_of (cell r x) = Some a ∧ key_of (cell r y) = Some b.
Proof.
  unfold row_key. cbn.
  destruct (key_of (cell r x)) as [a'|]; [|done].
  destruct (key_of (cell r y)) as [b'|]; [|done].
  cbn. by intros [= -> ->].
Qed.

Lemma long_categorized (c : string) (L : DataFrame)
    (labels : gmap Z string) (order : list string) :
  (c ∉ ["Edu_code"; "Parent"; "Education Level"; "Count"; "Percent"]) →
  col_names L = long_names c →
  has_col L "Edu_code"
  ∧ categorized (categorized_table L "Edu_code" "Education Level" labels order)
  ∧ target_column (categorized_table L "Edu_code" "Education Level" labels order) c.
Proof.
  intros Hc Hn.
  assert (c ≠ "Parent") as Hp by (intros ->; apply Hc; set_solver).
  assert (col_names L = [c; "Edu_code"; "Parent"]) as Hn'.
  { rewrite Hn. unfold long_names. by rewrite decide_False. }
  assert (col_names (categorized_table L "Edu_code" "Education Level" labels order)
          = [c; "Edu_code"; "Parent"; "Education Level"]) as HC.
  { rewrite categorized_table_names. rewrite decide_False; [by rewrite Hn'|].
    rewrite Hn'. intros Hin. apply Hc. set_solver. }
  unfold categorized, target_column, has_col. rewrite HC, Hn'.
  repeat split; try set_solver.
Qed.

(** X19. The reshaper, the categorizer and the percentage aggregator
    fit together: for a wide table and a value column outside the names
    the three functions introduce, [make_long], then
    [map_and_order_edu] on the long table, then [compute_percent] on
    the value column all succeed.  Every row of the result is tagged
    [Mother] or [Father], carries a label of [order], and a target value
    found in the wide table; an empty wide table gives an empty
    result. *)
Theorem reshape_categorize_count (σ : store) (T : DataFrame) (c : string)
    (labels : gmap Z string) (order : list string) :
  wide_table T → has_col T c →
  (c ∉ ["Mother_edu_code"; "Father_edu_code"; "Edu_code"; "Parent";
        "Education Level"; "Count"; "Percent"]) →
  NoDup order →
  ∃ L R,
    make_long T c parent_cols_default = Ok L
    ∧ result_table
        (l ← new_frame L;
         d ← map_and_order_edu l "Edu_code" "Education Level" (Some labels) (Some order);
         compute_percent d c) σ = Ok R
    ∧ (∀ ir, ir ∈ rows R →
         cell ir.2 "Parent" ∈ [VStr "Mother"; VStr "Father"]
         ∧ (∃ s, cell ir.2 "Education Level" = VStr s ∧ s ∈ order)
         ∧ (∃ wr, wr ∈ rows T ∧ key_of (cell wr.2 c) = Some (cell ir.2 c)))
    ∧ (rows T = [] → rows R = []).
Proof.
  intros HT Hc Hres Hnd.
  destruct (make_long_rows T c HT Hc) as (L & HL & Hn & Hrows); [set_solver|].
  destruct (long_categorized c L labels order) as (He & HC & Htc); [set_solver|done|].
  set (CT := categorized_table L "Edu_code" "Education Level" labels order) in *.
  exists L, (percent_table CT c). split; [done|]. split; [|split].
  - unfold mbind at 1. rewrite (result_table_bind_Ok _ _ σ (<[fresh (dom σ):=L]> σ) (fresh (dom σ))) by done.
    rewrite (result_table_bind_Ok _ _ _ (<[fresh (dom σ):=CT]> (<[fresh (dom σ):=L]> σ)) (fresh (dom σ))).
    2:{ apply map_and_order_edu_run; [apply lookup_insert_eq|done|done]. }
    rewrite result_table_compute_percent. by apply percent_of_Ok.
  - intros ir Hir.
    destruct (percent_table_row CT c ir Hir) as (k & Hk & ->).
    destruct (group_key_shape CT c k Hk) as (a & b & c0 & -> & _ & _).
    pose proof (percent_row_key CT c HC Htc _ Hk) as Hkey.
    apply row_key_three in Hkey as (a' & b' & c' & [= <- <- <-] & Hab & Hc0).
    apply row_key_two in Hab as [Ha Hb].
    apply elem_of_group_keys in Hk as (jr & Hjr & Hjk).
    rewrite header_of_names in Hjk.
    apply row_key_three in Hjk as (a' & b' & c' & [= <- <- <-] & Hab' & Hc0').
    apply row_key_two in Hab' as [Ha' Hb'].
    rewrite (percent_row_target CT c a b c0 Htc).
    assert (c ≠ "Mother_edu_code" ∧ c ≠ "Father_edu_code" ∧ c ≠ "Edu_code"
            ∧ c ≠ "Parent" ∧ c ≠ "Education Level") as (Hc1 & Hc2 & Hc3 & Hc4 & Hc5).
    { repeat split; intros Ec; apply Hres; rewrite Ec; repeat constructor. }
    assert (∃ tag p wr, (tag = "Mother" ∨ tag = "Father") ∧ wr ∈ rows T
              ∧ (p = "Mother_edu_code" ∨ p = "Father_edu_code")
              ∧ jr.2 = <["Education Level":=label_of labels order
                           (cell (long_record p tag c wr).2 "Edu_code")]>
                         (long_record p tag c wr).2) as (tag & p & wr & Htag & Hwr & Hp & Ejr).
    { unfold CT, categorized_table in Hjr. cbn [rows] in Hjr.
      apply list_elem_of_fmap in Hjr as (lr & -> & Hlr). rewrite Hrows in Hlr.
      apply elem_of_app in Hlr as [Hlr|Hlr];
        apply list_elem_of_fmap in Hlr as (wr & -> & Hwr).
      - exists "Mother", "Mother_edu_code", wr.
        split; [by left|]. split; [exact Hwr|]. split; [by left|]. reflexivity.
      - exists "Father", "Father_edu_code", wr.
        split; [by right|]. split; [exact Hwr|]. split; [by right|]. reflexivity. }
    assert (cell jr.2 "Parent" = VStr tag) as EP.
    { rewrite Ejr. unfold cell at 1. rewrite lookup_insert_ne by discriminate.
      apply long_record_parent. }
    assert (cell jr.2 c = cell wr.2 c) as EC.
    { rewrite Ejr. unfold cell at 1. rewrite lookup_insert_ne by congruence.
      apply long_record_value. rewrite !not_elem_of_cons.
      split; [exact Hc3|]. split; [exact Hc4|]. split; [|apply not_elem_of_nil].
      destruct Hp as [-> | ->]; assumption. }
    assert (cell jr.2 "Education Level"
            = label_of labels order (cell (long_record p tag c wr).2 "Edu_code")) as EL.
    { rewrite Ejr. unfold cell at 1. by rewrite lookup_insert_eq. }
    split; [|split].
    + rewrite EP in Ha'. cbn in Ha'. injection Ha' as <-.
      rewrite (key_of_VStr _ _ Ha).
      destruct Htag as [-> | ->]; [left|right; left].
    + rewrite EL in Hb'.
      destruct (label_of_cases labels order (cell (long_record p tag c wr).2 "Edu_code"))
        as [E|(s & E & Hs)]; rewrite E in Hb'; [done|].
      cbn in Hb'. injection Hb' as <-. exists s. split; [|done].
      by apply key_of_VStr.
    + exists wr. split; [done|]. by rewrite <- EC.
  - intros E. apply length_zero_iff_nil.
    rewrite <- (length_fmap snd), percent_table_rows, length_fmap.
    apply length_zero_iff_nil, group_keys_nil.
    unfold CT, categorized_table. cbn [rows]. by rewrite Hrows, E.
Qed.

Lemma reshape_categorize_count_witness :
  ∃ L R,
    make_long dummy_df "Target" parent_cols_default = Ok L
    ∧ result_table
        (l ← new_frame L;
         d ← map_and_order_edu l "Edu_code" "Education Level"
                (Some test_labels) (Some test_order);
         compute_percent d "Target") ∅ = Ok R
    ∧ (∀ ir, ir ∈ rows R →
         cell ir.2 "Parent" ∈ [VStr "Mother"; VStr "Father"]
         ∧ (∃ s, cell ir.2 "Education Level" = VStr s ∧ s ∈ test_order)
         ∧ (∃ wr, wr ∈ rows dummy_df
                  ∧ key_of (cell wr.2 "Target") = Some (cell ir.2 "Target")))
    ∧ (rows dummy_df = [] → rows R = []).
Proof.
  apply (reshape_categorize_count ∅ dummy_df "Target" test_labels test_order).
  - apply dummy_df_wide.
  - unfold has_col. cbn. repeat constructor.
  - apply (bool_decide_unpack _). vm_compute. exact I.
  - apply test_order_NoDup.
Defined.

(** ** Aggregators: order of the rows *)

Lemma value_leb_total (d : dtype) (a b : value) :
  value_leb d a b = true ∨ value_leb d b a = true.
Proof.
  destruct d as [|cats o]; cbn.
  - destruct a as [p|s|], b as [q|t|]; auto.
    + destruct (Qle_total p q) as [H|H]; [left|right]; by apply Qle_bool_iff.
    + destruct (String.leb_total s t); auto.
  - destruct (Nat.le_ge_cases (cat_rank cats a) (cat_rank cats b)); [left|right];
      by apply Nat.leb_le.
Qed.

Global Instance key_le_total (ds : list dtype) : Total (key_le ds).
Proof.
  unfold Total, key_le. induction ds as [|d ds IH]; intros k1 k2; [by left|].
  destruct k1 as [|a k1], k2 as [|b k2]; cbn; auto.
  destruct (decide (a = b)) as [->|Hab].
  - rewrite decide_True by done. apply IH.
  - rewrite (decide_False (P := b = a)) by congruence. apply value_leb_total.
Qed.

Lemma group_keys_sorted (T : DataFrame) (hdr : list (string * dtype)) :
  Sorted (key_le hdr.*2) (group_keys T hdr).
Proof. unfold group_keys. apply Sorted_merge_sort; apply _. Qed.

Lemma Sorted_adjacent {A} (R : relation A) (l : list A) (i : nat) (x y : A) :
  Sorted R l → l !! i = Some x → l !! S i = Some y → R x y.
Proof.
  intros Hs. revert i. induction Hs as [|z l Hs IH Hhd]; intros i Hx Hy; [done|].
  destruct i as [|i].
  - cbn in Hx, Hy. injection Hx as ->. destruct Hhd as [|w l' Hr]; [done|].
    cbn in Hy. by injection Hy as ->.
  - by apply (IH i).
Qed.

Lemma value_leb_refl (d : dtype) (a : value) : value_leb d a a = true.
Proof. by destruct (value_leb_total d a a). Qed.

Lemma percent_row_cells (T : DataFrame) (tc : string) (a b c : value) :
  target_column T tc →
  cell (percent_row T tc [a; b; c]) "Parent" = a
  ∧ cell (percent_row T tc [a; b; c]) "Education Level" = b
  ∧ cell (percent_row T tc [a; b; c]) tc = c.
Proof.
  intros Htc. split; [|split]; [| |by apply percent_row_target].
  - unfold cell, percent_row, count_row, percent_keys.
    rewrite !lookup_insert_ne by done. rewrite !key_row_cons.
    by rewrite lookup_insert_eq.
  - unfold cell, percent_row, count_row, percent_keys.
    rewrite !lookup_insert_ne by done. rewrite !key_row_cons.
    rewrite lookup_insert_ne by done. by rewrite lookup_insert_eq.
Qed.

Lemma percent_table_sorted (σ : store) (l : loc) (T : DataFrame) (tc : string)
    (order : list string) (ordered : bool) (d : dtype) :
  σ !! l = Some T → categorized T → target_column T tc →
  col_dtype T "Parent" = Some Plain →
  col_dtype T "Education Level" = Some (Categorical order ordered) →
  col_dtype T tc = Some d →
  ∃ r R, compute_percent l tc σ = Ok (r, <[r:=R]> σ)
    ∧ ∀ i r1 r2,
        (rows R).*2 !! i = Some r1 → (rows R).*2 !! S i = Some r2 →
        value_leb Plain (cell r1 "Parent") (cell r2 "Parent") = true
        ∧ (cell r1 "Parent" = cell r2 "Parent" →
           cat_rank order (cell r1 "Education Level")
           ≤ cat_rank order (cell r2 "Education Level"))
        ∧ (cell r1 "Parent" = cell r2 "Parent" →
           cell r1 "Education Level" = cell r2 "Education Level" →
           cell r1 tc ≠ cell r2 tc ∧ value_leb d (cell r1 tc) (cell r2 tc) = true).
Proof.
  intros Hl HT Htc HdP HdE Hdt. eexists _, _.
  split; [by apply compute_percent_run|].
  intros i r1 r2. rewrite percent_table_rows, !list_lookup_fmap.
  set (hdr := header_of T (percent_keys tc)).
  destruct (group_keys T hdr !! i) as [k1|] eqn:E1; [|done].
  destruct (group_keys T hdr !! S i) as [k2|] eqn:E2; [|done].
  cbn. intros [= <-] [= <-].
  pose proof (Sorted_adjacent _ _ i k1 k2 (group_keys_sorted T hdr) E1 E2) as Hle.
  assert (k1 ≠ k2) as Hne.
  { intros ->. pose proof (NoDup_group_keys T hdr) as Hnd.
    pose proof (NoDup_lookup _ _ _ _ Hnd E1 E2). lia. }
  destruct (group_key_shape T tc k1 (list_elem_of_lookup_2 _ _ _ E1))
    as (a1 & b1 & c1 & -> & _ & _).
  destruct (group_key_shape T tc k2 (list_elem_of_lookup_2 _ _ _ E2))
    as (a2 & b2 & c2 & -> & _ & _).
  destruct (percent_row_cells T tc a1 b1 c1 Htc) as (-> & -> & ->).
  destruct (percent_row_cells T tc a2 b2 c2 Htc) as (-> & -> & ->).
  assert (hdr.*2 = [Plain; Categorical order ordered; d]) as Hds.
  { unfold hdr, header_of, percent_keys. cbn. by rewrite HdP, HdE, Hdt. }
  rewrite Hds in Hle. unfold key_le in Hle. cbn in Hle.
  destruct (decide (a1 = a2)) as [->|Ha].
  - split; [apply (value_leb_refl Plain)|].
    destruct (decide (b1 = b2)) as [->|Hb].
    + split; [done|]. intros _ _.
      destruct (decide (c1 = c2)) as [->|Hc]; [done|]. done.
    + split; [intros _; by apply Nat.leb_le|]. done.
  - split; [done|]. split; intros; done.
Qed.

Lemma value_leb_Plain_cases (a b : value) :
  value_leb Plain a b = true →
  (∀ s t, a = VStr s → b = VStr t → str_le s t)
  ∧ (∀ p q, a = VNum p → b = VNum q → (p <= q)%Q).
Proof.
  intros H. split.
  - intros s t -> ->. exact H.
  - intros p q -> ->. by apply Qle_bool_iff.
Qed.

(** X20. The rows of the percentage table come out sorted by the
    grouping key.  With string parents, a categorical
    [Education Level] and a plain target column: each row's [Parent]
    is at most the next row's in string order; where the two agree,
    the education levels follow the order of the categories; where
    these agree too, the target values differ and ascend (strings in
    string order, numbers in numeric order). *)
Theorem compute_percent_sorted (σ : store) (l : loc) (T : DataFrame) (tc : string)
    (order : list string) (ordered : bool) :
  σ !! l = Some T → categorized T → target_column T tc →
  col_dtype T "Parent" = Some Plain →
  col_dtype T "Education Level" = Some (Categorical order ordered) →
  col_dtype T tc = Some Plain →
  ∃ r R, compute_percent l tc σ = Ok (r, <[r:=R]> σ)
    ∧ ∀ i r1 r2,
        (rows R).*2 !! i = Some r1 → (rows R).*2 !! S i = Some r2 →
        (∀ s t, cell r1 "Parent" = VStr s → cell r2 "Parent" = VStr t → str_le s t)
        ∧ (cell r1 "Parent" = cell r2 "Parent" →
           cat_rank order (cell r1 "Education Level")
           ≤ cat_rank order (cell r2 "Education Level"))
        ∧ (cell r1 "Parent" = cell r2 "Parent" →
           cell r1 "Education Level" = cell r2 "Education Level" →
           cell r1 tc ≠ cell r2 tc
           ∧ (∀ s t, cell r1 tc = VStr s → cell r2 tc = VStr t → str_le s t)
           ∧ (∀ p q, cell r1 tc = VNum p → cell r2 tc = VNum q → (p <= q)%Q)).
Proof.
  intros Hl HT Htc HdP HdE Hdt.
  destruct (percent_table_sorted σ l T tc order ordered Plain Hl HT Htc HdP HdE Hdt)
    as (r & R & Hrun & Hadj).
  exists r, R. split; [done|]. intros i r1 r2 H1 H2.
  destruct (Hadj i r1 r2 H1 H2) as (HP & HE & HC).
  split; [by apply value_leb_Plain_cases|]. split; [done|].
  intros EP EE. destruct (HC EP EE) as [Hne Hle].
  split; [done|]. by apply value_leb_Plain_cases.
Qed.

Lemma ages_df_target : target_column ages_df "Target".
Proof.
  split; [unfold has_col; cbn; repeat constructor|].
  intros Hin. repeat (apply elem_of_cons in Hin as [?|Hin]; [done|]).
  by apply elem_of_nil in Hin.
Qed.

Lemma compute_percent_sorted_witness :
  ∃ r R, compute_percent 1%positive "Target" {[ 1%positive := ages_df ]}
         = Ok (r, <[r:=R]> {[ 1%positive := ages_df ]})
    ∧ ∀ i r1 r2,
        (rows R).*2 !! i = Some r1 → (rows R).*2 !! S i = Some r2 →
        (∀ s t, cell r1 "Parent" = VStr s → cell r2 "Parent" = VStr t → str_le s t)
        ∧ (cell r1 "Parent" = cell r2 "Parent" →
           cat_rank ["Elementary"; "Middle"; "High"] (cell r1 "Education Level")
           ≤ cat_rank ["Elementary"; "Middle"; "High"] (cell r2 "Education Level"))
        ∧ (cell r1 "Parent" = cell r2 "Parent" →
           cell r1 "Education Level" = cell r2 "Education Level" →
           cell r1 "Target" ≠ cell r2 "Target"
           ∧ (∀ s t, cell r1 "Target" = VStr s → cell r2 "Target" = VStr t → str_le s t)
           ∧ (∀ p q, cell r1 "Target" = VNum p → cell r2 "Target" = VNum q
                     → (p <= q)%Q)).
Proof.
  apply (compute_percent_sorted {[ 1%positive := ages_df ]} 1%positive ages_df "Target"
           ["Elementary"; "Middle"; "High"] true).
  - apply lookup_singleton_eq.
  - apply ages_df_numeric.
  - apply ages_df_target.
  - reflexivity.
  - reflexivity.
  - reflexivity.
Defined.

Lemma stat_row_cells (T : DataFrame) (vc v : string) (a b : value) :
  numeric_column T vc →
  cell (stat_row vc v (agg_row T vc [a; b])) "Parent" = a
  ∧ cell (stat_row vc v (agg_row T vc [a; b])) "Education Level" = b.
Proof.
  intros Hvc.
  destruct (numeric_column_facts T vc Hvc) as (_ & _ & Hp & He & _).
  assert (∀ c, c ∈ group_cols →
            stat_row vc v (agg_row T vc [a; b]) !! c = key_row group_cols [a; b] !! c)
    as Hrow.
  { intros c Hc. unfold stat_row.
    assert (c ≠ "Statistic" ∧ c ≠ vc) as [Hcs Hcv].
    { unfold group_cols in Hc.
      apply elem_of_cons in Hc as [->|[->|?%elem_of_nil]%elem_of_cons];
        [split; [done|congruence]..|done]. }
    rewrite lookup_insert_ne by done.
    rewrite lookup_insert_ne by done.
    rewrite lookup_insert_ne by done.
    rewrite lookup_select, decide_True by done. by apply agg_row_key. }
  unfold cell. rewrite !Hrow by (unfold group_cols; set_solver).
  unfold group_cols. rewrite !key_row_cons.
  split; [by rewrite lookup_insert_eq|].
  rewrite lookup_insert_ne by done. by rewrite lookup_insert_eq.
Qed.

Lemma summary_table_sorted (σ : store) (l : loc) (T : DataFrame) (vc : string)
    (order : list string) (ordered : bool) :
  σ !! l = Some T → categorized T → numeric_column T vc →
  col_dtype T "Parent" = Some Plain →
  col_dtype T "Education Level" = Some (Categorical order ordered) →
  ∃ r R σ', compute_summary_stats l vc σ = Ok (r, σ') ∧ σ' !! r = Some R
    ∧ ∀ i r1 r2,
        (rows R).*2 !! i = Some r1 → (rows R).*2 !! S i = Some r2 →
        cell r1 "Statistic" = cell r2 "Statistic" →
        value_leb Plain (cell r1 "Parent") (cell r2 "Parent") = true
        ∧ (cell r1 "Parent" = cell r2 "Parent" →
           cell r1 "Education Level" ≠ cell r2 "Education Level"
           ∧ cat_rank order (cell r1 "Education Level")
             ≤ cat_rank order (cell r2 "Education Level")).
Proof.
  intros Hl HT Hvc HdP HdE. eexists _, (summary_table T vc), _.
  split; [by apply compute_summary_stats_run|].
  split; [apply lookup_insert_eq|].
  set (hdr := header_of T group_cols).
  set (gk := group_keys T hdr).
  pose proof (summary_table_rows T vc Hvc) as Hrows. fold hdr gk in Hrows.
  assert (∀ v i k1 k2, gk !! i = Some k1 → gk !! S i = Some k2 →
            let r1 := stat_row vc v (agg_row T vc k1) in
            let r2 := stat_row vc v (agg_row T vc k2) in
            value_leb Plain (cell r1 "Parent") (cell r2 "Parent") = true
            ∧ (cell r1 "Parent" = cell r2 "Parent" →
               cell r1 "Education Level" ≠ cell r2 "Education Level"
               ∧ cat_rank order (cell r1 "Education Level")
                 ≤ cat_rank order (cell r2 "Education Level"))) as Hadj.
  { intros v i k1 k2 E1 E2.
    pose proof (Sorted_adjacent _ _ i k1 k2 (group_keys_sorted T hdr) E1 E2) as Hle.
    assert (k1 ≠ k2) as Hne.
    { intros ->. pose proof (NoDup_group_keys T hdr) as Hnd.
      pose proof (NoDup_lookup _ _ _ _ Hnd E1 E2). lia. }
    destruct (summary_key_shape T k1 (list_elem_of_lookup_2 _ _ _ E1)) as [Hl1 _].
    destruct (summary_key_shape T k2 (list_elem_of_lookup_2 _ _ _ E2)) as [Hl2 _].
    destruct k1 as [|a1 [|b1 [|c1 k1]]]; cbn in Hl1; try discriminate Hl1.
    destruct k2 as [|a2 [|b2 [|c2 k2]]]; cbn in Hl2; try discriminate Hl2.
    destruct (stat_row_cells T vc v a1 b1 Hvc) as [EP1 EE1].
    destruct (stat_row_cells T vc v a2 b2 Hvc) as [EP2 EE2].
    cbv zeta. rewrite EP1, EP2, EE1, EE2.
    assert (hdr.*2 = [Plain; Categorical order ordered]) as Hds.
    { unfold hdr, header_of, group_cols. cbn. by rewrite HdP, HdE. }
    rewrite Hds in Hle. unfold key_le in Hle. cbn [key_leb] in Hle.
    destruct (decide (a1 = a2)) as [->|Ha].
    - split; [apply (value_leb_refl Plain)|]. intros _.
      destruct (decide (b1 = b2)) as [->|Hb]; [exfalso; apply Hne; reflexivity|].
      split; [exact Hb|]. apply Nat.leb_le. exact Hle.
    - split; [exact Hle|]. intros EP. contradiction. }
  intros i r1 r2. rewrite Hrows. intros H1 H2 Hst.
  destruct (decide (S i < length gk)) as [Hlt|Hge].
  - rewrite lookup_app_l in H1 by (rewrite length_fmap; lia).
    rewrite lookup_app_l in H2 by (rewrite length_fmap; lia).
    rewrite list_lookup_fmap in H1, H2.
    destruct (gk !! i) as [k1|] eqn:E1; [|done].
    destruct (gk !! S i) as [k2|] eqn:E2; [|done].
    injection H1 as <-. injection H2 as <-. by apply (Hadj "Mean_Age" i).
  - destruct (decide (length gk ≤ i)) as [Hi|Hi].
    + rewrite lookup_app_r in H1 by (rewrite length_fmap; lia).
      rewrite lookup_app_r in H2 by (rewrite length_fmap; lia).
      rewrite length_fmap in H1, H2.
      replace (S i - length gk) with (S (i - length gk)) in H2 by lia.
      rewrite list_lookup_fmap in H1, H2.
      destruct (gk !! (i - length gk)) as [k1|] eqn:E1; [|done].
      destruct (gk !! S (i - length gk)) as [k2|] eqn:E2; [|done].
      injection H1 as <-. injection H2 as <-.
      by apply (Hadj "Median_Age" (i - length gk)).
    + exfalso.
      rewrite lookup_app_l in H1 by (rewrite length_fmap; lia).
      rewrite lookup_app_r in H2 by (rewrite length_fmap; lia).
      rewrite list_lookup_fmap in H1, H2.
      destruct (gk !! i) as [k1|]; [|done].
      destruct (gk !! _) as [k2|]; [|done].
      injection H1 as <-. injection H2 as <-.
      by rewrite !(stat_row_statistic vc) in Hst.
Qed.

(** X21. Within the [Mean] rows and within the [Median] rows, the
    summary table is sorted by group: with string parents and a
    categorical [Education Level], each row's [Parent] is at most the
    next row's in string order, and where the two agree the education
    levels differ and follow the order of the categories. *)
Theorem compute_summary_stats_sorted (σ : store) (l : loc) (T : DataFrame) (vc : string)
    (order : list string) (ordered : bool) :
  σ !! l = Some T → categorized T → numeric_column T vc →
  col_dtype T "Parent" = Some Plain →
  col_dtype T "Education Level" = Some (Categorical order ordered) →
  ∃ r R σ', compute_summary_stats l vc σ = Ok (r, σ') ∧ σ' !! r = Some R
    ∧ ∀ i r1 r2,
        (rows R).*2 !! i = Some r1 → (rows R).*2 !! S i = Some r2 →
        cell r1 "Statistic" = cell r2 "Statistic" →
        (∀ s t, cell r1 "Parent" = VStr s → cell r2 "Parent" = VStr t → str_le s t)
        ∧ (cell r1 "Parent" = cell r2 "Parent" →
           cell r1 "Education Level" ≠ cell r2 "Education Level"
           ∧ cat_rank order (cell r1 "Education Level")
             ≤ cat_rank order (cell r2 "Education Level")).
Proof.
  intros Hl HT Hvc HdP HdE.
  destruct (summary_table_sorted σ l T vc order ordered Hl HT Hvc HdP HdE)
    as (r & R & σ' & Hrun & HR & Hadj).
  exists r, R, σ'. split; [done|]. split; [done|]. intros i r1 r2 H1 H2 Hst.
  destruct (Hadj i r1 r2 H1 H2 Hst) as [HP HE].
  split; [by apply value_leb_Plain_cases|done].
Qed.

Lemma compute_summary_stats_sorted_witness :
  ∃ r R σ', compute_summary_stats 1%positive "Age" {[ 1%positive := ages_df ]}
            = Ok (r, σ') ∧ σ' !! r = Some R
    ∧ ∀ i r1 r2,
        (rows R).*2 !! i = Some r1 → (rows R).*2 !! S i = Some r2 →
        cell r1 "Statistic" = cell r2 "Statistic" →
        (∀ s t, cell r1 "Parent" = VStr s → cell r2 "Parent" = VStr t → str_le s t)
        ∧ (cell r1 "Parent" = cell r2 "Parent" →
           cell r1 "Education Level" ≠ cell r2 "Education Level"
           ∧ cat_rank ["Elementary"; "Middle"; "High"] (cell r1 "Education Level")
             ≤ cat_rank ["Elementary"; "Middle"; "High"] (cell r2 "Education Level")).
Proof.
  apply (compute_summary_stats_sorted {[ 1%positive := ages_df ]} 1%positive ages_df
           "Age" ["Elementary"; "Middle"; "High"] true).
  - apply lookup_singleton_eq.
  - apply ages_df_numeric.
  - apply ages_df_numeric.
  - reflexivity.
  - reflexivity.
Defined.
